(** * panicparse: the [stack] package

    A shallow embedding of [stack/stack.go]: the function-name accessors,
    the call and signature model with its equality and ordering, the
    bucketizer, and the line-oriented dump parser [ParseDump] together
    with the regular expressions and the line scanner it drives.

    Go strings are byte strings; they are modelled as [string], one
    [ascii] per byte.  Go's [int] is taken to be 64 bits wide. *)

From Stdlib Require Import ZArith Lia Bool Ascii String List Permutation.
From stdpp Require Import base list strings.
Import ListNotations.

Local Open Scope Z_scope.

(** ** Byte strings *)

Module Str.

(** [s[:n]] *)
Fixpoint take (n : nat) (s : string) : string :=
  match n, s with
  | S n', String c s' => String c (take n' s')
  | _, _ => EmptyString
  end.

(** [strings.Repeat(string(c), n)] *)
Fixpoint rep (n : nat) (c : ascii) : string :=
  match n with
  | O => EmptyString
  | S n' => String c (rep n' c)
  end.

(** every byte of [s] satisfies [p] *)
Fixpoint all (p : ascii -> bool) (s : string) : bool :=
  match s with
  | EmptyString => true
  | String c s' => p c && all p s'
  end.

(** [s] without its longest prefix of bytes satisfying [p] *)
Fixpoint dropWhile (p : ascii -> bool) (s : string) : string :=
  match s with
  | EmptyString => EmptyString
  | String c s' => if p c then dropWhile p s' else s
  end.

(** Go's [<] on strings: bytewise lexicographic order *)
Definition ltb (a b : string) : bool :=
  match String.compare a b with Lt => true | _ => false end.

Definition gtb (a b : string) : bool := ltb b a.

End Str.

Definition NL : ascii := "010"%char.
Definition CR : ascii := "013"%char.
Definition TAB : ascii := "009"%char.
Definition DQUOTE : ascii := "034"%char.

(** ** Regular expressions

    The package compiles four patterns with [regexp.MustCompile] and uses
    them through [FindStringSubmatch].  Go's matcher returns the leftmost
    match and, among those, the one a backtracking search finds first; the
    model enumerates the matches at a position in exactly that priority
    order and takes the first.  All literals of the four patterns are ASCII,
    and [.] and the negated class accept every byte of a multi-byte rune,
    so matching byte by byte yields the same submatches as matching rune
    by rune. *)

Module Regexp.

Inductive regex : Type :=
| Eps                               (* the empty alternative of [(?:|x)] *)
| Lit (c : ascii)                   (* one literal byte *)
| Cls (p : ascii -> bool)           (* a class of bytes, or the dot *)
| Cat (a b : regex)                 (* [ab] *)
| Alt (a b : regex)                 (* [a|b], left preferred *)
| Star (a : regex)                  (* [a*], greedy *)
| Plus (a : regex)                  (* [a+], greedy *)
| Grp (i : nat) (a : regex)         (* the [i]-th capturing group *)
| Bol                               (* [^] *)
| Eol.                              (* [$] *)

(** a literal string *)
Fixpoint lits (w : string) : regex :=
  match w with
  | EmptyString => Eps
  | String c w' => Cat (Lit c) (lits w')
  end.

(** the classes used by the patterns *)
Definition digit (c : ascii) : bool :=
  (48 <=? Z.of_nat (nat_of_ascii c)) && (Z.of_nat (nat_of_ascii c) <=? 57).
Definition lower_hex (c : ascii) : bool :=
  digit c || ((97 <=? Z.of_nat (nat_of_ascii c)) && (Z.of_nat (nat_of_ascii c) <=? 102)).
Definition any (c : ascii) : bool := negb (Ascii.eqb c NL).
Definition not_rbracket (c : ascii) : bool := negb (Ascii.eqb c "]"%char).

(** A match state: the unread rest of the text and the submatches so far. *)
Definition mstate : Type := string * list string.

(** greedy iteration of [step]; an iteration that consumes nothing is
    not repeated *)
Fixpoint iter (step : string -> list string -> list mstate)
    (fuel : nat) (s : string) (c : list string) : list mstate :=
  match fuel with
  | O => [(s, c)]
  | S fuel' =>
      flat_map (fun st : mstate =>
                  if Nat.ltb (String.length (fst st)) (String.length s)
                  then iter step fuel' (fst st) (snd st) else [])
               (step s c)
      ++ [(s, c)]
  end.

(** All the ways [r] matches a prefix of [s], in the order a backtracking
    search tries them.  [text] is the whole subject, for [^]. *)
Fixpoint mr (text : string) (r : regex) (s : string) (c : list string)
  : list mstate :=
  match r with
  | Eps => [(s, c)]
  | Lit a =>
      match s with
      | String b s' => if Ascii.eqb a b then [(s', c)] else []
      | EmptyString => []
      end
  | Cls p =>
      match s with
      | String b s' => if p b then [(s', c)] else []
      | EmptyString => []
      end
  | Cat a b => flat_map (fun st : mstate => mr text b (fst st) (snd st)) (mr text a s c)
  | Alt a b => mr text a s c ++ mr text b s c
  | Star a => iter (mr text a) (String.length s) s c
  | Plus a =>
      flat_map (fun st : mstate =>
                  iter (mr text a) (String.length (fst st)) (fst st) (snd st))
               (mr text a s c)
  | Grp i a =>
      map (fun st : mstate =>
             (fst st,
              <[i := Str.take (String.length s - String.length (fst st)) s]> (snd st)))
          (mr text a s c)
  | Bol => if Nat.eqb (String.length s) (String.length text) then [(s, c)] else []
  | Eol => match s with EmptyString => [(s, c)] | _ => [] end
  end.

(** number of capturing groups *)
Fixpoint ngroups (r : regex) : nat :=
  match r with
  | Cat a b | Alt a b => Nat.max (ngroups a) (ngroups b)
  | Star a | Plus a => ngroups a
  | Grp i a => Nat.max i (ngroups a)
  | _ => O
  end.

(** the search for the leftmost match, from the suffix [s] of [text] on *)
Fixpoint find_from (re : regex) (text s : string) : option (list string) :=
  match mr text re s (replicate (S (ngroups re)) EmptyString) with
  | (s', c) :: _ =>
      Some (<[O := Str.take (String.length s - String.length s') s]> c)
  | [] =>
      match s with
      | String _ s' => find_from re text s'
      | EmptyString => None
      end
  end.

(** [re.FindStringSubmatch(text)]: [None] is Go's [nil]; otherwise the
    match and the text of every group. *)
Definition FindStringSubmatch (re : regex) (text : string) : option (list string) :=
  find_from re text text.

End Regexp.

Import Regexp.

(** [regexp.MustCompile] of "^goroutine (\\d+) \\[([^\\]]+)\\]\\:$" *)
Definition reRoutineHeader : regex :=
  Cat Bol (Cat (lits "goroutine ") (Cat (Grp 1 (Plus (Cls digit)))
  (Cat (lits " [") (Cat (Grp 2 (Plus (Cls not_rbracket)))
  (Cat (lits "]:") Eol))))).

(** [regexp.MustCompile] of
    "^(?:\t| +)(\\<autogenerated\\>|.+\\.go)\\:(\\d+)(?:| \\+0x[0-9a-f]+)$" *)
Definition reFile : regex :=
  Cat Bol (Cat (Alt (Lit TAB) (Plus (Lit " ")))
  (Cat (Grp 1 (Alt (lits "<autogenerated>") (Cat (Plus (Cls any)) (lits ".go"))))
  (Cat (Lit ":") (Cat (Grp 2 (Plus (Cls digit)))
  (Cat (Alt Eps (Cat (lits " +0x") (Plus (Cls lower_hex)))) Eol))))).

(** [regexp.MustCompile] of "^created by (.+)$" *)
Definition reCreated : regex :=
  Cat Bol (Cat (lits "created by ") (Cat (Grp 1 (Plus (Cls any))) Eol)).

(** [regexp.MustCompile] of "^(.+)\\((G)\\)$", where the group G is
    the dot, starred *)
Definition reFunc : regex :=
  Cat Bol (Cat (Grp 1 (Plus (Cls any))) (Cat (Lit "(")
  (Cat (Grp 2 (Star (Cls any))) (Cat (Lit ")") Eol)))).


(** ** The line scanner

    [bufio.NewScanner(r)] with [bufio.ScanLines] and the default buffer.
    The reader is modelled by the bytes it delivers and never fails. *)

Module bufio.

Definition MaxScanTokenSize : Z := 64 * 1024.

(** the pieces of the input between newlines; the last one is what
    follows the last newline *)
Fixpoint pieces (s : string) : list string :=
  match s with
  | EmptyString => [EmptyString]
  | String c s' =>
      if Ascii.eqb c NL then EmptyString :: pieces s'
      else match pieces s' with
           | p :: ps => String c p :: ps
           | [] => [String c EmptyString]
           end
  end.

(** [dropCR]: drop one terminal carriage return *)
Fixpoint dropCR (s : string) : string :=
  match s with
  | EmptyString => EmptyString
  | String c EmptyString => if Ascii.eqb c CR then EmptyString else s
  | String c s' => String c (dropCR s')
  end.

(** A piece of [MaxScanTokenSize] bytes or more fills the buffer before
    its newline is seen. *)
Definition tooLong (p : string) : bool :=
  MaxScanTokenSize <=? Z.of_nat (String.length p).

(** the tokens [Scan] delivers until it returns false; the flag is true
    when [Err()] is then [ErrTooLong], false when it is nil *)
Fixpoint tokens (ps : list string) : list string * bool :=
  match ps with
  | [] => ([], false)
  | p :: rest =>
      match rest with
      | [] =>
          (* the final, unterminated line; nothing at all at EOF *)
          if String.eqb p EmptyString then ([], false)
          else if tooLong p then ([], true)
          else ([dropCR p], false)
      | _ :: _ =>
          if tooLong p then ([], true)
          else (dropCR p :: fst (tokens rest), snd (tokens rest))
      end
  end.

Definition Scan (r : string) : list string * bool := tokens (pieces r).

End bufio.

(** ** [strconv.Atoi] *)

Module strconv.

Definition maxInt : Z := 2 ^ 63 - 1.
Definition minInt : Z := - 2 ^ 63.

(** the value of a string of decimal digits; [None] on any other byte *)
Fixpoint decimal (acc : Z) (s : string) : option Z :=
  match s with
  | EmptyString => Some acc
  | String c s' =>
      if digit c
      then decimal (10 * acc + (Z.of_nat (nat_of_ascii c) - 48)) s'
      else None
  end.

(** the optional sign of the number, and what follows it *)
Definition sign (s : string) : bool * string :=
  match s with
  | String c r =>
      if Ascii.eqb c "+" then (false, r)
      else if Ascii.eqb c "-" then (true, r)
      else (false, s)
  | EmptyString => (false, s)
  end.

(** [None] stands for a non-nil error (syntax or range). *)
Definition Atoi (s : string) : option Z :=
  match snd (sign s) with
  | EmptyString => None
  | body =>
      match decimal 0 body with
      | None => None
      | Some v =>
          let n := if fst (sign s) then - v else v in
          if (minInt <=? n) && (n <=? maxInt) then Some n else None
      end
  end.

End strconv.

(** ** The data model *)

Record Function : Type := { Raw : string }.

(** [Call] is an item in the stack trace. *)
Record Call : Type := {
  SourcePath : string;   (* full path name of the source file *)
  Line : Z;              (* line number *)
  Func : Function;       (* fully qualified function name (encoded) *)
  Args : string          (* call arguments *)
}.

(** [Signature] is the signature of one or multiple goroutines. *)
Record Signature : Type := {
  State : string;
  Stack : list Call;
  CreatedBy : Call       (* which other goroutine created this one *)
}.

(** [Goroutine] is the state of one goroutine; the embedded [Signature]
    is the field [signature]. *)
Record Goroutine : Type := {
  signature : Signature;
  ID : Z;
  First : bool           (* the goroutine first printed *)
}.

(** the zero value of [Call] *)
Definition zeroCall : Call :=
  {| SourcePath := ""; Line := 0; Func := {| Raw := "" |}; Args := "" |}.

(** ** [ParseDump] *)

Inductive error : Type :=
| ErrTooLong                    (* [bufio.ErrTooLong], from [scanner.Err()] *)
| Errorf (msg : string).        (* the value of [fmt.Errorf] *)

(** The variables of the loop.  [goroutine] is Go's pointer into the
    slice [goroutines]: [None] is nil, [Some i] is [&goroutines[i]].
    [out] lists the strings handed to [io.WriteString], in order. *)
Record pstate : Type := {
  goroutines : list Goroutine;
  goroutine : option nat;
  created : bool;
  out : list string
}.

Inductive outcome : Type :=
| Continue (st : pstate)                        (* next iteration *)
| Return (gs : list Goroutine) (err : error) (w : list string)
| Panic.                                        (* a run-time panic *)

(** [match[i]] *)
Definition sub (m : list string) (i : nat) : string := default EmptyString (m !! i).

(** [line + "\n"] *)
Definition withNL (line : string) : string := line +:+ String NL EmptyString.

(** assignments through the pointer [goroutine] *)
Definition setCreatedByFile (path : string) (num : Z) (g : Goroutine) : Goroutine :=
  {| signature :=
       {| State := State (signature g);
          Stack := Stack (signature g);
          CreatedBy := {| SourcePath := path; Line := num;
                          Func := Func (CreatedBy (signature g));
                          Args := Args (CreatedBy (signature g)) |} |};
     ID := ID g; First := First g |}.

Definition setCreatedByFunc (raw : string) (g : Goroutine) : Goroutine :=
  {| signature :=
       {| State := State (signature g);
          Stack := Stack (signature g);
          CreatedBy := {| SourcePath := SourcePath (CreatedBy (signature g));
                          Line := Line (CreatedBy (signature g));
                          Func := {| Raw := raw |};
                          Args := Args (CreatedBy (signature g)) |} |};
     ID := ID g; First := First g |}.

Definition setStack (stack : list Call) (g : Goroutine) : Goroutine :=
  {| signature :=
       {| State := State (signature g);
          Stack := stack;
          CreatedBy := CreatedBy (signature g) |};
     ID := ID g; First := First g |}.

Definition setFile (path : string) (num : Z) (c : Call) : Call :=
  {| SourcePath := path; Line := num; Func := Func c; Args := Args c |}.

(** [fmt.Errorf] of the format "failed to parse int on line: %s", the
    line being put between double quotes *)
Definition parseIntError (line : string) : error :=
  Errorf ("failed to parse int on line: " +:+ String DQUOTE line
          +:+ String DQUOTE EmptyString).

(** the body of the loop, for one scanned line *)
Definition step (st : pstate) (line : string) : outcome :=
  let write (g : option nat) :=
    {| goroutines := goroutines st; goroutine := g; created := created st;
       out := out st ++ [withNL line] |} in
  let update (cr : bool) (f : Goroutine -> Goroutine) (i : nat) :=
    {| goroutines := alter f i (goroutines st); goroutine := Some i;
       created := cr; out := out st |} in
  if String.eqb line EmptyString then
    Continue {| goroutines := goroutines st; goroutine := None;
                created := created st;
                out := match goroutine st with
                       | None => out st ++ [withNL line]
                       | Some _ => out st
                       end |}
  else
    match goroutine st with
    | None =>
        match FindStringSubmatch reRoutineHeader line with
        | Some m =>
            match strconv.Atoi (sub m 1) with
            | Some id =>
                Continue
                  {| goroutines :=
                       goroutines st ++
                       [ {| signature := {| State := sub m 2; Stack := [];
                                            CreatedBy := zeroCall |};
                            ID := id;
                            First := Nat.eqb (length (goroutines st)) 0 |} ];
                     goroutine := Some (length (goroutines st));
                     created := created st;
                     out := out st |}
            | None => Continue (write None)
            end
        | None => Continue (write None)
        end
    | Some p =>
        match goroutines st !! p with
        | None => Panic
        | Some g =>
            match FindStringSubmatch reFile line with
            | Some m =>
                match strconv.Atoi (sub m 2) with
                | None =>
                    Return (goroutines st) (parseIntError line) (out st)
                | Some num =>
                    if created st then
                      Continue (update false (setCreatedByFile (sub m 1) num) p)
                    else
                      (* [i := len(goroutine.Stack) - 1]; index -1 panics *)
                      match length (Stack (signature g)) with
                      | O => Panic
                      | S i =>
                          Continue
                            (update false
                               (setStack (alter (setFile (sub m 1) num) i
                                                (Stack (signature g))))
                               p)
                      end
                end
            | None =>
                match FindStringSubmatch reCreated line with
                | Some m => Continue (update true (setCreatedByFunc (sub m 1)) p)
                | None =>
                    match FindStringSubmatch reFunc line with
                    | Some m =>
                        Continue
                          (update (created st)
                             (setStack
                                (Stack (signature g) ++
                                 [ {| SourcePath := ""; Line := 0;
                                      Func := {| Raw := sub m 1 |};
                                      Args := sub m 2 |} ]))
                             p)
                    | None => Continue (write None)
                    end
                end
            end
        end
    end.

(** the loop over the scanned lines; [tooLong] is what [scanner.Err()]
    reports once [Scan] has returned false *)
Fixpoint loop (st : pstate) (lines : list string) (tooLong : bool)
  : list Goroutine * option error * list string + unit :=
  match lines with
  | [] =>
      inl (goroutines st, if tooLong then Some ErrTooLong else None, out st)
  | line :: rest =>
      match step st line with
      | Continue st' => loop st' rest tooLong
      | Return gs err w => inl (gs, Some err, w)
      | Panic => inr tt
      end
  end.

Definition initial : pstate :=
  {| goroutines := []; goroutine := None; created := false; out := [] |}.

(** [ParseDump(r, out)]: the routines, the error and what was written to
    [out]; [inr tt] when the call panics. *)
Definition ParseDump (r : string)
  : list Goroutine * option error * list string + unit :=
  loop initial (fst (bufio.Scan r)) (snd (bufio.Scan r)).

(** ** [path/filepath], for a Unix host

    [Base], [Dir], [Clean] and [Join] of Go's standard library, with ["/"]
    as the only separator and no volume names. *)

Module filepath.

Definition isSep (c : ascii) : bool := Ascii.eqb c "/"%char.

(** the elements between separators; never an empty list *)
Fixpoint split (s : string) : list string :=
  match s with
  | EmptyString => [EmptyString]
  | String c s' =>
      if isSep c then EmptyString :: split s'
      else match split s' with
           | e :: es => String c e :: es
           | [] => [String c EmptyString]
           end
  end.

(** the path without its trailing separators *)
Fixpoint stripTrailing (s : string) : string :=
  match s with
  | EmptyString => EmptyString
  | String c s' =>
      match stripTrailing s' with
      | EmptyString => if isSep c then EmptyString else String c EmptyString
      | t => String c t
      end
  end.

(** [Base]: the last element of the path *)
Definition Base (path : string) : string :=
  if String.eqb path EmptyString then "."
  else
    let e := List.last (split (stripTrailing path)) EmptyString in
    if String.eqb e EmptyString then "/" else e.

(** one element of the path pushed on the elements kept so far (the
    last kept element first) *)
Definition push (rooted : bool) (kept : list string) (e : string) : list string :=
  if String.eqb e EmptyString || String.eqb e "." then kept
  else if String.eqb e ".." then
    match kept with
    | top :: below => if String.eqb top ".." then e :: kept else below
    | [] => if rooted then [] else [e]
    end
  else e :: kept.

Fixpoint join (es : list string) : string :=
  match es with
  | [] => EmptyString
  | [e] => e
  | e :: es' => e +:+ "/" +:+ join es'
  end.

(** [Clean]: the shortest equivalent path, by lexical processing *)
Definition Clean (path : string) : string :=
  let rooted := match path with String c _ => isSep c | EmptyString => false end in
  let body := join (rev (fold_left (push rooted) (split path) [])) in
  if rooted then "/" +:+ body
  else if String.eqb body EmptyString then "." else body.

(** [Dir]: all but the last element of the path, cleaned *)
Definition Dir (path : string) : string :=
  Clean (fold_right (fun e acc => e +:+ "/" +:+ acc) EmptyString
           (removelast (split path))).

(** [Join] of two elements *)
Definition Join (a b : string) : string :=
  if negb (String.eqb a EmptyString) then Clean (a +:+ "/" +:+ b)
  else if negb (String.eqb b EmptyString) then Clean b
  else EmptyString.

End filepath.

(** ** [Function] and [Call] accessors *)

Module strings.

(** the text before and after the first ["."], if there is one *)
Fixpoint cutDot (s : string) : option (string * string) :=
  match s with
  | EmptyString => None
  | String c s' =>
      if Ascii.eqb c "."%char then Some (EmptyString, s')
      else match cutDot s' with
           | Some (a, b) => Some (String c a, b)
           | None => None
           end
  end.

(** [strings.SplitN(s, ".", 2)] *)
Definition SplitN_dot_2 (s : string) : list string :=
  match cutDot s with
  | Some (a, b) => [a; b]
  | None => [s]
  end.

End strings.

(** [Function.Name] is the naked function name: [parts[1]].  [None]
    stands for the index-out-of-range panic. *)
Definition Name (f : Function) : option string :=
  strings.SplitN_dot_2 (filepath.Base (Raw f)) !! 1%nat.

(** [Call.SourceName] returns the file name of the source file. *)
Definition SourceName (c : Call) : string := filepath.Base (SourcePath c).

(** [Call.PkgSource] is one directory plus the file name of the source file. *)
Definition PkgSource (c : Call) : string :=
  filepath.Join (filepath.Base (filepath.Dir (SourcePath c))) (SourceName c).

(** ** [Signature.Equal] and [Signature.Less] *)

(** Go's [==] on two [Call] values *)
Definition Call_eqb (a b : Call) : bool :=
  String.eqb (SourcePath a) (SourcePath b) && (Line a =? Line b) &&
  String.eqb (Raw (Func a)) (Raw (Func b)) && String.eqb (Args a) (Args b).

(** the loop of [Equal] over [l.Stack], reading [r.Stack] at the same
    index; it runs only on stacks of equal length *)
Fixpoint equalStacks (l r : list Call) : bool :=
  match l, r with
  | [], _ => true
  | a :: l', b :: r' => if negb (Call_eqb a b) then false else equalStacks l' r'
  | _ :: _, [] => false
  end.

Definition Equal (l r : Signature) : bool :=
  if negb (String.eqb (State l) (State r))
     || negb (Nat.eqb (length (Stack l)) (length (Stack r)))
     || negb (Call_eqb (CreatedBy l) (CreatedBy r))
  then false
  else equalStacks (Stack l) (Stack r).

(** the loop of [Less] over [l.Stack]; it runs only on stacks of equal
    length *)
Fixpoint lessStacks (l r : list Call) : bool :=
  match l, r with
  | a :: l', b :: r' =>
      if Str.ltb (Raw (Func a)) (Raw (Func b)) then true
      else if Str.gtb (Raw (Func a)) (Raw (Func b)) then true
      else if Str.ltb (PkgSource a) (PkgSource b) then true
      else if Str.gtb (PkgSource a) (PkgSource b) then true
      else if Line a <? Line b then true
      else if Line a >? Line b then true
      else lessStacks l' r'
  | _, _ => false
  end.

Definition Less (l r : Signature) : bool :=
  if Str.ltb (State l) (State r) then true
  else if Str.gtb (State l) (State r) then false
  else if Nat.ltb (length (Stack l)) (length (Stack r)) then true
  else if Nat.ltb (length (Stack r)) (length (Stack l)) then false
  else lessStacks (Stack l) (Stack r).

(** ** [Bucketize]

    The result is a Go map keyed by freshly allocated [*Signature]
    pointers: a list of entries, one per allocation.  Go leaves the order
    in which [range] visits a map unspecified; a [MapOrder] fixes, for
    every map, the order in which its entries are visited. *)

Definition buckets : Type := list (Signature * list Goroutine).

Record MapOrder : Type := {
  visit : buckets -> list nat;
  visit_perm : forall m, Permutation (visit m) (seq 0 (length m))
}.

(** the entries in the order of their allocation *)
Definition allocationOrder : MapOrder :=
  {| visit := fun m => seq 0 (length m);
     visit_perm := fun m => Permutation_refl _ |}.

(** the inner loop: the first visited key equal to the routine's signature *)
Definition findKey (o : MapOrder) (m : buckets) (routine : Goroutine) : option nat :=
  List.find (fun i => match m !! i with
                      | Some (key, _) => Equal key (signature routine)
                      | None => false
                      end)
            (visit o m).

(** the body of the outer loop *)
Definition place (o : MapOrder) (m : buckets) (routine : Goroutine) : buckets :=
  match findKey o m routine with
  | Some i => alter (fun e => (fst e, snd e ++ [routine])) i m
  | None => m ++ [(signature routine, [routine])]
  end.

Definition Bucketize (o : MapOrder) (goroutines : list Goroutine) : buckets :=
  fold_left (place o) goroutines [].

(** ** Auxiliary notions for the statements *)

(** the iterations of the loop over a run of lines, as long as none of
    them returns or panics *)
Fixpoint steps (st : pstate) (lines : list string) : outcome :=
  match lines with
  | [] => Continue st
  | line :: rest =>
      match step st line with
      | Continue st' => steps st' rest
      | o => o
      end
  end.

(** what [ParseDump] yields from the outcome of the loop *)
Definition finish (tooLong : bool) (o : outcome)
  : list Goroutine * option error * list string + unit :=
  match o with
  | Continue st =>
      inl (goroutines st, if tooLong then Some ErrTooLong else None, out st)
  | Return gs err w => inl (gs, Some err, w)
  | Panic => inr tt
  end.

(** the pointer [goroutine], when not nil, is the address of the last
    element of [goroutines] *)
Definition pointsToLast (st : pstate) : Prop :=
  forall p, goroutine st = Some p -> S p = length (goroutines st).

(** only the routine at index 0 is flagged [First] *)
Definition firstOnlyAtHead (gs : list Goroutine) : Prop :=
  forall i g, gs !! i = Some g -> First g = Nat.eqb i 0.

(** the text made of the given lines, each ended by a newline *)
Definition unlines (ls : list string) : string :=
  fold_right (fun l acc => withNL l +:+ acc) EmptyString ls.

(** the number of routines flagged [First] *)
Definition countFirst (gs : list Goroutine) : nat :=
  length (List.filter First gs).

(** a line no scanner token can hold, followed by one routine *)
Definition oversizedPrelude : string :=
  Str.rep (Z.to_nat (bufio.MaxScanTokenSize + 1)) "a"
  +:+ String NL
        (unlines [ "goroutine 1 [running]:"; "main.main()";
                   String TAB "/src/main/main.go:12 +0x27"; "" ]).

(** one line of [MaxScanTokenSize] spaces *)
Definition oversizedBlank : string :=
  Str.rep (Z.to_nat bufio.MaxScanTokenSize) " " +:+ String NL EmptyString.

(** a line of [n] spaces, ended by a newline or by a carriage return and
    a newline *)
Definition blankLine (l : nat * bool) : string :=
  Str.rep (fst l) " "
  +:+ (if snd l then String CR (String NL EmptyString) else String NL EmptyString).

(** a text of such lines, followed by [k] spaces without a newline *)
Fixpoint blankText (ls : list (nat * bool)) (k : nat) : string :=
  match ls with
  | [] => Str.rep k " "
  | l :: ls' => blankLine l +:+ blankText ls' k
  end.

(** the bytes of a line of [blankText] up to its newline fit the buffer *)
Definition fitsBuffer (l : nat * bool) : Prop :=
  Z.of_nat (fst l) + (if snd l then 1 else 0) < bufio.MaxScanTokenSize.

(** the routines of all buckets, bucket after bucket *)
Definition members (m : buckets) : list Goroutine := concat (map snd m).

(** the sum over all buckets of the number of member routines *)
Definition totalSize (m : buckets) : nat :=
  fold_right (fun e acc => (length (snd e) + acc)%nat) O m.

(** every member of every bucket has a signature equal to the bucket's key *)
Definition consistent (m : buckets) : Prop :=
  Forall (fun e => Forall (fun g => Equal (fst e) (signature g) = true) (snd e)) m.

(** two frames agree on the triple of function name, parent directory
    and base name of the source path, and line number *)
Definition sameTriple (a b : Call) : Prop :=
  Raw (Func a) = Raw (Func b) /\ PkgSource a = PkgSource b /\ Line a = Line b.

(** Equality of signatures as the specification words it, on the fields
    a [Signature] has here (it has no elision flag and no [Locked] flag):
    the states, the stack lengths and the triples of all frames agree,
    and the [CreatedBy] calls agree field for field. *)
Definition specEqual (l r : Signature) : Prop :=
  State l = State r /\
  length (Stack l) = length (Stack r) /\
  Forall2 sameTriple (Stack l) (Stack r) /\
  CreatedBy l = CreatedBy r.

(** two calls agree on every field *)
Definition sameCall (a b : Call) : Prop :=
  SourcePath a = SourcePath b /\ Line a = Line b /\
  Raw (Func a) = Raw (Func b) /\ Args a = Args b.

(** *** The file lines [reFile] is written for *)

(** the indentation: one tab, or spaces not followed by a further space *)
Definition isIndent (indent path : string) : Prop :=
  indent = String TAB EmptyString \/
  ((exists n, indent = Str.rep (S n) " ") /\ forall t, path <> String " " t).

(** the path: the marker of generated code, or a Go source file *)
Definition isPath (path : string) : Prop :=
  path = "<autogenerated>" \/
  exists stem, stem <> EmptyString /\ Str.all any stem = true /\ path = stem +:+ ".go".

(** the line number: decimal digits *)
Definition isNumber (digits : string) : Prop :=
  digits <> EmptyString /\ Str.all digit digits = true.

(** the byte offset: absent, or a space, a plus sign and a hexadecimal
    number in lower case *)
Definition isOffset (offset : string) : Prop :=
  offset = EmptyString \/
  exists h, h <> EmptyString /\ Str.all lower_hex h = true /\ offset = " +0x" +:+ h.

Definition fileLine (indent path digits offset : string) : string :=
  indent +:+ path +:+ String ":" (digits +:+ offset).

(** the parts of [reFile] *)
Definition reFile_indent : regex := Alt (Lit TAB) (Plus (Lit " ")).
Definition reFile_path : regex :=
  Grp 1 (Alt (lits "<autogenerated>") (Cat (Plus (Cls any)) (lits ".go"))).
Definition reFile_number : regex := Grp 2 (Plus (Cls digit)).
Definition reFile_offset : regex := Alt Eps (Cat (lits " +0x") (Plus (Cls lower_hex))).
Definition reFile_body : regex :=
  Cat reFile_path (Cat (Lit ":") (Cat reFile_number (Cat reFile_offset Eol))).

Definition notColon (c : ascii) : bool := negb (Ascii.eqb c ":").

(** what may follow the digits of a number: nothing, or a byte that is
    no digit *)
Definition noDigitAhead (s : string) : Prop :=
  match s with
  | EmptyString => True
  | String c _ => digit c = false
  end.

(** *** Values used in examples and statements *)

(** a frame, from its function name, source path, line and arguments *)
Definition frame (raw path : string) (line : Z) (args : string) : Call :=
  {| SourcePath := path; Line := line; Func := {| Raw := raw |}; Args := args |}.

(** a signature without [CreatedBy] *)
Definition sigOf (state : string) (stack : list Call) : Signature :=
  {| State := state; Stack := stack; CreatedBy := zeroCall |}.

(** a dump of two routines *)
Definition twoRoutines : string :=
  unlines [ "goroutine 1 [running]:"; "main.main()";
            String TAB "/src/main/main.go:12 +0x27"; "";
            "goroutine 7 [chan receive]:"; "main.worker(0x1)";
            String TAB "/src/main/work.go:30 +0x45" ].

(** the variables of the loop after the header of routine 1 *)
Definition afterHeader : pstate :=
  {| goroutines := [ {| signature := sigOf "running" []; ID := 1; First := true |} ];
     goroutine := Some O; created := false; out := [] |}.

(** a dump whose file line carries a line number beyond the largest [int] *)
Definition overflowingDump : string :=
  unlines [ "panic: reflect.Set: value of type"; "";
            "goroutine 1 [running]:";
            "github.com/maruel/panicparse/stack/stack.recurseType()";
            String TAB "/gopath/src/github.com/maruel/panicparse/stack/stack.go:12345678901234567890";
            "" ].

(** a line of [blankText] without its newline *)
Definition rawBlank (l : nat * bool) : string :=
  Str.rep (fst l) " " +:+ (if snd l then String CR EmptyString else EmptyString).

(** the lines the scanner delivers for [blankText ls k] *)
Definition blankTokens (ls : list (nat * bool)) (k : nat) : list string :=
  map (fun l => Str.rep (fst l) " ") ls
  ++ match k with O => [] | S _ => [Str.rep k " "] end.

(** the variables of the loop after the header of routine 1 and the
    function line of [main.main] *)
Definition inMain : pstate :=
  {| goroutines :=
       [ {| signature := sigOf "running" [frame "main.main" "" 0 ""];
            ID := 1; First := true |} ];
     goroutine := Some O; created := false; out := [] |}.

(** *** Further values used in statements *)

(** two signatures that differ in the arguments of their frame and in
    the directories above its parent directory *)
Definition sigHere : Signature :=
  sigOf "running" [frame "main.f" "/home/a/src/pkg/f.go" 10 "0x1"].
Definition sigThere : Signature :=
  sigOf "running" [frame "main.f" "/home/b/src/pkg/f.go" 10 "0x2"].

(** ** [Bucket] *)

(** [Bucket] is a stack trace signature with its routines; the embedded
    [Signature] is the field [bucketSignature]. *)
Record Bucket : Type := {
  bucketSignature : Signature;
  Routines : list Goroutine
}.

(** [Bucket.First]: some routine of the bucket is the first one *)
Fixpoint anyFirst (rs : list Goroutine) : bool :=
  match rs with
  | [] => false
  | r :: rest => if First r then true else anyFirst rest
  end.

Definition Bucket_First (b : Bucket) : bool := anyFirst (Routines b).

(** [Bucket.Less] does reverse sort. *)
Definition Bucket_Less (b r : Bucket) : bool :=
  if Bucket_First b then true
  else if Bucket_First r then false
  else if Nat.ltb (length (Routines r)) (length (Routines b)) then true
  else if Nat.ltb (length (Routines b)) (length (Routines r)) then false
  else Less (bucketSignature b) (bucketSignature r).

(** the [Bucket] that [SortBuckets] makes of an entry of the map *)
Definition toBucket (e : Signature * list Goroutine) : Bucket :=
  {| bucketSignature := fst e; Routines := snd e |}.

(** the routines whose signature is [Equal] to [key], in their order *)
Definition withSignature (key : Signature) (gs : list Goroutine) : list Goroutine :=
  List.filter (fun g => Equal key (signature g)) gs.

(** what [Bucketize] keeps true of the map after the routines [done]:
    the keys differ from each other, every bucket holds the routines of
    its signature in their order, and every routine has its key *)
Definition grouped (m : buckets) (done : list Goroutine) : Prop :=
  NoDup (map fst m) /\
  (forall i key rs, m !! i = Some (key, rs) ->
                    rs = withSignature key done /\ rs <> []) /\
  (forall g, In g done -> In (signature g) (map fst m)).

(** *** The lines of a routine *)

(** the header of a routine: its number and, between brackets, its state *)
Definition headerLine (digits state : string) : string :=
  "goroutine " +:+ digits +:+ " [" +:+ state +:+ "]:".

(** the state: bytes other than the closing bracket, at least one *)
Definition isState (state : string) : Prop :=
  state <> EmptyString /\ Str.all not_rbracket state = true.

(** [reRoutineHeader] after its [^] *)
Definition reRoutineHeader_body : regex :=
  Cat (lits "goroutine ") (Cat (Grp 1 (Plus (Cls digit)))
  (Cat (lits " [") (Cat (Grp 2 (Plus (Cls not_rbracket)))
  (Cat (lits "]:") Eol)))).

(** what may follow a run of bytes of the class [p]: nothing, or a byte
    outside the class *)
Definition noneAhead (p : ascii -> bool) (s : string) : Prop :=
  match s with
  | EmptyString => True
  | String c _ => p c = false
  end.

(** a function line: the name of the function and, between parentheses,
    the arguments of the call *)
Definition funcLine (name args : string) : string :=
  name +:+ String "(" (args +:+ ")").

(** the line that names the function which started the routine *)
Definition createdLine (name : string) : string := "created by " +:+ name.

Definition notParen (c : ascii) : bool := negb (Ascii.eqb "(" c).

(** the line starts with a tab or a space *)
Definition startsIndented (s : string) : bool :=
  match s with
  | String c _ => Ascii.eqb TAB c || Ascii.eqb " " c
  | EmptyString => false
  end.

(** the name of a function as a function line shows it: bytes other than
    the newline, at least one, not indented and not the start of a
    created-by line *)
Definition isFuncName (name : string) : Prop :=
  name <> EmptyString /\ Str.all any name = true /\
  startsIndented name = false /\ String.prefix "created by " name = false.

(** the arguments of a call: bytes other than the newline and the
    opening parenthesis *)
Definition isArgs (args : string) : Prop :=
  Str.all any args = true /\ Str.all notParen args = true.

(** the rests of [s] after each run of leading bytes of the class [p],
    the longest run first *)
Fixpoint tails (p : ascii -> bool) (s : string) : list string :=
  match s with
  | EmptyString => [EmptyString]
  | String b t => if p b then tails p t ++ [s] else [s]
  end.

(** the parts of [reFunc] and of [reCreated] *)
Definition reFunc_name : regex := Grp 1 (Plus (Cls any)).
Definition reFunc_rest : regex :=
  Cat (Lit "(") (Cat (Grp 2 (Star (Cls any))) (Cat (Lit ")") Eol)).
Definition reCreated_body : regex :=
  Cat (lits "created by ") (Cat (Grp 1 (Plus (Cls any))) Eol).

(** *** The text of a dump *)

(** a frame as a dump shows it, on a function line and a file line *)
Record frameText : Type := {
  ftName : string; ftArgs : string;
  ftIndent : string; ftPath : string; ftDigits : string; ftOffset : string
}.

(** the creator of a routine as a dump shows it, on a created-by line and
    a file line *)
Record creatorText : Type := {
  ctName : string;
  ctIndent : string; ctPath : string; ctDigits : string; ctOffset : string
}.

(** a routine as a dump shows it: a header, the frames, the creator if
    any, and an empty line *)
Record routineText : Type := {
  rtDigits : string; rtState : string;
  rtFrames : list frameText; rtCreator : option creatorText
}.

Definition frameLines (f : frameText) : list string :=
  [ funcLine (ftName f) (ftArgs f);
    fileLine (ftIndent f) (ftPath f) (ftDigits f) (ftOffset f) ].

Definition creatorLines (c : option creatorText) : list string :=
  match c with
  | Some c => [ createdLine (ctName c);
                fileLine (ctIndent c) (ctPath c) (ctDigits c) (ctOffset c) ]
  | None => []
  end.

Definition routineLines (r : routineText) : list string :=
  headerLine (rtDigits r) (rtState r)
  :: concat (map frameLines (rtFrames r))
  ++ creatorLines (rtCreator r) ++ [EmptyString].

Definition dumpLines (rs : list routineText) : list string :=
  concat (map routineLines rs).

(** the number that decimal digits denote, when it fits an [int] *)
Definition numberOf (digits : string) : Z := default 0 (strconv.Atoi digits).

(** decimal digits of a number that fits an [int] *)
Definition isNumeral (digits : string) : Prop :=
  isNumber digits /\ strconv.Atoi digits <> None.

(** the values the texts stand for *)
Definition frameOf (f : frameText) : Call :=
  frame (ftName f) (ftPath f) (numberOf (ftDigits f)) (ftArgs f).

Definition creatorOf (c : option creatorText) : Call :=
  match c with
  | Some c => frame (ctName c) (ctPath c) (numberOf (ctDigits c)) ""
  | None => zeroCall
  end.

Definition routineOf (first : bool) (r : routineText) : Goroutine :=
  {| signature := {| State := rtState r;
                     Stack := map frameOf (rtFrames r);
                     CreatedBy := creatorOf (rtCreator r) |};
     ID := numberOf (rtDigits r);
     First := first |}.

Definition routinesOf (rs : list routineText) : list Goroutine :=
  match rs with
  | [] => []
  | r :: rest => routineOf true r :: map (routineOf false) rest
  end.

Definition wellFormedFrame (f : frameText) : Prop :=
  isFuncName (ftName f) /\ isArgs (ftArgs f) /\
  isIndent (ftIndent f) (ftPath f) /\ isPath (ftPath f) /\
  isNumeral (ftDigits f) /\ isOffset (ftOffset f).

Definition wellFormedCreator (c : option creatorText) : Prop :=
  match c with
  | Some c =>
      ctName c <> EmptyString /\ Str.all any (ctName c) = true /\
      isIndent (ctIndent c) (ctPath c) /\ isPath (ctPath c) /\
      isNumeral (ctDigits c) /\ isOffset (ctOffset c)
  | None => True
  end.

Definition wellFormedRoutine (r : routineText) : Prop :=
  isNumeral (rtDigits r) /\ isState (rtState r) /\
  Forall wellFormedFrame (rtFrames r) /\ wellFormedCreator (rtCreator r).

(** a line the scanner hands over as it is: no newline inside, no
    carriage return at the end, shorter than the scanner's buffer *)
Definition scannable (l : string) : Prop :=
  Str.all any l = true /\ bufio.dropCR l = l /\
  Z.of_nat (String.length l) < bufio.MaxScanTokenSize.

(** the same, as a test *)
Definition scannableb (l : string) : bool :=
  Str.all any l && String.eqb (bufio.dropCR l) l
  && (Z.of_nat (String.length l) <? bufio.MaxScanTokenSize).

(** a line that is no routine header *)
Definition notHeader (l : string) : Prop :=
  FindStringSubmatch reRoutineHeader l = None.

(** the variables of the loop between two routines *)
Definition between (gs : list Goroutine) (w : list string) : pstate :=
  {| goroutines := gs; goroutine := None; created := false; out := w |}.

(** the variables of the loop inside the routine [g], the last one *)
Definition inside (gs : list Goroutine) (g : Goroutine) (cr : bool) (w : list string)
  : pstate :=
  {| goroutines := gs ++ [g]; goroutine := Some (length gs); created := cr; out := w |}.

(** a dump in which the frame of routine 1, of a method with a pointer
    receiver, is followed by the creator, after two lines that belong to
    no routine *)
Definition sampleJunk : list string := [ "panic: oops"; "" ].
Definition sampleDump : list routineText :=
  [ {| rtDigits := "1"; rtState := "running";
       rtFrames := [ {| ftName := "main.(" +:+ "*T).Run"; ftArgs := "0xc208012000, 0x1";
                        ftIndent := String TAB EmptyString;
                        ftPath := "/gopath/src/main/t.go"; ftDigits := "72";
                        ftOffset := " +0x5d" |};
                     {| ftName := "main.main"; ftArgs := "";
                        ftIndent := String TAB EmptyString;
                        ftPath := "/gopath/src/main/main.go"; ftDigits := "12";
                        ftOffset := "" |} ];
       rtCreator := None |};
    {| rtDigits := "7"; rtState := "chan receive";
       rtFrames := [ {| ftName := "main.worker"; ftArgs := "0x1";
                        ftIndent := "  ";
                        ftPath := "/gopath/src/main/work.go"; ftDigits := "30";
                        ftOffset := " +0x45" |} ];
       rtCreator := Some {| ctName := "main.start";
                            ctIndent := String TAB EmptyString;
                            ctPath := "/gopath/src/main/main.go"; ctDigits := "10";
                            ctOffset := " +0x1f" |} |} ].

(** the text made of the given lines, each ended by a carriage return
    and a newline *)
Definition unlinesCRLF (ls : list string) : string :=
  fold_right (fun l acc => l +:+ String CR (String NL acc)) EmptyString ls.

(** a scannable line that, with a carriage return added, still fits the
    scanner's buffer *)
Definition scannableCRLF (l : string) : Prop :=
  scannable l /\ Z.of_nat (String.length l) + 1 < bufio.MaxScanTokenSize.

(** *** Paths and symbols *)

(** no byte of [s] is a separator; no byte of [s] is a dot *)
Definition noSep (s : string) : bool :=
  Str.all (fun c => negb (filepath.isSep c)) s.
Definition noDot (s : string) : bool :=
  Str.all (fun c => negb (Ascii.eqb c ".")) s.

(** what may stand before the last element of a path: nothing, or a path
    ended by a separator *)
Definition isDirPrefix (d : string) : Prop :=
  d = EmptyString \/ exists d', d = d' +:+ "/".

(** a name of a file or directory: no separator, and none of the empty
    name, ["."] and [".."] *)
Definition isElement (e : string) : Prop :=
  e <> EmptyString /\ noSep e = true /\ e <> "." /\ e <> "..".

(** the first [n] routines are closed: the pointer [goroutine], when not
    nil, is the address of a later one *)
Definition closed (n : nat) (st : pstate) : Prop :=
  (n <= length (goroutines st))%nat /\
  forall p, goroutine st = Some p -> (n <= p)%nat.

(** ** [net/url] and the accessors that decode a symbol *)

Module url.

Definition ishex (c : ascii) : bool :=
  let n := Z.of_nat (nat_of_ascii c) in
  ((48 <=? n) && (n <=? 57)) || ((97 <=? n) && (n <=? 102))
  || ((65 <=? n) && (n <=? 70)).

Definition unhex (c : ascii) : Z :=
  let n := Z.of_nat (nat_of_ascii c) in
  if (48 <=? n) && (n <=? 57) then n - 48
  else if (97 <=? n) && (n <=? 102) then n - 97 + 10
  else if (65 <=? n) && (n <=? 70) then n - 65 + 10
  else 0.

(** [unescape(s, encodeQueryComponent)]: a percent sign and two
    hexadecimal digits stand for one byte, a plus sign for a space;
    [None] is the [EscapeError] of a percent sign followed by anything
    else *)
Fixpoint unescape (s : string) : option string :=
  match s with
  | EmptyString => Some EmptyString
  | String c rest =>
      if Ascii.eqb c "%" then
        match rest with
        | String a (String b rest') =>
            if ishex a && ishex b
            then option_map
                   (String (ascii_of_nat (Z.to_nat (unhex a * 16 + unhex b))))
                   (unescape rest')
            else None
        | _ => None
        end
      else if Ascii.eqb c "+" then option_map (String " ") (unescape rest)
      else option_map (String c) (unescape rest)
  end.

Definition QueryUnescape (s : string) : option string := unescape s.

End url.

(** [Function.String] is the fully qualified function name; the error of
    [QueryUnescape] is dropped, and the string is then empty. *)
Definition Function_String (f : Function) : string :=
  default EmptyString (url.QueryUnescape (Raw f)).

(** [Function.PkgName] is the package name for this function reference. *)
Definition PkgName (f : Function) : string :=
  match strings.SplitN_dot_2 (filepath.Base (Raw f)) with
  | part0 :: _ => default EmptyString (url.QueryUnescape part0)
  | [] => EmptyString   (* [SplitN] returns at least one part *)
  end.

(** [Function.PkgDotName] returns the package and the function, with a
    dot between them.  [None] stands for the index-out-of-range panic of
    [parts[1]]. *)
Definition PkgDotName (f : Function) : option string :=
  match strings.SplitN_dot_2 (filepath.Base (Raw f)) with
  | part0 :: part1 :: _ =>
      let s := default EmptyString (url.QueryUnescape part0) in
      if negb (String.eqb s EmptyString) || negb (String.eqb part1 EmptyString)
      then Some (s +:+ "." +:+ part1)
      else Some EmptyString
  | _ => None
  end.

(** [Call.IsPkgMain] returns true if it is in the main package. *)
Definition IsPkgMain (c : Call) : bool := String.eqb (PkgName (Func c)) "main".

(** no byte of [s] is a percent sign or a plus sign *)
Definition plain (s : string) : bool :=
  Str.all (fun c => negb (Ascii.eqb c "%") && negb (Ascii.eqb c "+")) s.

(** a package name as a symbol holds it: every dot written as [%2e] *)
Fixpoint escapeDots (s : string) : string :=
  match s with
  | EmptyString => EmptyString
  | String c rest =>
      if Ascii.eqb c "." then "%2e" +:+ escapeDots rest
      else String c (escapeDots rest)
  end.

(** the text starts with two hexadecimal digits *)
Definition twoHexAhead (s : string) : bool :=
  match s with
  | String a (String b _) => url.ishex a && url.ishex b
  | _ => false
  end.

(** a dump in which the creator of routine 1 is in an assembly file,
    up to the function line of the first frame of routine 2 *)
Definition pendingCreator : list string :=
  [ "goroutine 1 [running]:"; "main.main()"; "created by main.start";
    String TAB "/goroot/src/runtime/asm_amd64.s:198 +0x1f";
    "goroutine 2 [select]:"; "main.f()" ].

(** the variables of the loop after these lines *)
Definition afterPendingCreator : pstate :=
  {| goroutines :=
       [ {| signature :=
              {| State := "running"; Stack := [frame "main.main" "" 0 ""];
                 CreatedBy := frame "main.start" "" 0 "" |};
            ID := 1; First := true |};
         {| signature := sigOf "select" [frame "main.f" "" 0 ""];
            ID := 2; First := false |} ];
     goroutine := Some 1%nat; created := true;
     out := [withNL (String TAB "/goroot/src/runtime/asm_amd64.s:198 +0x1f")] |}.

(** * Properties *)

(** ** Byte-string algebra *)

Lemma append_cons (a : ascii) (s t : string) :
  String a s +:+ t = String a (s +:+ t).
Proof. reflexivity. Qed.

Lemma append_nil_l (t : string) : EmptyString +:+ t = t.
Proof. reflexivity. Qed.

Lemma append_nil_r (s : string) : s +:+ EmptyString = s.
Proof. induction s as [|a s IH]; [reflexivity|]. rewrite append_cons, IH. reflexivity. Qed.

Lemma append_assoc (s t u : string) : (s +:+ t) +:+ u = s +:+ (t +:+ u).
Proof.
  induction s as [|a s IH]; [reflexivity|]. rewrite !append_cons, IH. reflexivity.
Qed.

Lemma length_append (s t : string) :
  String.length (s +:+ t) = (String.length s + String.length t)%nat.
Proof.
  induction s as [|a s IH]; [reflexivity|]. rewrite append_cons. simpl. rewrite IH.
  reflexivity.
Qed.

Lemma all_append (p : ascii -> bool) (s t : string) :
  Str.all p (s +:+ t) = Str.all p s && Str.all p t.
Proof.
  induction s as [|a s IH]; [reflexivity|]. rewrite append_cons. simpl.
  rewrite IH. apply andb_assoc.
Qed.

(** ** Anchored patterns *)

Lemma mr_Cat_Bol (text : string) (r : regex) (s : string) (c : list string) :
  mr text (Cat Bol r) s c =
  if Nat.eqb (String.length s) (String.length text) then mr text r s c else [].
Proof.
  simpl. destruct (Nat.eqb (String.length s) (String.length text)); simpl.
  - apply app_nil_r.
  - reflexivity.
Qed.

(** A pattern that starts with [^] matches at the start of the text only. *)
Lemma find_from_Bol (r : regex) (text s : string) :
  (String.length s < String.length text)%nat ->
  find_from (Cat Bol r) text s = None.
Proof.
  induction s as [|a s IH]; intros Hlt.
  - unfold find_from. rewrite mr_Cat_Bol.
    destruct (Nat.eqb_spec (String.length EmptyString) (String.length text)); [lia|].
    reflexivity.
  - change (find_from (Cat Bol r) text (String a s)) with
      (match mr text (Cat Bol r) (String a s)
               (replicate (S (ngroups (Cat Bol r))) EmptyString) with
       | (s', c) :: _ =>
           Some (<[O := Str.take (String.length (String a s) - String.length s')
                          (String a s)]> c)
       | [] => find_from (Cat Bol r) text s
       end).
    rewrite mr_Cat_Bol.
    destruct (Nat.eqb_spec (String.length (String a s)) (String.length text)); [lia|].
    apply IH. simpl in Hlt. lia.
Qed.

Lemma FindStringSubmatch_Bol (r : regex) (text : string) :
  FindStringSubmatch (Cat Bol r) text =
  match mr text r text (replicate (S (ngroups r)) EmptyString) with
  | (s', c) :: _ =>
      Some (<[O := Str.take (String.length text - String.length s') text]> c)
  | [] => None
  end.
Proof.
  unfold FindStringSubmatch.
  destruct text as [|a t].
  - unfold find_from. rewrite mr_Cat_Bol. simpl Nat.eqb. cbv iota.
    change (ngroups (Cat Bol r)) with (ngroups r).
    destruct (mr EmptyString r EmptyString _) as [|[s' c] l]; reflexivity.
  - change (find_from (Cat Bol r) (String a t) (String a t)) with
      (match mr (String a t) (Cat Bol r) (String a t)
               (replicate (S (ngroups r)) EmptyString) with
       | (s', c) :: _ =>
           Some (<[O := Str.take (String.length (String a t) - String.length s')
                          (String a t)]> c)
       | [] => find_from (Cat Bol r) (String a t) t
       end).
    rewrite mr_Cat_Bol, Nat.eqb_refl.
    destruct (mr (String a t) r (String a t) _) as [|[s' c] l]; [|reflexivity].
    apply find_from_Bol. simpl. lia.
Qed.

(** A line that does not start with the letter g is no routine header. *)
Lemma reRoutineHeader_first_byte (a : ascii) (t : string) :
  Ascii.eqb "g" a = false ->
  FindStringSubmatch reRoutineHeader (String a t) = None.
Proof.
  intros Ha. unfold reRoutineHeader. rewrite FindStringSubmatch_Bol.
  cbn [lits]. cbn [mr]. rewrite Ha. reflexivity.
Qed.

(** ** The matches of a pattern

    Membership in the list of matches, combinator by combinator. *)

Lemma In_Cat text (a b : regex) s c (x : mstate) :
  In x (mr text (Cat a b) s c) <->
  exists s1 c1, In (s1, c1) (mr text a s c) /\ In x (mr text b s1 c1).
Proof.
  cbn [mr]. rewrite in_flat_map. split.
  - intros ([s1 c1] & H1 & H2). eauto.
  - intros (s1 & c1 & H1 & H2). exists (s1, c1). auto.
Qed.

Lemma mr_Cat text (a b : regex) s c :
  mr text (Cat a b) s c
  = flat_map (fun st : mstate => mr text b (fst st) (snd st)) (mr text a s c).
Proof. reflexivity. Qed.

Lemma In_Alt text (a b : regex) s c (x : mstate) :
  In x (mr text (Alt a b) s c) <-> In x (mr text a s c) \/ In x (mr text b s c).
Proof. cbn [mr]. apply in_app_iff. Qed.

Lemma In_Lit text (a : ascii) s c s' c' :
  In (s', c') (mr text (Lit a) s c) <-> s = String a s' /\ c' = c.
Proof.
  cbn [mr]. destruct s as [|b t]; [simpl; split; [tauto | intros [[=] _]]|].
  destruct (Ascii.eqb_spec a b) as [->|Hne]; simpl.
  - split; [intros [[= -> ->]|[]]; auto | intros [[= ->] ->]; auto].
  - split; [tauto | intros [[= Hb _] _]; congruence].
Qed.

Lemma In_Eps text s c s' c' :
  In (s', c') (mr text Eps s c) <-> s' = s /\ c' = c.
Proof.
  simpl. split; [intros [[= -> ->]|[]]; auto | intros [-> ->]; auto].
Qed.

Lemma In_Eol text s c s' c' :
  In (s', c') (mr text Eol s c) <-> s = EmptyString /\ s' = EmptyString /\ c' = c.
Proof.
  destruct s; simpl.
  - split; [intros [[= <- <-]|[]]; auto | intros (_ & -> & ->); auto].
  - split; [tauto | intros ([=] & _)].
Qed.

Lemma In_Grp text (i : nat) (a : regex) s c s' c' :
  In (s', c') (mr text (Grp i a) s c) <->
  exists c1, In (s', c1) (mr text a s c) /\
             c' = <[i := Str.take (String.length s - String.length s') s]> c1.
Proof.
  cbn [mr]. rewrite in_map_iff. split.
  - intros ([s1 c1] & [= <- <-] & H). eauto.
  - intros (c1 & H & ->). exists (s', c1). auto.
Qed.

Lemma In_lits text (w : string) s c s' c' :
  In (s', c') (mr text (lits w) s c) <-> s = w +:+ s' /\ c' = c.
Proof.
  revert s. induction w as [|a w IH]; intros s.
  - cbn [lits]. rewrite In_Eps, append_nil_l. split; intros [-> ->]; auto.
  - cbn [lits]. rewrite In_Cat, append_cons. split.
    + intros (s1 & c1 & H1 & H2). apply In_Lit in H1 as [-> ->].
      apply IH in H2 as [-> ->]. auto.
    + intros [-> ->]. exists (w +:+ s'), c. rewrite In_Lit, IH. auto.
Qed.

(** the greedy iteration of a class: every split of the text after a
    prefix of bytes of the class, the longest prefix first *)
Lemma In_iter_Cls text (p : ascii -> bool) (fuel : nat) s c s' c' :
  (String.length s <= fuel)%nat ->
  (In (s', c') (iter (mr text (Cls p)) fuel s c) <->
   c' = c /\ exists w, s = w +:+ s' /\ Str.all p w = true).
Proof.
  revert s. induction fuel as [|fuel IH]; intros s Hlen.
  - destruct s; [|simpl in Hlen; lia]. simpl. split.
    + intros [[= <- <-]|[]]. split; [reflexivity|]. exists EmptyString. auto.
    + intros (-> & w & Hw & _). destruct w; [|discriminate].
      rewrite append_nil_l in Hw. subst. auto.
  - cbn [iter]. rewrite in_app_iff.
    assert (Hself : In (s', c') [(s, c)] <-> s' = s /\ c' = c).
    { simpl. split; [intros [[= -> ->]|[]]; auto | intros [-> ->]; auto]. }
    rewrite Hself. clear Hself. destruct s as [|b t].
    + simpl. split.
      * intros [[]|[-> ->]]. split; [reflexivity|]. exists EmptyString. auto.
      * intros (-> & w & Hw & _). destruct w; [|discriminate].
        rewrite append_nil_l in Hw. subst. auto.
    + cbn [mr]. destruct (p b) eqn:Hb.
      * cbn [flat_map fst snd]. rewrite app_nil_r.
        replace (Nat.ltb (String.length t) (String.length (String b t))) with true
          by (symmetry; apply Nat.ltb_lt; simpl; lia).
        rewrite IH by (simpl in Hlen; lia). split.
        -- intros [(-> & w & -> & Hw)|[-> ->]].
           ++ split; [reflexivity|]. exists (String b w). simpl. rewrite Hb. auto.
           ++ split; [reflexivity|]. exists EmptyString. auto.
        -- intros (-> & w & Hw & Hall). destruct w as [|b' w].
           ++ rewrite append_nil_l in Hw. subst. auto.
           ++ rewrite append_cons in Hw. injection Hw as <- ->.
              simpl in Hall. apply andb_prop in Hall as [_ Hall]. left. eauto.
      * simpl. split.
        -- intros [[]|[-> ->]]. split; [reflexivity|]. exists EmptyString. auto.
        -- intros (-> & w & Hw & Hall). destruct w as [|b' w].
           ++ rewrite append_nil_l in Hw. subst. auto.
           ++ rewrite append_cons in Hw. injection Hw as <- ->.
              simpl in Hall. rewrite Hb in Hall. discriminate.
Qed.

Lemma In_Star_Cls text (p : ascii -> bool) s c s' c' :
  In (s', c') (mr text (Star (Cls p)) s c) <->
  c' = c /\ exists w, s = w +:+ s' /\ Str.all p w = true.
Proof.
  change (mr text (Star (Cls p)) s c) with
    (iter (mr text (Cls p)) (String.length s) s c).
  apply In_iter_Cls. lia.
Qed.

Lemma In_Plus_Cls text (p : ascii -> bool) s c s' c' :
  In (s', c') (mr text (Plus (Cls p)) s c) <->
  c' = c /\ exists w, w <> EmptyString /\ s = w +:+ s' /\ Str.all p w = true.
Proof.
  change (mr text (Plus (Cls p)) s c) with
    (flat_map (fun st : mstate =>
                 iter (mr text (Cls p)) (String.length (fst st)) (fst st) (snd st))
              (mr text (Cls p) s c)).
  rewrite in_flat_map. split.
  - intros ([s1 c1] & H1 & H2). cbn [fst snd] in H2.
    apply In_iter_Cls in H2 as (-> & w & -> & Hw); [|lia].
    cbn [mr] in H1. destruct s as [|b t]; [destruct H1|].
    destruct (p b) eqn:Hb; [|destruct H1].
    destruct H1 as [[= -> ->]|[]]. split; [reflexivity|].
    exists (String b w). simpl. rewrite Hb. split; [discriminate|]. auto.
  - intros (-> & w & Hne & -> & Hall). destruct w as [|b w]; [congruence|].
    simpl in Hall. apply andb_prop in Hall as [Hb Hall].
    exists (w +:+ s', c). split.
    + rewrite append_cons. cbn [mr]. rewrite Hb. left. reflexivity.
    + cbn [fst snd]. apply In_iter_Cls; [lia|]. eauto.
Qed.

(** the longest iteration comes first *)
Lemma iter_Cls_head text (p : ascii -> bool) (fuel : nat) s c :
  (String.length s <= fuel)%nat ->
  exists l, iter (mr text (Cls p)) fuel s c = (Str.dropWhile p s, c) :: l.
Proof.
  revert s. induction fuel as [|fuel IH]; intros s Hlen.
  - destruct s; [|simpl in Hlen; lia]. exists []. reflexivity.
  - cbn [iter]. destruct s as [|b t]; [exists []; reflexivity|].
    change (mr text (Cls p) (String b t) c) with (if p b then [(t, c)] else []).
    cbn [Str.dropWhile]. destruct (p b) eqn:Hb.
    + cbn [flat_map fst snd]. rewrite app_nil_r.
      replace (Nat.ltb (String.length t) (String.length (String b t))) with true
        by (symmetry; apply Nat.ltb_lt; simpl; lia).
      destruct (IH t) as [l Hl]; [simpl in Hlen; lia|]. rewrite Hl.
      eexists. reflexivity.
    + exists []. reflexivity.
Qed.

Lemma Plus_Lit_head text (a : ascii) (t : string) c :
  exists l, mr text (Plus (Lit a)) (String a t) c
            = (Str.dropWhile (Ascii.eqb a) t, c) :: l.
Proof.
  change (mr text (Plus (Lit a)) (String a t) c) with
    (flat_map (fun st : mstate =>
                 iter (mr text (Cls (Ascii.eqb a))) (String.length (fst st))
                      (fst st) (snd st))
              (mr text (Cls (Ascii.eqb a)) (String a t) c)).
  change (mr text (Cls (Ascii.eqb a)) (String a t) c) with
    (if Ascii.eqb a a then [(t, c)] else []).
  rewrite Ascii.eqb_refl. cbn [flat_map fst snd]. rewrite app_nil_r.
  apply iter_Cls_head. lia.
Qed.

Lemma take_append (w s : string) :
  Str.take (String.length (w +:+ s) - String.length s) (w +:+ s) = w.
Proof.
  rewrite length_append.
  replace (String.length w + String.length s - String.length s)%nat
    with (String.length w) by lia.
  induction w as [|a w IH]; [destruct s; reflexivity|].
  rewrite append_cons. simpl. rewrite IH. reflexivity.
Qed.

Lemma take_all (s : string) : Str.take (String.length s - 0) s = s.
Proof.
  rewrite Nat.sub_0_r. induction s as [|a s IH]; [reflexivity|].
  simpl. rewrite IH. reflexivity.
Qed.

(** a list whose elements all equal [x], and which has one, starts with [x] *)
Lemma head_of_constant_list {A : Type} (x : A) (l : list A) :
  In x l -> (forall y, In y l -> y = x) -> exists l', l = x :: l'.
Proof.
  destruct l as [|y l]; [intros []|]. intros _ H.
  rewrite (H y (or_introl eq_refl)). eauto.
Qed.

(** ** The scanner *)

Lemma pieces_not_nil (s : string) : bufio.pieces s <> [].
Proof.
  induction s as [|c s IH]; simpl; [discriminate|].
  destruct (Ascii.eqb c NL); [discriminate|].
  destruct (bufio.pieces s); discriminate.
Qed.

Lemma pieces_line (l rest : string) :
  Str.all any l = true ->
  bufio.pieces (l +:+ String NL rest) = l :: bufio.pieces rest.
Proof.
  induction l as [|c l IH]; simpl; intros H.
  - reflexivity.
  - apply andb_prop in H as [Hc Hl]. unfold any in Hc.
    destruct (Ascii.eqb c NL); [discriminate|].
    rewrite (IH Hl). reflexivity.
Qed.

Lemma pieces_last (l : string) :
  Str.all any l = true -> bufio.pieces l = [l].
Proof.
  induction l as [|c l IH]; simpl; intros H.
  - reflexivity.
  - apply andb_prop in H as [Hc Hl]. unfold any in Hc.
    destruct (Ascii.eqb c NL); [discriminate|].
    rewrite (IH Hl). reflexivity.
Qed.

Lemma length_rep (n : nat) (c : ascii) : String.length (Str.rep n c) = n.
Proof. induction n; simpl; congruence. Qed.

Lemma all_rep (p : ascii -> bool) (n : nat) (c : ascii) :
  p c = true -> Str.all p (Str.rep n c) = true.
Proof. intros H. induction n; simpl; [reflexivity|]. rewrite H. exact IHn. Qed.

(** A first line that fills the buffer ends the scan before any token. *)
Lemma Scan_first_line_too_long (l rest : string) :
  Str.all any l = true -> bufio.tooLong l = true ->
  bufio.Scan (l +:+ String NL rest) = ([], true).
Proof.
  intros Hl Ht. unfold bufio.Scan. rewrite (pieces_line _ _ Hl).
  destruct (bufio.pieces rest) eqn:E; [exfalso; exact (pieces_not_nil _ E)|].
  simpl. rewrite Ht. reflexivity.
Qed.

Lemma ParseDump_first_line_too_long (l rest : string) :
  Str.all any l = true -> bufio.tooLong l = true ->
  ParseDump (l +:+ String NL rest) = inl ([], Some ErrTooLong, []).
Proof.
  intros Hl Ht. unfold ParseDump.
  rewrite (Scan_first_line_too_long _ _ Hl Ht). reflexivity.
Qed.

Lemma ParseDump_rep_too_long (n : nat) (c : ascii) (rest : string) :
  any c = true -> bufio.MaxScanTokenSize <= Z.of_nat n ->
  ParseDump (Str.rep n c +:+ String NL rest) = inl ([], Some ErrTooLong, []).
Proof.
  intros Hc Hn. apply ParseDump_first_line_too_long.
  - apply all_rep. exact Hc.
  - unfold bufio.tooLong. rewrite length_rep. apply Z.leb_le. exact Hn.
Qed.

(** C5.  A line of [MaxScanTokenSize + 1] bytes before the first routine
    header makes [ParseDump] fail: the scanner stops with [ErrTooLong],
    nothing is written to the auxiliary writer and the routine that
    follows is not parsed. *)
Theorem oversized_line_aborts_ParseDump :
  ParseDump oversizedPrelude = inl ([], Some ErrTooLong, []).
Proof.
  unfold oversizedPrelude.
  apply (ParseDump_rep_too_long (Z.to_nat (bufio.MaxScanTokenSize + 1)) "a").
  - reflexivity.
  - rewrite Z2Nat.id; unfold bufio.MaxScanTokenSize; lia.
Qed.

(** ** The parser loop *)

Lemma loop_finish (st : pstate) (lines : list string) (e : bool) :
  loop st lines e = finish e (steps st lines).
Proof.
  revert st. induction lines as [|line rest IH]; intros st; simpl.
  - reflexivity.
  - destruct (step st line); simpl; auto.
Qed.

Lemma ParseDump_steps (r : string) :
  ParseDump r = finish (snd (bufio.Scan r)) (steps initial (fst (bufio.Scan r))).
Proof. apply loop_finish. Qed.

Lemma steps_app (st : pstate) (a b : list string) :
  steps st (a ++ b) =
  match steps st a with Continue st' => steps st' b | o => o end.
Proof.
  revert st. induction a as [|line a IH]; intros st; simpl.
  - reflexivity.
  - destruct (step st line); auto.
Qed.

(** A return hands back the routines and the output as they stand. *)
Lemma step_Return (st : pstate) (line : string) gs err w :
  step st line = Return gs err w -> gs = goroutines st /\ w = out st.
Proof.
  unfold step. intros H.
  repeat match type of H with
         | (if ?b then _ else _) = _ => destruct b
         | match ?x with _ => _ end = _ => destruct x
         end; try discriminate; inversion H; auto.
Qed.

Lemma firstOnlyAtHead_alter (f : Goroutine -> Goroutine) (p : nat) gs :
  (forall g, First (f g) = First g) ->
  firstOnlyAtHead gs -> firstOnlyAtHead (alter f p gs).
Proof.
  intros Hf H i g Hi.
  destruct (decide (p = i)) as [->|Hne].
  - rewrite list_lookup_alter_eq in Hi.
    destruct (gs !! i) as [g0|] eqn:E; simpl in Hi; [|discriminate].
    inversion Hi; subst. rewrite Hf. eauto.
  - rewrite list_lookup_alter_ne in Hi by assumption. eauto.
Qed.

Lemma firstOnlyAtHead_snoc gs (g : Goroutine) :
  First g = Nat.eqb (length gs) 0 ->
  firstOnlyAtHead gs -> firstOnlyAtHead (gs ++ [g]).
Proof.
  intros Hg H i g' Hi.
  destruct (decide (i < length gs)%nat) as [Hlt|Hge].
  - rewrite lookup_app_l in Hi by assumption. eauto.
  - rewrite lookup_app_r in Hi by lia.
    destruct (i - length gs)%nat as [|k] eqn:E; simpl in Hi; [|discriminate].
    inversion Hi; subst g'. rewrite Hg.
    assert (i = length gs) as -> by lia. reflexivity.
Qed.

Lemma step_invariant (st st' : pstate) (line : string) :
  step st line = Continue st' ->
  pointsToLast st /\ firstOnlyAtHead (goroutines st) ->
  pointsToLast st' /\ firstOnlyAtHead (goroutines st').
Proof.
  unfold step. intros H [HP HF].
  repeat match type of H with
         | (if ?b then _ else _) = _ => destruct b eqn:?
         | match ?x with _ => _ end = _ => destruct x eqn:?
         end; try discriminate; inversion H; subst st'; clear H;
    unfold pointsToLast; simpl; split;
    try (intros ? [=]; subst);
    rewrite ?length_alter, ?length_app; simpl;
    try (apply HP; assumption); try lia;
    try (apply firstOnlyAtHead_alter; [reflexivity|assumption]);
    try (apply firstOnlyAtHead_snoc; [reflexivity|assumption]);
    try assumption.
Qed.

Lemma steps_invariant (lines : list string) (st st' : pstate) :
  steps st lines = Continue st' ->
  pointsToLast st /\ firstOnlyAtHead (goroutines st) ->
  pointsToLast st' /\ firstOnlyAtHead (goroutines st').
Proof.
  revert st. induction lines as [|line rest IH]; intros st; simpl.
  - intros [= <-]. auto.
  - destruct (step st line) eqn:E; try discriminate.
    intros H Hinv. eapply IH; [eassumption|]. eapply step_invariant; eassumption.
Qed.

Lemma initial_invariant :
  pointsToLast initial /\ firstOnlyAtHead (goroutines initial).
Proof. split; [intros p [=] | intros i g [=]]. Qed.

Lemma steps_Return (lines : list string) (st : pstate) gs err w :
  steps st lines = Return gs err w ->
  exists pre st', steps st pre = Continue st' /\ gs = goroutines st' /\ w = out st'.
Proof.
  revert st. induction lines as [|line rest IH]; intros st; simpl; [discriminate|].
  destruct (step st line) eqn:E.
  - intros H. destruct (IH _ H) as (pre & st' & H1 & H2 & H3).
    exists (line :: pre), st'. simpl. rewrite E. auto.
  - intros [= -> -> ->]. apply step_Return in E as [-> ->].
    exists [], st. auto.
  - discriminate.
Qed.

(** ** The [First] flag *)

Lemma firstOnlyAtHead_shape (gs : list Goroutine) :
  firstOnlyAtHead gs ->
  match gs with
  | [] => True
  | g :: rest => First g = true /\ Forall (fun g' => First g' = false) rest
  end.
Proof.
  intros H. destruct gs as [|g rest]; [exact I|]. split.
  - apply (H O g). reflexivity.
  - apply Forall_forall. intros g' Hin.
    apply list_elem_of_lookup in Hin as [k Hk].
    apply (H (S k) g'). exact Hk.
Qed.

Lemma ParseDump_firstOnlyAtHead (r : string) gs e w :
  ParseDump r = inl (gs, e, w) -> firstOnlyAtHead gs.
Proof.
  rewrite ParseDump_steps.
  destruct (steps initial (fst (bufio.Scan r))) as [st| gs' err w'|] eqn:E; simpl;
    [| |discriminate].
  - intros [= <- _ _].
    apply (steps_invariant _ _ _ E initial_invariant).
  - intros [= <- _ _].
    apply steps_Return in E as (pre & st' & E & -> & _).
    apply (steps_invariant _ _ _ E initial_invariant).
Qed.

(** C8, as stated, fails on the empty input: parsing succeeds and no
    routine at all is flagged [First]. *)
Lemma First_count_of_empty_input :
  exists gs w, ParseDump "" = inl (gs, None, w) /\ countFirst gs <> 1%nat.
Proof. exists [], []. split; [reflexivity | discriminate]. Qed.

(** C8, amended.  Whenever [ParseDump] returns a list that is not empty,
    exactly one routine of the list is flagged [First]: the one at its
    head; all later routines are not. *)
Theorem First_is_exactly_the_head (r : string) gs e w :
  ParseDump r = inl (gs, e, w) ->
  gs <> [] ->
  countFirst gs = 1%nat /\
  exists g rest, gs = g :: rest /\ First g = true /\
                 Forall (fun g' => First g' = false) rest.
Proof.
  intros H Hne. apply ParseDump_firstOnlyAtHead, firstOnlyAtHead_shape in H.
  destruct gs as [|g rest]; [contradiction|]. destruct H as [Hg Hrest].
  split; [|eauto]. unfold countFirst. simpl. rewrite Hg. simpl. f_equal.
  clear Hg Hne. induction Hrest as [|g' rest' Hg' _ IH]; simpl; [reflexivity|].
  rewrite Hg'. exact IH.
Qed.

Lemma First_is_exactly_the_head_witness :
  exists gs w,
    ParseDump twoRoutines = inl (gs, None, w) /\ length gs = 2%nat /\
    countFirst gs = 1%nat /\
    exists g rest, gs = g :: rest /\ First g = true /\
                   Forall (fun g' => First g' = false) rest.
Proof.
  eexists _, _. split; [vm_compute; reflexivity|]. split; [reflexivity|].
  apply (First_is_exactly_the_head twoRoutines _ None []);
    [vm_compute; reflexivity | discriminate].
Defined.

(** ** Blank lines *)

(** C6, as stated, fails: after a routine has been closed by a blank
    line, a further blank line is written to the auxiliary writer,
    although a routine header has been seen. *)
Lemma trailing_blank_line_is_echoed :
  exists gs,
    ParseDump (unlines ["goroutine 1 [running]:"; ""]) = inl (gs, None, []) /\
    ParseDump (unlines ["goroutine 1 [running]:"; ""; ""])
    = inl (gs, None, [withNL ""]).
Proof. eexists. split; vm_compute; reflexivity. Qed.

(** C6, amended.  A blank line is written to the auxiliary writer if and
    only if no routine is in progress when it is read, that is when the
    pointer [goroutine] is nil: before the first header, or after the
    current routine was closed.  A blank line read while a routine is in
    progress is swallowed.  In both cases it closes the routine and
    leaves the routines untouched.  So a blank line is echoed as long as
    no header has been accepted, and a blank line that follows a blank
    line is always echoed. *)
Theorem blank_line_echoed_iff_no_routine_in_progress
    (pre : list string) (st : pstate) :
  steps initial pre = Continue st ->
  exists st',
    steps initial (pre ++ [EmptyString]) = Continue st' /\
    goroutines st' = goroutines st /\
    goroutine st' = None /\
    out st' = match goroutine st with
              | None => out st ++ [withNL EmptyString]
              | Some _ => out st
              end /\
    (goroutines st = [] -> out st' = out st ++ [withNL EmptyString]) /\
    exists st'',
      steps initial (pre ++ [EmptyString; EmptyString]) = Continue st'' /\
      goroutines st'' = goroutines st /\
      out st'' = out st' ++ [withNL EmptyString].
Proof.
  intros H.
  destruct (steps_invariant _ _ _ H initial_invariant) as [HP _].
  eexists. split; [rewrite steps_app, H; reflexivity|].
  cbn [goroutines goroutine out]. repeat split.
  - intros Hnil. destruct (goroutine st) as [p|] eqn:Hg; [|reflexivity].
    specialize (HP p Hg). rewrite Hnil in HP. discriminate HP.
  - eexists. split; [rewrite steps_app, H; reflexivity|].
    split; reflexivity.
Qed.

Lemma blank_line_echoed_iff_no_routine_in_progress_witness :
  exists st',
    steps initial (["goroutine 1 [running]:"] ++ [EmptyString]) = Continue st' /\
    goroutines st' = goroutines afterHeader /\
    goroutine st' = None /\
    out st' = out afterHeader /\
    (goroutines afterHeader = [] -> out st' = out afterHeader ++ [withNL EmptyString]) /\
    exists st'',
      steps initial (["goroutine 1 [running]:"] ++ [EmptyString; EmptyString])
      = Continue st'' /\
      goroutines st'' = goroutines afterHeader /\
      out st'' = out st' ++ [withNL EmptyString].
Proof.
  apply (blank_line_echoed_iff_no_routine_in_progress
           ["goroutine 1 [running]:"] afterHeader).
  vm_compute. reflexivity.
Defined.

(** ** Line numbers that overflow *)

Lemma sign_of_digit (c : ascii) (d : string) :
  digit c = true -> strconv.sign (String c d) = (false, String c d).
Proof.
  intros Hc. unfold strconv.sign.
  destruct (Ascii.eqb_spec c "+") as [->|_]; [discriminate Hc|].
  destruct (Ascii.eqb_spec c "-") as [->|_]; [discriminate Hc|].
  reflexivity.
Qed.

Lemma Atoi_overflow (d : string) (v : Z) :
  strconv.decimal 0 d = Some v -> strconv.maxInt < v -> strconv.Atoi d = None.
Proof.
  intros Hd Hv. unfold strconv.Atoi.
  destruct d as [|c d'].
  - simpl in Hd. inversion Hd; subst. unfold strconv.maxInt in Hv. lia.
  - assert (Hc : digit c = true).
    { simpl in Hd. destruct (digit c); [reflexivity | discriminate]. }
    rewrite (sign_of_digit _ _ Hc). cbn [fst snd]. rewrite Hd.
    destruct (v <=? strconv.maxInt) eqn:E;
      [apply Z.leb_le in E; lia | rewrite andb_false_r; reflexivity].
Qed.

Lemma reFile_rejects_blank : FindStringSubmatch reFile EmptyString = None.
Proof. reflexivity. Qed.

(** C7, as stated, fails: a file line whose line number does not fit an
    [int] is an error only while a routine is in progress.  Here the file
    line of the first frame is in an assembly file, so it is written to
    the auxiliary writer and closes the routine; the lines that follow
    are read between routines, where a line that is no header is written
    to the auxiliary writer whatever its shape.  The file line with the
    overflowing number is echoed like the others, parsing goes on to the
    end of the input, and no error is returned. *)
Lemma overflowing_file_line_between_routines_is_echoed :
  ParseDump (unlines [ "goroutine 1 [running]:"; "runtime.switchtoM()";
                       String TAB "/goroot/src/runtime/asm_amd64.s:198 +0x1f";
                       "main.main()";
                       String TAB "/gopath/src/main/main.go:12345678901234567890";
                       "" ])
  = inl ([ {| signature := sigOf "running" [frame "runtime.switchtoM" "" 0 ""];
              ID := 1; First := true |} ],
         None,
         [ withNL (String TAB "/goroot/src/runtime/asm_amd64.s:198 +0x1f");
           withNL "main.main()";
           withNL (String TAB "/gopath/src/main/main.go:12345678901234567890");
           withNL "" ])
  /\
  FindStringSubmatch reFile (String TAB "/gopath/src/main/main.go:12345678901234567890")
  = Some [ String TAB "/gopath/src/main/main.go:12345678901234567890";
           "/gopath/src/main/main.go"; "12345678901234567890" ]
  /\
  strconv.Atoi "12345678901234567890" = None.
Proof. repeat split; vm_compute; reflexivity. Qed.

(** a line that [reFile] matches starts with a tab or a space, so it is
    no header *)
Lemma reFile_match_is_no_header (line : string) (m : list string) :
  FindStringSubmatch reFile line = Some m ->
  String.eqb line EmptyString = false /\
  FindStringSubmatch reRoutineHeader line = None.
Proof.
  intros Hm. destruct line as [|a t].
  - rewrite reFile_rejects_blank in Hm. discriminate.
  - split; [reflexivity|]. apply reRoutineHeader_first_byte.
    destruct (Ascii.eqb_spec "g" a) as [<-|]; [|reflexivity].
    exfalso. unfold reFile in Hm. rewrite FindStringSubmatch_Bol, mr_Cat in Hm.
    change (mr (String "g" t) (Alt (Lit TAB) (Plus (Lit " "))) (String "g" t) _)
      with (@nil mstate) in Hm.
    discriminate Hm.
Qed.

(** C7, amended.  A file line whose line number exceeds the largest
    [int] is an error exactly while a routine is in progress.  Then
    [ParseDump] returns at that line, whatever follows it: the error is
    the text [failed to parse int on line: ] followed by the line between
    double quotes, and the routines (with the frames of the current one)
    and the auxiliary output are those accumulated by the lines before
    it.  Between routines the line is written to the auxiliary writer and
    the loop goes on. *)
Theorem line_number_overflow_returns_parsed_routines
    (r : string) (pre post : list string) (line : string)
    (st : pstate) (m : list string) (v : Z) :
  fst (bufio.Scan r) = pre ++ line :: post ->
  steps initial pre = Continue st ->
  FindStringSubmatch reFile line = Some m ->
  strconv.decimal 0 (sub m 2) = Some v ->
  strconv.maxInt < v ->
  (goroutine st <> None ->
   ParseDump r =
   inl (goroutines st,
        Some (Errorf ("failed to parse int on line: "
                      +:+ String DQUOTE line +:+ String DQUOTE EmptyString)),
        out st)) /\
  (goroutine st = None ->
   steps initial (pre ++ [line]) =
   Continue {| goroutines := goroutines st; goroutine := None;
               created := created st; out := out st ++ [withNL line] |}).
Proof.
  intros Hscan Hpre Hm Hd Hv.
  destruct (reFile_match_is_no_header _ _ Hm) as [Hline Hhead]. split.
  - intros Hp. destruct (goroutine st) as [p|] eqn:Ep; [clear Hp | congruence].
    rewrite ParseDump_steps, Hscan, steps_app, Hpre. simpl.
    destruct (steps_invariant _ _ _ Hpre initial_invariant) as [HP _].
    specialize (HP p Ep).
    destruct (lookup_lt_is_Some_2 (goroutines st) p) as [g Hg]; [lia|].
    unfold step. rewrite Hline, Ep, Hg, Hm, (Atoi_overflow _ _ Hd Hv).
    reflexivity.
  - intros Hnil. rewrite steps_app, Hpre. cbn [steps].
    unfold step. rewrite Hline, Hnil, Hhead. reflexivity.
Qed.

(** Two instances: the file line of a frame of routine 1, and the same
    kind of line read after the file line of an assembly file has closed
    the routine. *)
Lemma line_number_overflow_returns_parsed_routines_witness :
  ParseDump overflowingDump =
  inl ([ {| signature :=
              sigOf "running"
                [frame "github.com/maruel/panicparse/stack/stack.recurseType" "" 0 ""];
            ID := 1; First := true |} ],
       Some (Errorf
               ("failed to parse int on line: "
                +:+ String DQUOTE
                      (String TAB "/gopath/src/github.com/maruel/panicparse/stack/stack.go:12345678901234567890")
                +:+ String DQUOTE EmptyString)),
       [withNL "panic: reflect.Set: value of type"; withNL ""])
  /\
  steps initial
    ([ "goroutine 1 [running]:"; "runtime.switchtoM()";
       String TAB "/goroot/src/runtime/asm_amd64.s:198 +0x1f"; "main.main()" ]
     ++ [String TAB "/gopath/src/main/main.go:12345678901234567890"])
  = Continue
      {| goroutines :=
           [ {| signature := sigOf "running" [frame "runtime.switchtoM" "" 0 ""];
                ID := 1; First := true |} ];
         goroutine := None; created := false;
         out := [ withNL (String TAB "/goroot/src/runtime/asm_amd64.s:198 +0x1f");
                  withNL "main.main()" ]
                ++ [withNL (String TAB "/gopath/src/main/main.go:12345678901234567890")] |}.
Proof.
  split.
  - assert (Hscan : fst (bufio.Scan overflowingDump) =
                    [ "panic: reflect.Set: value of type"; "";
                      "goroutine 1 [running]:";
                      "github.com/maruel/panicparse/stack/stack.recurseType()" ]
                    ++ String TAB "/gopath/src/github.com/maruel/panicparse/stack/stack.go:12345678901234567890"
                       :: [ "" ])
      by (vm_compute; reflexivity).
    assert (Hpre : steps initial
                     [ "panic: reflect.Set: value of type"; "";
                       "goroutine 1 [running]:";
                       "github.com/maruel/panicparse/stack/stack.recurseType()" ]
                   = Continue
                       {| goroutines :=
                            [ {| signature :=
                                   sigOf "running"
                                     [frame "github.com/maruel/panicparse/stack/stack.recurseType" "" 0 ""];
                                 ID := 1; First := true |} ];
                          goroutine := Some O; created := false;
                          out := [withNL "panic: reflect.Set: value of type"; withNL ""] |})
      by (vm_compute; reflexivity).
    assert (Hm : FindStringSubmatch reFile
                   (String TAB "/gopath/src/github.com/maruel/panicparse/stack/stack.go:12345678901234567890")
                 = Some [ String TAB "/gopath/src/github.com/maruel/panicparse/stack/stack.go:12345678901234567890";
                          "/gopath/src/github.com/maruel/panicparse/stack/stack.go";
                          "12345678901234567890" ])
      by (vm_compute; reflexivity).
    assert (Hd : strconv.decimal 0 "12345678901234567890" = Some 12345678901234567890)
      by (vm_compute; reflexivity).
    assert (Hv : strconv.maxInt < 12345678901234567890) by (vm_compute; reflexivity).
    destruct (line_number_overflow_returns_parsed_routines overflowingDump
                _ _ _ _ _ _ Hscan Hpre Hm Hd Hv) as [Herr _].
    rewrite Herr; [reflexivity | discriminate].
  - assert (Hscan : fst (bufio.Scan
                           (unlines [ "goroutine 1 [running]:"; "runtime.switchtoM()";
                                      String TAB "/goroot/src/runtime/asm_amd64.s:198 +0x1f";
                                      "main.main()";
                                      String TAB "/gopath/src/main/main.go:12345678901234567890";
                                      "" ]))
                    = [ "goroutine 1 [running]:"; "runtime.switchtoM()";
                        String TAB "/goroot/src/runtime/asm_amd64.s:198 +0x1f";
                        "main.main()" ]
                      ++ String TAB "/gopath/src/main/main.go:12345678901234567890" :: [ "" ])
      by (vm_compute; reflexivity).
    assert (Hpre : steps initial
                     [ "goroutine 1 [running]:"; "runtime.switchtoM()";
                       String TAB "/goroot/src/runtime/asm_amd64.s:198 +0x1f";
                       "main.main()" ]
                   = Continue
                       {| goroutines :=
                            [ {| signature :=
                                   sigOf "running" [frame "runtime.switchtoM" "" 0 ""];
                                 ID := 1; First := true |} ];
                          goroutine := None; created := false;
                          out := [ withNL (String TAB "/goroot/src/runtime/asm_amd64.s:198 +0x1f");
                                   withNL "main.main()" ] |})
      by (vm_compute; reflexivity).
    assert (Hm : FindStringSubmatch reFile
                   (String TAB "/gopath/src/main/main.go:12345678901234567890")
                 = Some [ String TAB "/gopath/src/main/main.go:12345678901234567890";
                          "/gopath/src/main/main.go"; "12345678901234567890" ])
      by (vm_compute; reflexivity).
    assert (Hd : strconv.decimal 0 "12345678901234567890" = Some 12345678901234567890)
      by (vm_compute; reflexivity).
    assert (Hv : strconv.maxInt < 12345678901234567890) by (vm_compute; reflexivity).
    destruct (line_number_overflow_returns_parsed_routines _ _ _ _ _ _ _
                Hscan Hpre Hm Hd Hv) as [_ Hecho].
    rewrite Hecho; reflexivity.
Defined.

(** ** File lines *)

Lemma reFile_parts :
  reFile = Cat Bol (Cat reFile_indent reFile_body).
Proof. reflexivity. Qed.

Lemma all_impl (p q : ascii -> bool) (s : string) :
  (forall c, p c = true -> q c = true) -> Str.all p s = true -> Str.all q s = true.
Proof.
  intros Hpq. induction s as [|a s IH]; simpl; [reflexivity|].
  intros H. apply andb_prop in H as [Ha Hs]. rewrite (Hpq _ Ha), (IH Hs). reflexivity.
Qed.

Lemma lower_hex_notColon (c : ascii) : lower_hex c = true -> notColon c = true.
Proof.
  unfold notColon. intros H. destruct (Ascii.eqb_spec c ":") as [->|]; [discriminate H|].
  reflexivity.
Qed.

Lemma digit_lower_hex (c : ascii) : digit c = true -> lower_hex c = true.
Proof. unfold lower_hex. intros ->. reflexivity. Qed.

Lemma number_offset_notColon (d o : string) :
  isNumber d -> isOffset o -> Str.all notColon (d +:+ o) = true.
Proof.
  intros [_ Hd] Ho. rewrite all_append.
  assert (Hd' : Str.all notColon d = true).
  { apply (all_impl digit); [|exact Hd].
    intros c Hc. apply lower_hex_notColon, digit_lower_hex, Hc. }
  rewrite Hd'. simpl.
  destruct Ho as [->|(h & _ & Hh & ->)]; [reflexivity|].
  rewrite all_append, (all_impl _ _ h lower_hex_notColon Hh). reflexivity.
Qed.

Lemma offset_noDigitAhead (o : string) : isOffset o -> noDigitAhead o.
Proof. intros [->|(h & _ & _ & ->)]; [exact I | reflexivity]. Qed.

(** The last colon of a line splits it in one way only. *)
Lemma split_at_last_colon (a a' t t' : string) :
  Str.all notColon t = true -> Str.all notColon t' = true ->
  a +:+ String ":" t = a' +:+ String ":" t' -> a = a' /\ t = t'.
Proof.
  intros Ht Ht'. revert a'. induction a as [|x a IH]; intros [|x' a'] H.
  - rewrite !append_nil_l in H. injection H as ->. auto.
  - rewrite append_nil_l, append_cons in H. injection H as <- ->.
    rewrite all_append in Ht. apply andb_prop in Ht as [_ Ht]. discriminate Ht.
  - rewrite append_nil_l, append_cons in H. injection H as -> <-.
    rewrite all_append in Ht'. apply andb_prop in Ht' as [_ Ht']. discriminate Ht'.
  - rewrite !append_cons in H. injection H as -> H.
    destruct (IH _ H) as [-> ->]. auto.
Qed.

(** The digits of a number end where the first other byte stands. *)
Lemma split_after_digits (d d' o o' : string) :
  Str.all digit d = true -> Str.all digit d' = true ->
  noDigitAhead o -> noDigitAhead o' ->
  d +:+ o = d' +:+ o' -> d = d' /\ o = o'.
Proof.
  intros Hd Hd' Ho Ho'. revert d' Hd'. induction d as [|x d IH]; intros [|x' d'] Hd' H.
  - rewrite !append_nil_l in H. auto.
  - rewrite append_nil_l, append_cons in H. subst o. simpl in Ho, Hd'.
    apply andb_prop in Hd' as [Hx _]. congruence.
  - rewrite append_nil_l, append_cons in H. subst o'. simpl in Ho', Hd.
    apply andb_prop in Hd as [Hx _]. congruence.
  - rewrite !append_cons in H. injection H as -> H.
    simpl in Hd, Hd'. apply andb_prop in Hd as [_ Hd]. apply andb_prop in Hd' as [_ Hd'].
    destruct (IH Hd _ Hd' H) as [-> ->]. auto.
Qed.

Lemma In_reFile_path text s c s' c' :
  In (s', c') (mr text reFile_path s c) <->
  exists w, s = w +:+ s' /\ isPath w /\ c' = <[1%nat := w]> c.
Proof.
  unfold reFile_path. rewrite In_Grp. split.
  - intros (c1 & H & ->). apply In_Alt in H as [H|H].
    + apply In_lits in H as [-> ->]. exists "<autogenerated>".
      rewrite take_append. split; [reflexivity|]. split; [left; reflexivity | reflexivity].
    + apply In_Cat in H as (s1 & c2 & H1 & H2).
      apply In_Plus_Cls in H1 as (-> & stem & Hne & -> & Hall).
      apply In_lits in H2 as [-> ->].
      exists (stem +:+ ".go"). rewrite <- append_assoc, take_append.
      split; [reflexivity|]. split; [right; eauto | reflexivity].
  - intros (w & -> & Hw & ->). exists c. rewrite take_append. split; [|reflexivity].
    apply In_Alt. destruct Hw as [->|(stem & Hne & Hall & ->)].
    + left. apply In_lits. auto.
    + right. apply In_Cat. exists (".go" +:+ s'), c. split.
      * apply In_Plus_Cls. split; [reflexivity|]. exists stem.
        rewrite append_assoc. auto.
      * apply In_lits. auto.
Qed.

Lemma In_reFile_number text s c s' c' :
  In (s', c') (mr text reFile_number s c) <->
  exists d, s = d +:+ s' /\ isNumber d /\ c' = <[2%nat := d]> c.
Proof.
  unfold reFile_number, isNumber. rewrite In_Grp. split.
  - intros (c1 & H & ->). apply In_Plus_Cls in H as (-> & d & Hne & -> & Hall).
    exists d. rewrite take_append. auto.
  - intros (d & -> & [Hne Hall] & ->). exists c. rewrite take_append.
    split; [|reflexivity]. apply In_Plus_Cls. eauto.
Qed.

Lemma In_reFile_offset text s c s' c' :
  In (s', c') (mr text reFile_offset s c) <->
  exists o, s = o +:+ s' /\ isOffset o /\ c' = c.
Proof.
  unfold reFile_offset, isOffset. rewrite In_Alt. split.
  - intros [H|H].
    + apply In_Eps in H as [-> ->]. exists EmptyString. auto.
    + apply In_Cat in H as (s1 & c1 & H1 & H2). apply In_lits in H1 as [-> ->].
      apply In_Plus_Cls in H2 as (-> & h & Hne & -> & Hall).
      exists (" +0x" +:+ h). rewrite append_assoc. split; [reflexivity|].
      split; [right; eauto | reflexivity].
  - intros (o & -> & [->|(h & Hne & Hall & ->)] & ->).
    + left. apply In_Eps. auto.
    + right. apply In_Cat. exists (h +:+ s'), c. split.
      * apply In_lits. rewrite append_assoc. auto.
      * apply In_Plus_Cls. eauto.
Qed.

(** the matches of the part of [reFile] that follows the indentation *)
Lemma In_reFile_body text s c s' c' :
  In (s', c') (mr text reFile_body s c) <->
  s' = EmptyString /\
  exists w d o, s = w +:+ String ":" (d +:+ o) /\ isPath w /\ isNumber d /\
                isOffset o /\ c' = <[2%nat := d]> (<[1%nat := w]> c).
Proof.
  unfold reFile_body. rewrite In_Cat. split.
  - intros (s1 & c1 & H1 & H).
    apply In_reFile_path in H1 as (w & -> & Hw & ->).
    apply In_Cat in H as (s2 & c2 & H2 & H). apply In_Lit in H2 as [-> ->].
    apply In_Cat in H as (s3 & c3 & H3 & H).
    apply In_reFile_number in H3 as (d & -> & Hd & ->).
    apply In_Cat in H as (s4 & c4 & H4 & H).
    apply In_reFile_offset in H4 as (o & -> & Ho & ->).
    apply In_Eol in H as (-> & -> & ->). split; [reflexivity|].
    exists w, d, o. rewrite append_nil_r. auto.
  - intros (-> & w & d & o & -> & Hw & Hd & Ho & ->).
    exists (String ":" (d +:+ o)), (<[1%nat := w]> c). split.
    + apply In_reFile_path. eauto.
    + apply In_Cat. exists (d +:+ o), (<[1%nat := w]> c). split; [apply In_Lit; auto|].
      apply In_Cat. exists o, (<[2%nat := d]> (<[1%nat := w]> c)). split.
      * apply In_reFile_number. eauto.
      * apply In_Cat. exists EmptyString, (<[2%nat := d]> (<[1%nat := w]> c)). split.
        -- apply In_reFile_offset. exists o. rewrite append_nil_r. auto.
        -- apply In_Eol. auto.
Qed.

(** After the indentation, a file line is matched in one way only. *)
Lemma reFile_body_matches text (path digits offset : string) c :
  isPath path -> isNumber digits -> isOffset offset ->
  exists l,
    mr text reFile_body (path +:+ String ":" (digits +:+ offset)) c
    = (EmptyString, <[2%nat := digits]> (<[1%nat := path]> c)) :: l.
Proof.
  intros Hp Hd Ho. apply head_of_constant_list.
  - apply In_reFile_body. split; [reflexivity|]. exists path, digits, offset. auto.
  - intros [s' c'] H. apply In_reFile_body in H
      as (-> & w & d & o & Heq & Hw & Hd' & Ho' & ->).
    apply split_at_last_colon in Heq as [<- Heq];
      [| apply number_offset_notColon; assumption
       | apply number_offset_notColon; assumption].
    apply split_after_digits in Heq as [<- _];
      [reflexivity | apply Hd | apply Hd'
       | apply offset_noDigitAhead; assumption
       | apply offset_noDigitAhead; assumption].
Qed.

Lemma dropWhile_spaces (n : nat) (path rest : string) :
  (forall t, path <> String " " t) -> path <> EmptyString ->
  Str.dropWhile (Ascii.eqb " ") (Str.rep n " " +:+ path +:+ rest) = path +:+ rest.
Proof.
  intros Hsp Hne. induction n as [|n IH].
  - simpl Str.rep. rewrite append_nil_l. destruct path as [|a path]; [congruence|].
    rewrite append_cons. cbn [Str.dropWhile].
    destruct (Ascii.eqb_spec " " a) as [<-|]; [exfalso; eapply Hsp; reflexivity|].
    reflexivity.
  - simpl Str.rep. rewrite append_cons. cbn [Str.dropWhile].
    rewrite Ascii.eqb_refl. exact IH.
Qed.

Lemma isPath_not_empty (path : string) : isPath path -> path <> EmptyString.
Proof.
  intros [->|(stem & Hne & _ & ->)]; [discriminate|].
  destruct stem; [congruence | discriminate].
Qed.

(** the matches of the indentation: the whole indentation first *)
Lemma reFile_indent_matches text (indent path rest : string) c :
  isIndent indent path -> isPath path ->
  exists l, mr text reFile_indent (indent +:+ path +:+ rest) c
            = (path +:+ rest, c) :: l.
Proof.
  intros [->|[[n ->] Hsp]] Hp; unfold reFile_indent.
  - exists (mr text (Plus (Lit " ")) (String TAB (path +:+ rest)) c). reflexivity.
  - simpl Str.rep. rewrite append_cons.
    change (mr text (Alt (Lit TAB) (Plus (Lit " ")))
               (String " " (Str.rep n " " +:+ path +:+ rest)) c)
      with (mr text (Plus (Lit " ")) (String " " (Str.rep n " " +:+ path +:+ rest)) c).
    destruct (Plus_Lit_head text " " (Str.rep n " " +:+ path +:+ rest) c) as [l Hl].
    rewrite Hl, dropWhile_spaces by auto using isPath_not_empty. eauto.
Qed.

Lemma isIndent_cons (indent path : string) :
  isIndent indent path -> exists a t, indent = String a t.
Proof. intros [->|[[n ->] _]]; simpl; eauto. Qed.

Lemma reFile_after_Bol text (indent path digits offset : string) c :
  isIndent indent path -> isPath path -> isNumber digits -> isOffset offset ->
  exists l,
    mr text (Cat reFile_indent reFile_body) (fileLine indent path digits offset) c
    = (EmptyString, <[2%nat := digits]> (<[1%nat := path]> c)) :: l.
Proof.
  intros Hi Hp Hd Ho. rewrite mr_Cat. unfold fileLine.
  destruct (reFile_indent_matches text indent path (String ":" (digits +:+ offset))
              c Hi Hp) as [l1 ->].
  cbn [flat_map fst snd].
  destruct (reFile_body_matches text path digits offset c Hp Hd Ho) as [l2 ->].
  eexists. reflexivity.
Qed.

(** [reFile] matches every file line of these shapes, and its groups are
    the path and the line number. *)
Lemma reFile_accepts (indent path digits offset : string) :
  isIndent indent path -> isPath path -> isNumber digits -> isOffset offset ->
  FindStringSubmatch reFile (fileLine indent path digits offset)
  = Some [fileLine indent path digits offset; path; digits].
Proof.
  intros Hi Hp Hd Ho. rewrite reFile_parts, FindStringSubmatch_Bol.
  destruct (reFile_after_Bol (fileLine indent path digits offset)
              indent path digits offset
              (replicate (S (ngroups (Cat reFile_indent reFile_body))) EmptyString)
              Hi Hp Hd Ho) as [l ->].
  rewrite take_all. reflexivity.
Qed.

Lemma alter_last {A : Type} (f : A -> A) (l : list A) (x : A) :
  alter f (length l) (l ++ [x]) = l ++ [f x].
Proof.
  rewrite alter_app_r_alt by lia. rewrite Nat.sub_diag. reflexivity.
Qed.

Lemma fileLine_not_blank (indent path digits offset : string) :
  isIndent indent path ->
  String.eqb (fileLine indent path digits offset) EmptyString = false.
Proof.
  intros Hi. destruct (isIndent_cons _ _ Hi) as (a & t & ->). reflexivity.
Qed.

(** the loop body on a file line, inside a routine *)
Lemma step_file_line (st : pstate) (p : nat) (g : Goroutine)
    (indent path digits offset : string) (num : Z) :
  goroutine st = Some p -> goroutines st !! p = Some g ->
  isIndent indent path -> isPath path -> isNumber digits -> isOffset offset ->
  strconv.Atoi digits = Some num ->
  step st (fileLine indent path digits offset) =
  if created st then
    Continue {| goroutines := alter (setCreatedByFile path num) p (goroutines st);
                goroutine := Some p; created := false; out := out st |}
  else
    match length (Stack (signature g)) with
    | O => Panic
    | S i =>
        Continue {| goroutines :=
                      alter (setStack (alter (setFile path num) i (Stack (signature g))))
                            p (goroutines st);
                    goroutine := Some p; created := false; out := out st |}
    end.
Proof.
  intros Hp Hg Hi Hpath Hd Ho Hnum. unfold step.
  rewrite (fileLine_not_blank _ _ _ _ Hi), Hp, Hg.
  rewrite (reFile_accepts _ _ _ _ Hi Hpath Hd Ho).
  change (sub [fileLine indent path digits offset; path; digits] 2) with digits.
  change (sub [fileLine indent path digits offset; path; digits] 1) with path.
  rewrite Hnum. reflexivity.
Qed.

(** C2, as stated, fails: a file line whose path is [??], or a file that
    is no Go source, or whose line number is followed by [fp=] and [sp=]
    fields, is not taken as a file line.  It is written to the auxiliary
    writer, the frame keeps an empty path and line 0, and the routine is
    closed. *)
Lemma other_file_lines_are_diverted :
  ParseDump (unlines [ "goroutine 1 [running]:"; "main._Cfunc_DBIterSeek()";
                       " ??:0 +0x6d" ])
  = inl ([ {| signature := sigOf "running" [frame "main._Cfunc_DBIterSeek" "" 0 ""];
              ID := 1; First := true |} ],
         None, [withNL " ??:0 +0x6d"]) /\
  ParseDump (unlines [ "goroutine 16 [garbage collection]:"; "runtime.switchtoM()";
                       String TAB "/goroot/src/runtime/asm_amd64.s:198 +0x1f" ])
  = inl ([ {| signature := sigOf "garbage collection" [frame "runtime.switchtoM" "" 0 ""];
              ID := 16; First := true |} ],
         None, [withNL (String TAB "/goroot/src/runtime/asm_amd64.s:198 +0x1f")]) /\
  ParseDump (unlines [ "goroutine 16 [garbage collection]:"; "runtime.switchtoM()";
                       String TAB "/goroot/src/runtime/proc.go:198 fp=0xc20cfb80d8 sp=0xc20cfb80d0" ])
  = inl ([ {| signature := sigOf "garbage collection" [frame "runtime.switchtoM" "" 0 ""];
              ID := 16; First := true |} ],
         None,
         [withNL (String TAB "/goroot/src/runtime/proc.go:198 fp=0xc20cfb80d8 sp=0xc20cfb80d0")]).
Proof. repeat split; vm_compute; reflexivity. Qed.

(** After a created-by line, the file line is recorded in [CreatedBy]. *)
Lemma file_line_after_created_by
    (st : pstate) (p : nat) (g : Goroutine)
    (indent path digits offset : string) (num : Z) :
  goroutine st = Some p ->
  goroutines st !! p = Some g ->
  created st = true ->
  isIndent indent path -> isPath path -> isNumber digits -> isOffset offset ->
  strconv.Atoi digits = Some num ->
  step st (fileLine indent path digits offset) =
  Continue {| goroutines := alter (setCreatedByFile path num) p (goroutines st);
              goroutine := Some p; created := false; out := out st |}.
Proof.
  intros Hp Hg Hc Hi Hpath Hd Ho Hnum.
  rewrite (step_file_line st p g _ _ _ _ num Hp Hg Hi Hpath Hd Ho Hnum), Hc.
  reflexivity.
Qed.

(** The flag [created] changes at two places only: a created-by line
    sets it and an accepted file line clears it.  No other line, and in
    particular neither the empty line that ends a routine nor the header
    that opens the next one, touches it. *)
Lemma created_changes_only_at_created_by_and_file_lines
    (st st' : pstate) (line : string) :
  step st line = Continue st' ->
  created st' = created st \/
  (created st' = true /\ goroutine st <> None /\
   FindStringSubmatch reFile line = None /\
   FindStringSubmatch reCreated line <> None) \/
  (created st' = false /\ goroutine st <> None /\
   FindStringSubmatch reFile line <> None).
Proof.
  unfold step. intros H.
  repeat match type of H with
         | (if ?b then _ else _) = _ => destruct b eqn:?
         | match ?x with _ => _ end = _ => destruct x eqn:?
         end; try discriminate; inversion H; subst st'; clear H; cbn [created];
    first [ left; reflexivity
          | right; left; repeat split; congruence
          | right; right; repeat split; congruence ].
Qed.

(** C2, amended.  While a routine is in progress, a file line made of a
    tab or of spaces, a path that is [<autogenerated>] or ends in [.go],
    a colon, a line number that fits an [int], and nothing more or a
    [+0x] offset in lower-case hexadecimal, is accepted.  Where it is
    recorded depends on the flag [created] of the loop and on nothing
    else: when the flag is set, the path and the line number are recorded
    in [CreatedBy] of the current routine, whatever the line before was;
    when the flag is clear and the routine has at least one frame, they
    are recorded in its top frame.  In both cases the loop goes on without
    error, the flag is clear afterwards, and nothing is written to the
    auxiliary writer. *)
Theorem file_line_is_recorded
    (pre : list string) (st : pstate) (p : nat) (g : Goroutine)
    (indent path digits offset : string) (num : Z) :
  steps initial pre = Continue st ->
  goroutine st = Some p ->
  goroutines st !! p = Some g ->
  isIndent indent path -> isPath path -> isNumber digits -> isOffset offset ->
  strconv.Atoi digits = Some num ->
  (created st = true ->
   steps initial (pre ++ [fileLine indent path digits offset]) =
   Continue {| goroutines := alter (setCreatedByFile path num) p (goroutines st);
               goroutine := Some p; created := false; out := out st |}) /\
  (forall (frames : list Call) (top : Call),
     created st = false ->
     Stack (signature g) = frames ++ [top] ->
     steps initial (pre ++ [fileLine indent path digits offset]) =
     Continue {| goroutines :=
                   alter (setStack (frames ++ [setFile path num top])) p (goroutines st);
                 goroutine := Some p; created := false; out := out st |}).
Proof.
  intros Hpre Hp Hg Hi Hpath Hd Ho Hnum. split.
  - intros Hc. rewrite steps_app, Hpre. cbn [steps].
    rewrite (file_line_after_created_by st p g _ _ _ _ num Hp Hg Hc Hi Hpath Hd Ho Hnum).
    reflexivity.
  - intros frames top Hc Hstack. rewrite steps_app, Hpre. cbn [steps].
    rewrite (step_file_line st p g _ _ _ _ num Hp Hg Hi Hpath Hd Ho Hnum).
    rewrite Hc, Hstack, length_app. cbn [length]. rewrite Nat.add_1_r.
    rewrite alter_last. reflexivity.
Qed.

(** Two instances.  In the first, the creator of routine 1 is in an
    assembly file: its file line is no file line for the parser, so it
    closes the routine and leaves the flag set, and the file line of the
    first frame of routine 2 is recorded in [CreatedBy] of routine 2.  In
    the second, the flag is clear and the file line is recorded in the
    top frame. *)
Lemma file_line_is_recorded_witness :
  steps initial
    (pendingCreator ++ [fileLine (String TAB EmptyString) "/gopath/src/main/f.go" "10" " +0x27"])
  = Continue
      {| goroutines :=
           [ {| signature :=
                  {| State := "running"; Stack := [frame "main.main" "" 0 ""];
                     CreatedBy := frame "main.start" "" 0 "" |};
                ID := 1; First := true |};
             {| signature :=
                  {| State := "select"; Stack := [frame "main.f" "" 0 ""];
                     CreatedBy := frame "" "/gopath/src/main/f.go" 10 "" |};
                ID := 2; First := false |} ];
         goroutine := Some 1%nat; created := false;
         out := [withNL (String TAB "/goroot/src/runtime/asm_amd64.s:198 +0x1f")] |}
  /\
  steps initial
    (["goroutine 1 [running]:"; "main.main()"]
     ++ [fileLine "  " "/gopath/src/main/main.go" "428" " +0x27"])
  = Continue
      {| goroutines :=
           [ {| signature :=
                  sigOf "running" [frame "main.main" "/gopath/src/main/main.go" 428 ""];
                ID := 1; First := true |} ];
         goroutine := Some O; created := false; out := [] |}.
Proof.
  split.
  - assert (Hpre : steps initial pendingCreator = Continue afterPendingCreator)
      by (vm_compute; reflexivity).
    assert (Hnum : strconv.Atoi "10" = Some 10) by (vm_compute; reflexivity).
    assert (Hi : isIndent (String TAB EmptyString) "/gopath/src/main/f.go")
      by (left; reflexivity).
    assert (Hp : isPath "/gopath/src/main/f.go")
      by (right; exists "/gopath/src/main/f";
          split; [discriminate | split; reflexivity]).
    assert (Hd : isNumber "10") by (split; [discriminate | reflexivity]).
    assert (Ho : isOffset " +0x27")
      by (right; exists "27"; split; [discriminate | split; reflexivity]).
    destruct (file_line_is_recorded
                pendingCreator afterPendingCreator 1%nat
                {| signature := sigOf "select" [frame "main.f" "" 0 ""];
                   ID := 2; First := false |}
                (String TAB EmptyString) "/gopath/src/main/f.go" "10" " +0x27" 10
                Hpre eq_refl eq_refl Hi Hp Hd Ho Hnum) as [Hset _].
    rewrite (Hset eq_refl). reflexivity.
  - assert (Hpre : steps initial ["goroutine 1 [running]:"; "main.main()"]
                   = Continue inMain)
      by (vm_compute; reflexivity).
    assert (Hnum : strconv.Atoi "428" = Some 428) by (vm_compute; reflexivity).
    assert (Hi : isIndent "  " "/gopath/src/main/main.go")
      by (right; split; [exists 1%nat; reflexivity | intros t; discriminate]).
    assert (Hp : isPath "/gopath/src/main/main.go")
      by (right; exists "/gopath/src/main/main";
          split; [discriminate | split; reflexivity]).
    assert (Hd : isNumber "428") by (split; [discriminate | reflexivity]).
    assert (Ho : isOffset " +0x27")
      by (right; exists "27"; split; [discriminate | split; reflexivity]).
    destruct (file_line_is_recorded
                ["goroutine 1 [running]:"; "main.main()"] inMain O
                {| signature := sigOf "running" [frame "main.main" "" 0 ""];
                   ID := 1; First := true |}
                "  " "/gopath/src/main/main.go" "428" " +0x27" 428
                Hpre eq_refl eq_refl Hi Hp Hd Ho Hnum) as [_ Hclear].
    rewrite (Hclear [] (frame "main.main" "" 0 "") eq_refl eq_refl). reflexivity.
Defined.


(** ** Whitespace-only input *)

Lemma blankLine_raw (l : nat * bool) (rest : string) :
  blankLine l +:+ rest = rawBlank l +:+ String NL rest.
Proof.
  unfold blankLine, rawBlank. rewrite !append_assoc.
  destruct (snd l); reflexivity.
Qed.

Lemma rawBlank_any (l : nat * bool) : Str.all any (rawBlank l) = true.
Proof.
  unfold rawBlank. rewrite all_append, all_rep by reflexivity.
  destruct (snd l); reflexivity.
Qed.

Lemma rawBlank_fits (l : nat * bool) :
  fitsBuffer l -> bufio.tooLong (rawBlank l) = false.
Proof.
  unfold fitsBuffer, bufio.tooLong, rawBlank. intros H.
  rewrite length_append, length_rep. apply Z.leb_gt.
  destruct (snd l); simpl String.length; lia.
Qed.

Lemma dropCR_rep (n : nat) : bufio.dropCR (Str.rep n " ") = Str.rep n " ".
Proof.
  induction n as [|n IH]; [reflexivity|].
  simpl Str.rep. destruct n as [|n]; [reflexivity|].
  simpl Str.rep in *. simpl bufio.dropCR in *. rewrite IH. reflexivity.
Qed.

Lemma dropCR_rep_CR (n : nat) :
  bufio.dropCR (Str.rep n " " +:+ String CR EmptyString) = Str.rep n " ".
Proof.
  induction n as [|n IH]; [reflexivity|].
  simpl Str.rep. rewrite append_cons.
  destruct n as [|n]; [reflexivity|].
  simpl Str.rep in *. rewrite append_cons in *.
  simpl bufio.dropCR in *. rewrite IH. reflexivity.
Qed.

Lemma dropCR_rawBlank (l : nat * bool) :
  bufio.dropCR (rawBlank l) = Str.rep (fst l) " ".
Proof.
  unfold rawBlank. destruct (snd l).
  - apply dropCR_rep_CR.
  - rewrite append_nil_r. apply dropCR_rep.
Qed.

Lemma Scan_blankText (ls : list (nat * bool)) (k : nat) :
  Forall fitsBuffer ls -> Z.of_nat k < bufio.MaxScanTokenSize ->
  bufio.Scan (blankText ls k) = (blankTokens ls k, false).
Proof.
  intros Hls Hk. unfold bufio.Scan, blankTokens.
  induction Hls as [|l ls Hl Hls IH].
  - simpl blankText. rewrite pieces_last by (apply all_rep; reflexivity).
    destruct k as [|k]; [reflexivity|].
    unfold bufio.tokens.
    replace (bufio.tooLong (Str.rep (S k) " ")) with false.
    + rewrite dropCR_rep. reflexivity.
    + symmetry. unfold bufio.tooLong. rewrite length_rep. apply Z.leb_gt. lia.
  - simpl blankText. rewrite blankLine_raw, pieces_line by apply rawBlank_any.
    destruct (bufio.pieces (blankText ls k)) as [|q qs] eqn:E;
      [exfalso; exact (pieces_not_nil _ E)|].
    change (bufio.tokens (rawBlank l :: q :: qs)) with
      (if bufio.tooLong (rawBlank l) then ([], true)
       else (bufio.dropCR (rawBlank l) :: fst (bufio.tokens (q :: qs)),
             snd (bufio.tokens (q :: qs)))).
    rewrite (rawBlank_fits _ Hl), dropCR_rawBlank, IH. reflexivity.
Qed.

(** Outside a routine, a line of spaces is written to the auxiliary
    writer and nothing else changes. *)
Lemma step_blank (st : pstate) (n : nat) :
  goroutine st = None ->
  step st (Str.rep n " ") =
  Continue {| goroutines := goroutines st; goroutine := None;
              created := created st;
              out := out st ++ [withNL (Str.rep n " ")] |}.
Proof.
  intros Hg. destruct n as [|n].
  - unfold step. simpl. rewrite Hg. reflexivity.
  - unfold step. simpl Str.rep. simpl String.eqb. cbv iota. rewrite Hg.
    rewrite reRoutineHeader_first_byte by reflexivity. reflexivity.
Qed.

Lemma steps_blank (ns : list nat) (st : pstate) :
  goroutine st = None ->
  steps st (map (fun n => Str.rep n " ") ns) =
  Continue {| goroutines := goroutines st; goroutine := None;
              created := created st;
              out := out st ++ map (fun n => withNL (Str.rep n " ")) ns |}.
Proof.
  revert st. induction ns as [|n ns IH]; intros st Hg.
  - simpl. rewrite app_nil_r. destruct st; simpl in *; subst; reflexivity.
  - simpl. rewrite (step_blank _ _ Hg), IH by reflexivity. simpl.
    rewrite <- app_assoc. reflexivity.
Qed.

(** Whitespace-only input whose lines fit the scanner's buffer yields no
    routine and no error: every line, without its carriage return if it
    has one, is written to the auxiliary writer, and so is what follows
    the last newline. *)
Lemma ParseDump_blankText (ls : list (nat * bool)) (k : nat) :
  Forall fitsBuffer ls -> Z.of_nat k < bufio.MaxScanTokenSize ->
  ParseDump (blankText ls k) = inl ([], None, map withNL (blankTokens ls k)).
Proof.
  intros Hls Hk. rewrite ParseDump_steps, (Scan_blankText _ _ Hls Hk).
  cbn [fst snd].
  assert (Hns : blankTokens ls k =
                map (fun n => Str.rep n " ")
                    (map fst ls ++ match k with O => [] | S _ => [k] end)).
  { unfold blankTokens. rewrite map_app, map_map. destruct k; reflexivity. }
  rewrite Hns, steps_blank by reflexivity. simpl. rewrite !map_map. reflexivity.
Qed.

Lemma ParseDump_blankText_witness :
  ParseDump (blankText [(2%nat, false); (0%nat, true)] 3)
  = inl ([], None, map withNL (blankTokens [(2%nat, false); (0%nat, true)] 3)).
Proof.
  apply (ParseDump_blankText [(2%nat, false); (0%nat, true)] 3).
  - apply List.Forall_cons; [vm_compute; reflexivity|].
    apply List.Forall_cons; [vm_compute; reflexivity|]. apply List.Forall_nil.
  - vm_compute. reflexivity.
Defined.

(** C10.  A whitespace-only input is not always parsed without error:
    one line of [MaxScanTokenSize] spaces makes the scanner stop with
    [ErrTooLong]. *)
Theorem oversized_blank_line_fails :
  ParseDump oversizedBlank = inl ([], Some ErrTooLong, []).
Proof.
  unfold oversizedBlank.
  apply (ParseDump_rep_too_long (Z.to_nat bufio.MaxScanTokenSize) " ").
  - reflexivity.
  - rewrite Z2Nat.id; unfold bufio.MaxScanTokenSize; lia.
Qed.

(** ** [Function.Name] *)

Lemma Name_with_dot (f : Function) (a b : string) :
  strings.cutDot (filepath.Base (Raw f)) = Some (a, b) -> Name f = Some b.
Proof. unfold Name, strings.SplitN_dot_2. intros ->. reflexivity. Qed.

Lemma Name_without_dot (f : Function) :
  strings.cutDot (filepath.Base (Raw f)) = None -> Name f = None.
Proof. unfold Name, strings.SplitN_dot_2. intros ->. reflexivity. Qed.

(** C4. [Name] is not defined on a symbol without a dot: for the bare
    name [schedule], [SplitN] yields one part and [parts[1]] is out of
    range. *)
Theorem Name_of_dotless_symbol_panics :
  Name {| Raw := "schedule" |} = None.
Proof. reflexivity. Qed.

(** ** Signature equality *)

Lemma Call_eqb_eq (a b : Call) : Call_eqb a b = true <-> a = b.
Proof.
  unfold Call_eqb. split.
  - intros H. apply andb_prop in H as [H H4]. apply andb_prop in H as [H H3].
    apply andb_prop in H as [H1 H2].
    apply String.eqb_eq in H1, H3, H4. apply Z.eqb_eq in H2.
    destruct a as [pa la [ra] aa], b as [pb lb [rb] ab]; simpl in *.
    subst. reflexivity.
  - intros ->. rewrite !String.eqb_refl, Z.eqb_refl. reflexivity.
Qed.

Lemma equalStacks_eq (l r : list Call) :
  length l = length r -> (equalStacks l r = true <-> l = r).
Proof.
  revert r. induction l as [|a l IH]; intros [|b r] Hlen; simpl in *;
    try discriminate.
  - split; reflexivity.
  - destruct (Call_eqb a b) eqn:E; simpl.
    + apply Call_eqb_eq in E as ->. rewrite IH by lia.
      split; [intros ->; reflexivity | intros [= ->]; reflexivity].
    + split; [discriminate|]. intros [= -> _].
      assert (Call_eqb b b = true) by (apply Call_eqb_eq; reflexivity). congruence.
Qed.

(** [Equal] is the equality of the two signatures, field by field. *)
Lemma Equal_eq (l r : Signature) : Equal l r = true <-> l = r.
Proof.
  unfold Equal. split.
  - destruct (String.eqb_spec (State l) (State r)) as [HS|]; simpl; [|discriminate].
    destruct (Nat.eqb_spec (length (Stack l)) (length (Stack r))) as [HL|]; simpl;
      [|discriminate].
    destruct (Call_eqb (CreatedBy l) (CreatedBy r)) eqn:HC; simpl; [|discriminate].
    intros H. apply (equalStacks_eq _ _ HL) in H. apply Call_eqb_eq in HC.
    destruct l, r; simpl in *; subst; reflexivity.
  - intros ->. rewrite String.eqb_refl, Nat.eqb_refl. simpl.
    assert (Call_eqb (CreatedBy r) (CreatedBy r) = true) as ->
        by (apply Call_eqb_eq; reflexivity).
    simpl. apply equalStacks_eq; reflexivity.
Qed.

Lemma Equal_refl (s : Signature) : Equal s s = true.
Proof. apply Equal_eq. reflexivity. Qed.

(** ** What signature equality compares *)

Lemma sameCall_eq (a b : Call) : sameCall a b <-> a = b.
Proof.
  unfold sameCall. split.
  - intros (H1 & H2 & H3 & H4).
    destruct a as [pa la [ra] aa], b as [pb lb [rb] ab]; simpl in *.
    subst. reflexivity.
  - intros ->. auto.
Qed.

Lemma Forall2_sameCall_eq (l r : list Call) : Forall2 sameCall l r <-> l = r.
Proof.
  split.
  - induction 1 as [|a b l r Hab _ IH]; [reflexivity|].
    apply sameCall_eq in Hab. subst. reflexivity.
  - intros ->. induction r as [|a r IH]; constructor; [|exact IH].
    apply sameCall_eq. reflexivity.
Qed.

(** C3, as stated, fails: two signatures that differ only in the
    arguments of a frame, or only in the directories above the parent
    directory of a source path, are equal in the sense of the specification and
    yet [Equal] returns false. *)
Lemma Equal_tells_arguments_and_path_prefixes_apart :
  let l := sigOf "running" [frame "main.f" "/home/a/src/pkg/f.go" 10 "0x1"] in
  let r1 := sigOf "running" [frame "main.f" "/home/a/src/pkg/f.go" 10 "0x2"] in
  let r2 := sigOf "running" [frame "main.f" "/home/b/src/pkg/f.go" 10 "0x1"] in
  (specEqual l r1 /\ Equal l r1 = false) /\
  (specEqual l r2 /\ Equal l r2 = false).
Proof.
  unfold specEqual, sameTriple. simpl.
  repeat split; try reflexivity;
    repeat constructor; vm_compute; reflexivity.
Qed.

(** C3, amended.  [Equal] holds if and only if the two signatures agree
    on [State], on the length of the stack, on all four fields of every
    frame (the full source path, the line, the raw function name and the
    arguments) and on all four fields of [CreatedBy].  The signature has
    no other field. *)
Theorem Equal_iff_all_fields_agree (l r : Signature) :
  Equal l r = true <->
  State l = State r /\
  length (Stack l) = length (Stack r) /\
  Forall2 sameCall (Stack l) (Stack r) /\
  sameCall (CreatedBy l) (CreatedBy r).
Proof.
  rewrite Equal_eq. split.
  - intros ->. repeat split; try reflexivity.
    + apply Forall2_sameCall_eq. reflexivity.
  - intros (HS & _ & HK & HC).
    apply Forall2_sameCall_eq in HK. apply sameCall_eq in HC.
    destruct l, r; simpl in *; subst; reflexivity.
Qed.

(** ** The signature ordering *)

Lemma compare_refl (s : string) : String.compare s s = Eq.
Proof.
  induction s as [|a s IH]; [reflexivity|]. simpl.
  unfold Ascii.compare. rewrite N.compare_refl. exact IH.
Qed.

Lemma ltb_irrefl (s : string) : Str.ltb s s = false.
Proof. unfold Str.ltb. rewrite compare_refl. reflexivity. Qed.

Lemma lessStacks_irrefl (l : list Call) : lessStacks l l = false.
Proof.
  induction l as [|a l IH]; [reflexivity|]. simpl.
  unfold Str.gtb. rewrite !ltb_irrefl, Z.ltb_irrefl, Z.gtb_ltb, Z.ltb_irrefl.
  exact IH.
Qed.

(** [Less] is irreflexive. *)
Lemma Less_irrefl (s : Signature) : Less s s = false.
Proof.
  unfold Less, Str.gtb. rewrite ltb_irrefl, Nat.ltb_irrefl.
  apply lessStacks_irrefl.
Qed.

(** Two stacks whose first frames differ in the function name are
    ordered both ways: the loop answers true on [<] and on [>]. *)
Lemma lessStacks_on_differing_names (a b : Call) (l r : list Call) :
  Raw (Func a) <> Raw (Func b) -> lessStacks (a :: l) (b :: r) = true.
Proof.
  intros Hne. cbn [lessStacks]. unfold Str.gtb, Str.ltb.
  rewrite (String.compare_antisym (Raw (Func b)) (Raw (Func a))).
  destruct (String.compare (Raw (Func a)) (Raw (Func b))) eqn:E; try reflexivity.
  apply String.compare_eq_iff in E. contradiction.
Qed.

Lemma Less_on_differing_names (l r : Signature) (a b : Call) (l' r' : list Call) :
  State l = State r ->
  Stack l = a :: l' -> Stack r = b :: r' -> length l' = length r' ->
  Raw (Func a) <> Raw (Func b) ->
  Less l r = true /\ Less r l = true.
Proof.
  intros HS Hl Hr Hlen Hne. unfold Less, Str.gtb.
  rewrite HS, ltb_irrefl, Hl, Hr. cbn [length]. rewrite Hlen, Nat.ltb_irrefl.
  split; apply lessStacks_on_differing_names; congruence.
Qed.

(** C1. [Less] is not a strict order: for two signatures with the same
    state and one frame each, whose function names differ, it returns
    true in both directions, because the loop answers true on [>] as it
    does on [<]. *)
Theorem Less_true_in_both_directions :
  let l := sigOf "running" [frame "main.a" "/src/x/a.go" 1 ""] in
  let r := sigOf "running" [frame "main.b" "/src/x/a.go" 1 ""] in
  Less l r = true /\ Less r l = true.
Proof. vm_compute. split; reflexivity. Qed.

(** ** The bucketizer *)

Lemma findKey_Some (o : MapOrder) (m : buckets) (routine : Goroutine) (i : nat) :
  findKey o m routine = Some i ->
  exists key rs, m !! i = Some (key, rs) /\ Equal key (signature routine) = true.
Proof.
  unfold findKey. intros H. apply find_some in H as [_ H].
  destruct (m !! i) as [[key rs]|]; [|discriminate]. eauto.
Qed.

Lemma members_append (m : buckets) (i : nat) key rs (routine : Goroutine) :
  m !! i = Some (key, rs) ->
  Permutation
    (members (alter (fun e => (fst e, snd e ++ [routine])) i m))
    (members m ++ [routine]).
Proof.
  unfold members. revert i. induction m as [|e m IH]; intros i Hi; [discriminate|].
  destruct i as [|i]; simpl in *.
  - inversion Hi; subst e. simpl. rewrite <- !app_assoc.
    apply Permutation_app_head, Permutation_app_comm.
  - rewrite <- app_assoc. apply Permutation_app_head. eapply IH. eassumption.
Qed.

Lemma consistent_append (m : buckets) (i : nat) key rs (routine : Goroutine) :
  m !! i = Some (key, rs) -> Equal key (signature routine) = true ->
  consistent m ->
  consistent (alter (fun e => (fst e, snd e ++ [routine])) i m).
Proof.
  unfold consistent. intros Hi Heq Hm. revert i Hi.
  induction Hm as [|e m He Hm IH]; intros i Hi; [discriminate|].
  destruct i as [|i]; simpl in *.
  - inversion Hi; subst e. constructor; [|assumption]. simpl in *.
    rewrite Forall_app. split; [assumption|]. constructor; [assumption|constructor].
  - constructor; [assumption|]. apply IH. assumption.
Qed.

Lemma place_spec (o : MapOrder) (m : buckets) (routine : Goroutine) :
  Permutation (members (place o m routine)) (members m ++ [routine]) /\
  (consistent m -> consistent (place o m routine)).
Proof.
  unfold place. destruct (findKey o m routine) as [i|] eqn:E.
  - apply findKey_Some in E as (key & rs & Hi & Heq). split.
    + eapply members_append. eassumption.
    + eapply consistent_append; eassumption.
  - split.
    + unfold members. rewrite map_app, concat_app. simpl. reflexivity.
    + unfold consistent. intros Hm. rewrite Forall_app. split; [assumption|].
      constructor; [|constructor]. simpl.
      constructor; [apply Equal_refl | constructor].
Qed.

Lemma fold_place_spec (o : MapOrder) (gs : list Goroutine) (m : buckets) :
  Permutation (members (fold_left (place o) gs m)) (members m ++ gs) /\
  (consistent m -> consistent (fold_left (place o) gs m)).
Proof.
  revert m. induction gs as [|g gs IH]; intros m; simpl.
  - rewrite app_nil_r. split; [reflexivity | auto].
  - destruct (IH (place o m g)) as [HP HC].
    destruct (place_spec o m g) as [HP1 HC1]. split.
    + rewrite HP, HP1, <- app_assoc. reflexivity.
    + auto.
Qed.

Lemma totalSize_members (m : buckets) : totalSize m = length (members m).
Proof.
  unfold totalSize, members. induction m as [|e m IH]; simpl; [reflexivity|].
  rewrite length_app, IH. reflexivity.
Qed.

(** C9.  Whatever the order in which Go visits the map, [Bucketize]
    partitions the routines: the members of all buckets together are the
    input routines, each exactly once, so the bucket sizes add up to the
    number of routines; and the signature of every member is [Equal] to
    the key of its bucket. *)
Theorem Bucketize_partitions (o : MapOrder) (gs : list Goroutine) :
  Permutation (members (Bucketize o gs)) gs /\
  totalSize (Bucketize o gs) = length gs /\
  consistent (Bucketize o gs).
Proof.
  unfold Bucketize. destruct (fold_place_spec o gs []) as [HP HC].
  simpl in HP. split; [exact HP|]. split.
  - rewrite totalSize_members. apply Permutation_length. exact HP.
  - apply HC. constructor.
Qed.

Example Bucketize_three_routines :
  let a := {| signature := sigOf "running" [frame "main.f" "/src/x/f.go" 1 ""];
              ID := 1; First := true |} in
  let b := {| signature := sigOf "IO wait" [frame "main.g" "/src/x/g.go" 2 ""];
              ID := 2; First := false |} in
  let c := {| signature := sigOf "running" [frame "main.f" "/src/x/f.go" 1 ""];
              ID := 3; First := false |} in
  Bucketize allocationOrder [a; b; c]
  = [(signature a, [a; c]); (signature b, [b])].
Proof. vm_compute. reflexivity. Qed.

(** * Further properties *)

(** ** Equality and order of signatures *)

(** [Equal] is an equivalence: reflexive, symmetric and transitive. *)
Theorem Equal_is_an_equivalence :
  (forall s, Equal s s = true) /\
  (forall l r, Equal l r = Equal r l) /\
  (forall a b c, Equal a b = true -> Equal b c = true -> Equal a c = true).
Proof.
  split; [exact Equal_refl|]. split.
  - intros l r. destruct (Equal l r) eqn:E1, (Equal r l) eqn:E2; try reflexivity.
    + apply Equal_eq in E1. subst. rewrite Equal_refl in E2. discriminate.
    + apply Equal_eq in E2. subst. rewrite Equal_refl in E1. discriminate.
  - intros a b c H1 H2. apply Equal_eq in H1, H2. subst. apply Equal_refl.
Qed.

Lemma ltb_asym (a b : string) : Str.ltb a b = true -> Str.ltb b a = false.
Proof.
  unfold Str.ltb. rewrite (String.compare_antisym b a).
  destruct (String.compare a b); simpl; congruence.
Qed.

(** The state decides first, then the length of the stack; on these two
    keys [Less] is asymmetric. *)
Theorem Less_by_state_then_length (l r : Signature) :
  Str.ltb (State l) (State r) = true \/
  (State l = State r /\ (length (Stack l) < length (Stack r))%nat) ->
  Less l r = true /\ Less r l = false.
Proof.
  unfold Less, Str.gtb. intros [H|[HS HL]].
  - rewrite H, (ltb_asym _ _ H). auto.
  - rewrite HS, ltb_irrefl.
    destruct (Nat.ltb_spec (length (Stack l)) (length (Stack r))) as [_|]; [|lia].
    destruct (Nat.ltb_spec (length (Stack r)) (length (Stack l))) as [|_]; [lia|].
    auto.
Qed.

Lemma Less_by_state_then_length_witness :
  Less (sigOf "IO wait" [frame "main.f" "" 0 ""; frame "main.g" "" 0 ""])
       (sigOf "running" []) = true /\
  Less (sigOf "running" [])
       (sigOf "IO wait" [frame "main.f" "" 0 ""; frame "main.g" "" 0 ""]) = false.
Proof.
  apply Less_by_state_then_length. left. vm_compute. reflexivity.
Defined.

Lemma lessStacks_same_triples (l r : list Call) :
  Forall2 sameTriple l r -> lessStacks l r = false.
Proof.
  induction 1 as [|a b l r (H1 & H2 & H3) _ IH]; [reflexivity|].
  cbn [lessStacks]. unfold Str.gtb.
  rewrite H1, H2, H3, !ltb_irrefl, Z.ltb_irrefl, Z.gtb_ltb, Z.ltb_irrefl.
  exact IH.
Qed.

(** [Less] looks at the state and, frame by frame, at the function name,
    at the parent directory and base name of the source path and at the
    line; it is blind to arguments, to the directories above the parent
    directory and to [CreatedBy].  Two signatures that agree on what it
    looks at are ordered in neither direction, also when [Equal] tells
    them apart. *)
Theorem Less_is_blind_to_arguments_and_path_prefixes (l r : Signature) :
  State l = State r ->
  Forall2 sameTriple (Stack l) (Stack r) ->
  Less l r = false /\ Less r l = false.
Proof.
  intros HS HT. unfold Less, Str.gtb.
  rewrite HS, ltb_irrefl, (Forall2_length _ _ _ HT), Nat.ltb_irrefl.
  split; apply lessStacks_same_triples; [exact HT|].
  clear HS. induction HT as [|a b l' r' (H1 & H2 & H3) _ IH]; constructor.
  - unfold sameTriple. auto.
  - exact IH.
Qed.

Lemma Less_is_blind_to_arguments_and_path_prefixes_witness :
  Equal sigHere sigThere = false /\
  Less sigHere sigThere = false /\ Less sigThere sigHere = false.
Proof.
  split; [vm_compute; reflexivity|].
  apply Less_is_blind_to_arguments_and_path_prefixes.
  - reflexivity.
  - repeat constructor; vm_compute; reflexivity.
Defined.

(** ** What the bucketizer computes *)

Lemma findKey_None (o : MapOrder) (m : buckets) (routine : Goroutine) :
  findKey o m routine = None ->
  forall i key rs, m !! i = Some (key, rs) -> Equal key (signature routine) = false.
Proof.
  unfold findKey. intros H i key rs Hi.
  assert (Hin : In i (visit o m)).
  { eapply Permutation_in; [symmetry; apply visit_perm|].
    apply in_seq. apply lookup_lt_Some in Hi. lia. }
  pose proof (find_none _ _ H i Hin) as Hf. cbv beta in Hf.
  rewrite Hi in Hf. exact Hf.
Qed.

Lemma map_fst_append (m : buckets) (i : nat) (routine : Goroutine) :
  map fst (alter (fun e => (fst e, snd e ++ [routine])) i m) = map fst m.
Proof.
  revert i. induction m as [|e m IH]; intros [|i]; simpl; try reflexivity.
  f_equal. apply IH.
Qed.

Lemma key_not_in (m : buckets) (s : Signature) :
  (forall i key rs, m !! i = Some (key, rs) -> Equal key s = false) ->
  ~ In s (map fst m).
Proof.
  intros H Hin. apply in_map_iff in Hin as ([key rs] & <- & Hin).
  rewrite <- list_elem_of_In in Hin. apply list_elem_of_lookup in Hin as [i Hi].
  specialize (H i key rs Hi). simpl in H. rewrite Equal_refl in H. discriminate.
Qed.

Lemma NoDup_snoc {A : Type} (l : list A) (x : A) :
  NoDup l -> ~ In x l -> NoDup (l ++ [x]).
Proof.
  intros Hl Hx. apply NoDup_app. split; [exact Hl|]. split.
  - intros y Hy Hy'. apply list_elem_of_In in Hy.
    apply list_elem_of_In in Hy'. destruct Hy' as [->|[]]. contradiction.
  - apply NoDup_singleton.
Qed.

Lemma place_keys_distinct (o : MapOrder) (m : buckets) (routine : Goroutine) :
  NoDup (map fst m) -> NoDup (map fst (place o m routine)).
Proof.
  intros Hm. unfold place. destruct (findKey o m routine) as [i|] eqn:E.
  - rewrite map_fst_append. exact Hm.
  - rewrite map_app. simpl. apply NoDup_snoc; [exact Hm|].
    apply key_not_in. exact (findKey_None _ _ _ E).
Qed.

Lemma withSignature_snoc (key : Signature) (done : list Goroutine) (g : Goroutine) :
  withSignature key (done ++ [g]) =
  withSignature key done ++ (if Equal key (signature g) then [g] else []).
Proof. unfold withSignature. rewrite List.filter_app. reflexivity. Qed.

Lemma place_grouped (o : MapOrder) (m : buckets) (done : list Goroutine)
    (routine : Goroutine) :
  grouped m done -> grouped (place o m routine) (done ++ [routine]).
Proof.
  intros (HN & HF & HC). split; [apply place_keys_distinct; exact HN|].
  unfold place. destruct (findKey o m routine) as [i|] eqn:E; unfold buckets in *.
  - apply findKey_Some in E as (key & rs & Hi & Heq). unfold buckets in *.
    pose proof Heq as Hkey. apply Equal_eq in Hkey. split.
    + intros j key' rs' Hj. rewrite withSignature_snoc.
      destruct (decide (i = j)) as [<-|Hne].
      * rewrite list_lookup_alter_eq, Hi in Hj. simpl in Hj.
        injection Hj as <- <-. rewrite Heq.
        destruct (HF i key rs Hi) as [-> _]. split; [reflexivity|].
        intros H. apply app_eq_nil in H as [_ H]. discriminate.
      * rewrite list_lookup_alter_ne in Hj by exact Hne.
        destruct (HF j key' rs' Hj) as [Hrs Hne'].
        destruct (Equal key' (signature routine)) eqn:E'.
        -- exfalso. apply Equal_eq in E'. apply Hne.
           apply (NoDup_lookup (map fst m) i j key HN).
           ++ rewrite list_lookup_fmap, Hi. reflexivity.
           ++ rewrite list_lookup_fmap, Hj. simpl. congruence.
        -- rewrite app_nil_r. auto.
    + intros g Hg. rewrite map_fst_append. apply in_app_iff in Hg as [Hg|[<-|[]]].
      * apply HC. exact Hg.
      * rewrite <- Hkey. apply in_map_iff. exists (key, rs). split; [reflexivity|].
        apply list_elem_of_In. apply list_elem_of_lookup. eauto.
  - pose proof (findKey_None _ _ _ E) as Hnone. unfold buckets in *. split.
    + intros j key' rs' Hj. rewrite withSignature_snoc.
      destruct (decide (j < length m)%nat) as [Hlt|Hge].
      * rewrite lookup_app_l in Hj by exact Hlt.
        rewrite (Hnone j key' rs' Hj), app_nil_r. apply (HF j). exact Hj.
      * rewrite lookup_app_r in Hj by lia.
        destruct (j - length m)%nat; [|discriminate]. simpl in Hj.
        injection Hj as <- <-. rewrite Equal_refl. split; [|discriminate].
        replace (withSignature (signature routine) done) with (@nil Goroutine);
          [reflexivity|].
        symmetry. unfold withSignature.
        destruct (List.filter _ done) as [|g l] eqn:Ef; [reflexivity|]. exfalso.
        assert (Hg : In g (List.filter
                             (fun g => Equal (signature routine) (signature g)) done))
          by (rewrite Ef; left; reflexivity).
        apply List.filter_In in Hg as [Hg Hs]. apply Equal_eq in Hs.
        apply (key_not_in m (signature routine) Hnone). rewrite Hs. apply HC, Hg.
    + intros g Hg. rewrite map_app. apply in_app_iff.
      apply in_app_iff in Hg as [Hg|[<-|[]]]; [left; apply HC, Hg | right; left; reflexivity].
Qed.

Lemma fold_place_grouped (o : MapOrder) (gs done : list Goroutine) (m : buckets) :
  grouped m done -> grouped (fold_left (place o) gs m) (done ++ gs).
Proof.
  revert m done. induction gs as [|g gs IH]; intros m done H; simpl.
  - rewrite app_nil_r. exact H.
  - replace (done ++ g :: gs) with ((done ++ [g]) ++ gs)
      by (rewrite <- app_assoc; reflexivity).
    apply IH, place_grouped, H.
Qed.

Lemma Bucketize_grouped (o : MapOrder) (gs : list Goroutine) :
  grouped (Bucketize o gs) gs.
Proof.
  apply (fold_place_grouped o gs [] []). split; [constructor|]. split.
  - intros i key rs Hi. discriminate Hi.
  - intros g [].
Qed.

(** [Bucketize] groups the routines by signature: no two buckets have
    the same key, no bucket is empty, and a bucket holds exactly the
    routines whose signature is [Equal] to its key, in the order of the
    input. *)
Theorem Bucketize_groups_by_signature (o : MapOrder) (gs : list Goroutine) :
  NoDup (map fst (Bucketize o gs)) /\
  forall key rs, In (key, rs) (Bucketize o gs) ->
                 rs = withSignature key gs /\ rs <> [].
Proof.
  destruct (Bucketize_grouped o gs) as (HN & HF & _). split; [exact HN|].
  intros key rs Hin. rewrite <- list_elem_of_In in Hin.
  apply list_elem_of_lookup in Hin as [i Hi]. exact (HF i key rs Hi).
Qed.

Lemma findKey_order_independent (o o' : MapOrder) (m : buckets) (routine : Goroutine) :
  NoDup (map fst m) -> findKey o m routine = findKey o' m routine.
Proof.
  intros HN.
  destruct (findKey o m routine) as [i|] eqn:E, (findKey o' m routine) as [j|] eqn:E';
    try reflexivity.
  - apply findKey_Some in E as (k & rs & Hi & He).
    apply findKey_Some in E' as (k' & rs' & Hj & He').
    apply Equal_eq in He, He'. f_equal. unfold buckets in *.
    apply (NoDup_lookup (map fst m) i j k HN).
    + rewrite list_lookup_fmap, Hi. reflexivity.
    + rewrite list_lookup_fmap, Hj. simpl. congruence.
  - apply findKey_Some in E as (k & rs & Hi & He).
    rewrite (findKey_None _ _ _ E' i k rs Hi) in He. discriminate.
  - apply findKey_Some in E' as (k & rs & Hj & He).
    rewrite (findKey_None _ _ _ E j k rs Hj) in He. discriminate.
Qed.

Lemma fold_place_order_independent (o o' : MapOrder) (gs : list Goroutine) (m : buckets) :
  NoDup (map fst m) -> fold_left (place o) gs m = fold_left (place o') gs m.
Proof.
  revert m. induction gs as [|g gs IH]; intros m HN; simpl; [reflexivity|].
  assert (Hp : place o m g = place o' m g).
  { unfold place. rewrite (findKey_order_independent o o' m g HN). reflexivity. }
  rewrite Hp. apply IH. apply place_keys_distinct. exact HN.
Qed.

(** The result of [Bucketize] does not depend on the order in which Go
    visits the map while looking for the key. *)
Theorem Bucketize_ignores_the_order_of_the_map (o o' : MapOrder) (gs : list Goroutine) :
  Bucketize o gs = Bucketize o' gs.
Proof. apply fold_place_order_independent. constructor. Qed.

(** ** The bucket of the first routine *)

Lemma anyFirst_In (rs : list Goroutine) :
  anyFirst rs = true -> exists g, In g rs /\ First g = true.
Proof.
  induction rs as [|r rs IH]; simpl; [discriminate|].
  destruct (First r) eqn:E; [eauto|].
  intros H. destruct (IH H) as (g & Hg & HF). eauto.
Qed.

Lemma first_routine_is_the_head (gs : list Goroutine) (g : Goroutine) :
  firstOnlyAtHead gs -> In g gs -> First g = true ->
  exists rest, gs = g :: rest.
Proof.
  intros H Hin HF. apply firstOnlyAtHead_shape in H.
  destruct gs as [|g0 rest]; [destruct Hin|]. destruct H as [_ Hrest].
  destruct Hin as [->|Hin]; [eauto|].
  rewrite Forall_forall in Hrest. apply list_elem_of_In in Hin.
  rewrite (Hrest g Hin) in HF. discriminate.
Qed.

Lemma place_keeps_keys (o : MapOrder) (m : buckets) (routine : Goroutine) :
  exists l, map fst (place o m routine) = map fst m ++ l.
Proof.
  unfold place. destruct (findKey o m routine) as [i|].
  - exists []. rewrite map_fst_append, app_nil_r. reflexivity.
  - eexists. apply map_app.
Qed.

Lemma fold_place_keeps_keys (o : MapOrder) (gs : list Goroutine) (m : buckets) :
  exists l, map fst (fold_left (place o) gs m) = map fst m ++ l.
Proof.
  revert m. induction gs as [|g gs IH]; intros m; simpl.
  - exists []. rewrite app_nil_r. reflexivity.
  - destruct (IH (place o m g)) as [l Hl]. destruct (place_keeps_keys o m g) as [l' Hl'].
    exists (l' ++ l). rewrite Hl, Hl', app_assoc. reflexivity.
Qed.

(** The first bucket allocated is the one of the first routine. *)
Lemma Bucketize_first_key (o : MapOrder) (g : Goroutine) (rest : list Goroutine) :
  map fst (Bucketize o (g :: rest)) !! O = Some (signature g).
Proof.
  unfold Bucketize. simpl fold_left.
  assert (Hp : place o [] g = [(signature g, [g])]).
  { unfold place. destruct (findKey o [] g) as [i|] eqn:E; [|reflexivity].
    apply findKey_Some in E as (k & rs & Hi & _). discriminate Hi. }
  rewrite Hp. destruct (fold_place_keeps_keys o rest [(signature g, [g])]) as [l ->].
  reflexivity.
Qed.

Lemma bucket_with_first_routine (o : MapOrder) (gs : list Goroutine)
    (i : nat) (key : Signature) (rs : list Goroutine) :
  firstOnlyAtHead gs ->
  Bucketize o gs !! i = Some (key, rs) ->
  anyFirst rs = true ->
  i = O.
Proof.
  intros HF Hi Hany. destruct (Bucketize_grouped o gs) as (HN & HG & _).
  unfold buckets in *.
  destruct (HG i key rs Hi) as [Hrs _].
  apply anyFirst_In in Hany as (g & Hg & Hfirst).
  rewrite Hrs in Hg. apply List.filter_In in Hg as [Hg Heq]. apply Equal_eq in Heq.
  destruct (first_routine_is_the_head gs g HF Hg Hfirst) as [rest ->].
  apply (NoDup_lookup _ i O key HN).
  - rewrite list_lookup_fmap, Hi. reflexivity.
  - rewrite Bucketize_first_key. congruence.
Qed.

(** Of the buckets made from the routines of a dump, only the first one
    allocated can hold the first routine; the comparison of [Bucket.Less]
    puts such a bucket before every other bucket and no other bucket
    before it. *)
Theorem bucket_of_the_first_routine_comes_first
    (o : MapOrder) (r : string) gs e w (i j : nat) (b c : Bucket) :
  ParseDump r = inl (gs, e, w) ->
  map toBucket (Bucketize o gs) !! i = Some b ->
  map toBucket (Bucketize o gs) !! j = Some c ->
  i <> j ->
  Bucket_First b = true ->
  i = O /\ Bucket_First c = false /\
  Bucket_Less b c = true /\ Bucket_Less c b = false.
Proof.
  intros HP Hi Hj Hne Hb. apply ParseDump_firstOnlyAtHead in HP.
  rewrite list_lookup_fmap in Hi, Hj.
  apply fmap_Some in Hi as ([k1 rs1] & Ei & ->).
  apply fmap_Some in Hj as ([k2 rs2] & Ej & ->).
  unfold Bucket_First in *. simpl in *.
  pose proof (bucket_with_first_routine o gs i k1 rs1 HP Ei Hb) as Hi0.
  assert (Hc : anyFirst rs2 = false).
  { destruct (anyFirst rs2) eqn:Hc; [|reflexivity]. exfalso. apply Hne.
    rewrite Hi0. symmetry. exact (bucket_with_first_routine o gs j k2 rs2 HP Ej Hc). }
  split; [exact Hi0|]. split; [exact Hc|].
  unfold Bucket_Less, Bucket_First. simpl. rewrite Hb, Hc. auto.
Qed.

Lemma bucket_of_the_first_routine_comes_first_witness :
  exists gs b c,
    ParseDump twoRoutines = inl (gs, None, []) /\
    map toBucket (Bucketize allocationOrder gs) !! 0%nat = Some b /\
    map toBucket (Bucketize allocationOrder gs) !! 1%nat = Some c /\
    Bucket_First c = false /\ Bucket_Less b c = true /\ Bucket_Less c b = false.
Proof.
  eexists _, _, _.
  split; [vm_compute; reflexivity|].
  split; [vm_compute; reflexivity|].
  split; [vm_compute; reflexivity|].
  eapply (fun H1 H2 H3 H4 H5 =>
            proj2 (bucket_of_the_first_routine_comes_first
                     allocationOrder twoRoutines _ None [] 0 1 _ _ H1 H2 H3 H4 H5)).
  - vm_compute. reflexivity.
  - vm_compute. reflexivity.
  - vm_compute. reflexivity.
  - discriminate.
  - vm_compute. reflexivity.
Defined.

(** ** Routine headers *)

Lemma append_inv_head (w x y : string) : w +:+ x = w +:+ y -> x = y.
Proof.
  induction w as [|a w IH]; [rewrite !append_nil_l; auto|].
  rewrite !append_cons. intros [= H]. auto.
Qed.

(** A run of bytes of a class ends where the first other byte stands. *)
Lemma split_after_class (p : ascii -> bool) (d d' o o' : string) :
  Str.all p d = true -> Str.all p d' = true ->
  noneAhead p o -> noneAhead p o' ->
  d +:+ o = d' +:+ o' -> d = d' /\ o = o'.
Proof.
  intros Hd Hd' Ho Ho'. revert d' Hd'. induction d as [|x d IH]; intros [|x' d'] Hd' H.
  - rewrite !append_nil_l in H. auto.
  - rewrite append_nil_l, append_cons in H. subst o. simpl in Ho, Hd'.
    apply andb_prop in Hd' as [Hx _]. congruence.
  - rewrite append_nil_l, append_cons in H. subst o'. simpl in Ho', Hd.
    apply andb_prop in Hd as [Hx _]. congruence.
  - rewrite !append_cons in H. injection H as -> H.
    simpl in Hd, Hd'. apply andb_prop in Hd as [_ Hd]. apply andb_prop in Hd' as [_ Hd'].
    destruct (IH Hd _ Hd' H) as [-> ->]. auto.
Qed.

Lemma reRoutineHeader_parts : reRoutineHeader = Cat Bol reRoutineHeader_body.
Proof. reflexivity. Qed.

Lemma In_reRoutineHeader_body text s c s' c' :
  In (s', c') (mr text reRoutineHeader_body s c) <->
  s' = EmptyString /\
  exists d st, s = headerLine d st /\ isNumber d /\ isState st /\
               c' = <[2%nat := st]> (<[1%nat := d]> c).
Proof.
  unfold reRoutineHeader_body, headerLine, isNumber, isState. rewrite In_Cat. split.
  - intros (s1 & c1 & H1 & H). apply In_lits in H1 as [-> ->].
    apply In_Cat in H as (s2 & c2 & H2 & H).
    apply In_Grp in H2 as (c2' & H2 & ->).
    apply In_Plus_Cls in H2 as (-> & d & Hne & -> & Hd).
    apply In_Cat in H as (s3 & c3 & H3 & H). apply In_lits in H3 as [-> ->].
    apply In_Cat in H as (s4 & c4 & H4 & H).
    apply In_Grp in H4 as (c4' & H4 & ->).
    apply In_Plus_Cls in H4 as (-> & st & Hne' & -> & Hst).
    apply In_Cat in H as (s5 & c5 & H5 & H). apply In_lits in H5 as [-> ->].
    apply In_Eol in H as (-> & -> & ->). split; [reflexivity|].
    exists d, st. rewrite !take_append. auto.
  - intros (-> & d & st & -> & [Hne Hd] & [Hne' Hst] & ->).
    exists (d +:+ " [" +:+ st +:+ "]:"), c. split; [apply In_lits; auto|].
    apply In_Cat. exists (" [" +:+ st +:+ "]:"), (<[1%nat := d]> c). split.
    { apply In_Grp. exists c. rewrite take_append. split; [|reflexivity].
      apply In_Plus_Cls. eauto. }
    apply In_Cat. exists (st +:+ "]:"), (<[1%nat := d]> c). split; [apply In_lits; auto|].
    apply In_Cat. exists "]:", (<[2%nat := st]> (<[1%nat := d]> c)). split.
    { apply In_Grp. exists (<[1%nat := d]> c). rewrite take_append. split; [|reflexivity].
      apply In_Plus_Cls. eauto. }
    apply In_Cat. exists EmptyString, (<[2%nat := st]> (<[1%nat := d]> c)).
    split; [apply In_lits; auto | apply In_Eol; auto].
Qed.

(** A header is read in one way only. *)
Lemma headerLine_inj (d d' st st' : string) :
  isNumber d -> isNumber d' -> isState st -> isState st' ->
  headerLine d st = headerLine d' st' -> d = d' /\ st = st'.
Proof.
  unfold headerLine. intros [_ Hd] [_ Hd'] [_ Hst] [_ Hst'] H.
  apply append_inv_head in H.
  apply (split_after_class digit) in H as [<- H];
    [| assumption | assumption | reflexivity | reflexivity].
  apply (append_inv_head " [") in H.
  apply (split_after_class not_rbracket) in H as [<- _];
    [auto | assumption | assumption | reflexivity | reflexivity].
Qed.

(** [reRoutineHeader] matches every header, and its groups are the number
    and the state. *)
Lemma reRoutineHeader_accepts (digits state : string) :
  isNumber digits -> isState state ->
  FindStringSubmatch reRoutineHeader (headerLine digits state)
  = Some [headerLine digits state; digits; state].
Proof.
  intros Hd Hs. rewrite reRoutineHeader_parts, FindStringSubmatch_Bol.
  change (replicate (S (ngroups reRoutineHeader_body)) EmptyString)
    with [EmptyString; EmptyString; EmptyString].
  destruct (head_of_constant_list
              (EmptyString, <[2%nat := state]> (<[1%nat := digits]> [EmptyString; EmptyString; EmptyString]))
              (mr (headerLine digits state) reRoutineHeader_body (headerLine digits state)
                  [EmptyString; EmptyString; EmptyString])) as [l ->].
  - apply In_reRoutineHeader_body. split; [reflexivity|]. exists digits, state. auto.
  - intros [s' c'] H. apply In_reRoutineHeader_body in H
      as (-> & d & st & Heq & Hd' & Hs' & ->).
    apply headerLine_inj in Heq as [<- <-]; auto.
  - rewrite take_all. reflexivity.
Qed.

Lemma headerLine_not_blank (digits state : string) :
  String.eqb (headerLine digits state) EmptyString = false.
Proof. reflexivity. Qed.

(** the loop body on a header, between routines *)
Lemma step_header_line (st : pstate) (digits state : string) :
  goroutine st = None ->
  isNumber digits -> isState state ->
  step st (headerLine digits state) =
  match strconv.Atoi digits with
  | Some id =>
      Continue {| goroutines :=
                    goroutines st ++
                    [ {| signature := sigOf state []; ID := id;
                         First := Nat.eqb (length (goroutines st)) 0 |} ];
                  goroutine := Some (length (goroutines st));
                  created := created st; out := out st |}
  | None =>
      Continue {| goroutines := goroutines st; goroutine := None;
                  created := created st;
                  out := out st ++ [withNL (headerLine digits state)] |}
  end.
Proof.
  intros Hg Hd Hs. unfold step.
  rewrite headerLine_not_blank, Hg, (reRoutineHeader_accepts _ _ Hd Hs).
  change (sub [headerLine digits state; digits; state] 1) with digits.
  change (sub [headerLine digits state; digits; state] 2) with state.
  reflexivity.
Qed.

(** Between routines, a header opens a routine: a routine with the
    number and the state of the header, no frame and no creator is
    appended, it is flagged [First] exactly when it is the first one, it
    becomes the current routine, and nothing is written to the auxiliary
    writer. *)
Theorem header_line_opens_a_routine
    (st : pstate) (digits state : string) (id : Z) :
  goroutine st = None ->
  isNumber digits -> isState state ->
  strconv.Atoi digits = Some id ->
  step st (headerLine digits state) =
  Continue {| goroutines :=
                goroutines st ++
                [ {| signature := sigOf state []; ID := id;
                     First := Nat.eqb (length (goroutines st)) 0 |} ];
              goroutine := Some (length (goroutines st));
              created := created st; out := out st |}.
Proof.
  intros Hg Hd Hs Hid. rewrite (step_header_line st _ _ Hg Hd Hs), Hid. reflexivity.
Qed.

Lemma header_line_opens_a_routine_witness :
  step initial (headerLine "17" "chan receive, 2 minutes") =
  Continue {| goroutines :=
                [ {| signature := sigOf "chan receive, 2 minutes" [];
                     ID := 17; First := true |} ];
              goroutine := Some O; created := false; out := [] |}.
Proof.
  apply (header_line_opens_a_routine initial "17" "chan receive, 2 minutes" 17).
  - reflexivity.
  - split; [discriminate | reflexivity].
  - split; [discriminate | reflexivity].
  - vm_compute. reflexivity.
Defined.

(** A header whose number does not fit an [int] opens no routine and is
    no error: the line is written to the auxiliary writer like any other
    line between routines. *)
Theorem header_with_overflowing_number_is_junk
    (st : pstate) (digits state : string) :
  goroutine st = None ->
  isNumber digits -> isState state ->
  strconv.Atoi digits = None ->
  step st (headerLine digits state) =
  Continue {| goroutines := goroutines st; goroutine := None;
              created := created st;
              out := out st ++ [withNL (headerLine digits state)] |}.
Proof.
  intros Hg Hd Hs Hid. rewrite (step_header_line st _ _ Hg Hd Hs), Hid. reflexivity.
Qed.

Lemma header_with_overflowing_number_is_junk_witness :
  step initial (headerLine "9223372036854775808" "running") =
  Continue {| goroutines := []; goroutine := None; created := false;
              out := [withNL (headerLine "9223372036854775808" "running")] |}.
Proof.
  apply (header_with_overflowing_number_is_junk initial "9223372036854775808" "running").
  - reflexivity.
  - split; [discriminate | reflexivity].
  - split; [discriminate | reflexivity].
  - vm_compute. reflexivity.
Defined.

(** ** Function lines *)

Lemma append_inv_tail (x x' t : string) : x +:+ t = x' +:+ t -> x = x'.
Proof.
  revert x'. induction x as [|a x IH]; intros [|a' x'] H.
  - reflexivity.
  - apply (f_equal String.length) in H. rewrite append_nil_l, length_append in H.
    simpl in H. lia.
  - apply (f_equal String.length) in H. rewrite append_nil_l, length_append in H.
    simpl in H. lia.
  - rewrite !append_cons in H. injection H as -> H. rewrite (IH _ H). reflexivity.
Qed.

Lemma mr_Grp text (i : nat) (a : regex) s c :
  mr text (Grp i a) s c =
  map (fun st : mstate =>
         (fst st, <[i := Str.take (String.length s - String.length (fst st)) s]> (snd st)))
      (mr text a s c).
Proof. reflexivity. Qed.

(** the greedy iteration of a class tries the rests in the order of [tails] *)
Lemma iter_Cls_tails text (p : ascii -> bool) (fuel : nat) s c :
  (String.length s <= fuel)%nat ->
  iter (mr text (Cls p)) fuel s c = map (fun s' => (s', c)) (tails p s).
Proof.
  revert s. induction fuel as [|fuel IH]; intros s Hlen.
  - destruct s; [reflexivity | simpl in Hlen; lia].
  - cbn [iter]. destruct s as [|b t]; [reflexivity|].
    change (mr text (Cls p) (String b t) c) with (if p b then [(t, c)] else []).
    cbn [tails]. destruct (p b); [|reflexivity].
    cbn [flat_map fst snd]. rewrite app_nil_r.
    replace (Nat.ltb (String.length t) (String.length (String b t))) with true
      by (symmetry; apply Nat.ltb_lt; simpl; lia).
    rewrite IH by (simpl in Hlen; lia). rewrite map_app. reflexivity.
Qed.

Lemma Plus_Cls_tails text (p : ascii -> bool) (b : ascii) (t : string) c :
  p b = true ->
  mr text (Plus (Cls p)) (String b t) c = map (fun s' => (s', c)) (tails p t).
Proof.
  intros Hb.
  change (mr text (Plus (Cls p)) (String b t) c) with
    (flat_map (fun st : mstate =>
                 iter (mr text (Cls p)) (String.length (fst st)) (fst st) (snd st))
              (if p b then [(t, c)] else [])).
  rewrite Hb. cbn [flat_map fst snd]. rewrite app_nil_r.
  apply iter_Cls_tails. lia.
Qed.

Lemma tails_app (p : ascii -> bool) (w u : string) :
  Str.all p w = true -> exists l, tails p (w +:+ u) = tails p u ++ l.
Proof.
  induction w as [|a w IH]; intros H.
  - exists []. rewrite append_nil_l, app_nil_r. reflexivity.
  - simpl in H. apply andb_prop in H as [Ha Hw]. destruct (IH Hw) as [l Hl].
    rewrite append_cons. cbn [tails]. rewrite Ha, Hl, <- app_assoc. eauto.
Qed.

Lemma tails_suffix (p : ascii -> bool) (v y : string) :
  In y (tails p v) -> exists w, v = w +:+ y.
Proof.
  induction v as [|b t IH]; cbn [tails].
  - intros [<-|[]]. exists EmptyString. reflexivity.
  - assert (Hself : String b t = y -> exists w, String b t = w +:+ y).
    { intros <-. exists EmptyString. reflexivity. }
    destruct (p b).
    + rewrite in_app_iff. intros [H|[H|[]]]; [|auto].
      destruct (IH H) as [w ->]. exists (String b w). reflexivity.
    + intros [H|[]]. auto.
Qed.

(** the first match of a sequence is the first match of its second part
    after the first rest the first part leaves for which there is one *)
Lemma flat_map_first {A B : Type} (f : A -> list B) (l1 l2 : list A) (x : A)
    (r : B) (rest : list B) :
  (forall y, In y l1 -> f y = []) -> f x = r :: rest ->
  exists l', flat_map f (l1 ++ x :: l2) = r :: l'.
Proof.
  intros H1 H2. induction l1 as [|a l1 IH]; simpl.
  - rewrite H2. simpl. eauto.
  - rewrite (H1 a (or_introl eq_refl)). apply IH. intros y Hy. apply H1. right. exact Hy.
Qed.

Lemma reFunc_parts : reFunc = Cat Bol (Cat reFunc_name reFunc_rest).
Proof. reflexivity. Qed.

Lemma In_reFunc_rest text s c s' c' :
  In (s', c') (mr text reFunc_rest s c) <->
  s' = EmptyString /\
  exists x, s = String "(" (x +:+ ")") /\ Str.all any x = true /\
            c' = <[2%nat := x]> c.
Proof.
  unfold reFunc_rest. rewrite In_Cat. split.
  - intros (s1 & c1 & H1 & H). apply In_Lit in H1 as [-> ->].
    apply In_Cat in H as (s2 & c2 & H2 & H).
    apply In_Grp in H2 as (c2' & H2 & ->).
    apply In_Star_Cls in H2 as (-> & x & -> & Hx).
    apply In_Cat in H as (s3 & c3 & H3 & H). apply In_Lit in H3 as [-> ->].
    apply In_Eol in H as (-> & -> & ->). split; [reflexivity|].
    exists x. rewrite take_append. auto.
  - intros (-> & x & -> & Hx & ->).
    exists (x +:+ ")"), c. split; [apply In_Lit; auto|].
    apply In_Cat. exists ")", (<[2%nat := x]> c). split.
    { apply In_Grp. exists c. rewrite take_append. split; [|reflexivity].
      apply In_Star_Cls. eauto. }
    apply In_Cat. exists EmptyString, (<[2%nat := x]> c).
    split; [apply In_Lit; auto | apply In_Eol; auto].
Qed.

(** what follows the name is matched in one way only *)
Lemma reFunc_rest_matches text (args : string) c :
  Str.all any args = true ->
  exists l, mr text reFunc_rest (String "(" (args +:+ ")")) c
            = (EmptyString, <[2%nat := args]> c) :: l.
Proof.
  intros Ha. apply head_of_constant_list.
  - apply In_reFunc_rest. split; [reflexivity|]. exists args. auto.
  - intros [s' c'] H. apply In_reFunc_rest in H as (-> & x & Heq & Hx & ->).
    injection Heq as Heq. apply append_inv_tail in Heq as <-. reflexivity.
Qed.

(** a rest without an opening parenthesis cannot follow the name *)
Lemma reFunc_rest_fails text (y : string) c :
  Str.all notParen y = true -> mr text reFunc_rest y c = [].
Proof.
  intros H. unfold reFunc_rest. rewrite mr_Cat.
  destruct y as [|b y]; [reflexivity|].
  simpl in H. apply andb_prop in H as [Hb _]. unfold notParen in Hb.
  change (mr text (Lit "(") (String b y) c)
    with (if Ascii.eqb "(" b then [(y, c)] else []).
  destruct (Ascii.eqb "(" b); [discriminate Hb | reflexivity].
Qed.

Lemma all_suffix (p : ascii -> bool) (w y : string) :
  Str.all p (w +:+ y) = true -> Str.all p y = true.
Proof. rewrite all_append. intros H. apply andb_prop in H as [_ H]. exact H. Qed.

Lemma reFunc_after_Bol text (name args : string) c :
  name <> EmptyString -> Str.all any name = true -> isArgs args ->
  exists l,
    mr text (Cat reFunc_name reFunc_rest) (funcLine name args) c
    = (EmptyString, <[2%nat := args]> (<[1%nat := name]> c)) :: l.
Proof.
  intros Hne Hn [Ha Hp]. destruct name as [|b name]; [congruence|].
  simpl in Hn. apply andb_prop in Hn as [Hb Hn].
  rewrite mr_Cat. unfold reFunc_name. rewrite mr_Grp.
  unfold funcLine. rewrite append_cons. rewrite (Plus_Cls_tails _ _ _ _ _ Hb).
  destruct (tails_app any name (String "(" (args +:+ ")")) Hn) as [l Hl].
  rewrite Hl. cbn [tails]. change (any "(") with true. cbv iota.
  rewrite <- app_assoc, !map_app. cbn [app map].
  set (U := String "(" (args +:+ ")")).
  set (f := fun st : mstate => mr text reFunc_rest (fst st) (snd st)).
  apply (flat_map_first f _ _ _ (EmptyString, <[2%nat := args]> (<[1%nat := String b name]> c))
           (tl (f (U, <[1%nat := String b name]> c)))).
  - intros y Hy. apply in_map_iff in Hy as (y1 & <- & Hy).
    apply in_map_iff in Hy as (y2 & <- & Hy). unfold f. cbn [fst snd].
    apply reFunc_rest_fails. apply tails_suffix in Hy as [w Hw].
    apply (all_suffix _ w). rewrite <- Hw, all_append, Hp. reflexivity.
  - unfold f. cbn [fst snd].
    replace (Str.take (String.length (String b (name +:+ U)) - String.length U)
                      (String b (name +:+ U))) with (String b name)
      by (rewrite <- append_cons, take_append; reflexivity).
    destruct (reFunc_rest_matches text args (<[1%nat := String b name]> c) Ha) as [l' Hl'].
    fold U in Hl'. rewrite Hl'. reflexivity.
Qed.

(** [reFunc] matches every function line whose arguments hold no
    opening parenthesis, and its groups are the name and the arguments. *)
Lemma reFunc_accepts (name args : string) :
  name <> EmptyString -> Str.all any name = true -> isArgs args ->
  FindStringSubmatch reFunc (funcLine name args)
  = Some [funcLine name args; name; args].
Proof.
  intros Hne Hn Ha. rewrite reFunc_parts, FindStringSubmatch_Bol.
  destruct (reFunc_after_Bol (funcLine name args) name args
              (replicate (S (ngroups (Cat reFunc_name reFunc_rest))) EmptyString)
              Hne Hn Ha) as [l ->].
  rewrite take_all. reflexivity.
Qed.

(** A line that starts with neither a tab nor a space is no file line. *)
Lemma reFile_rejects_unindented (s : string) :
  startsIndented s = false -> FindStringSubmatch reFile s = None.
Proof.
  intros H. rewrite reFile_parts, FindStringSubmatch_Bol, mr_Cat.
  destruct s as [|a t]; [reflexivity|].
  cbn [startsIndented] in H. apply orb_false_elim in H as [Ht Hs].
  unfold reFile_indent.
  change (mr (String a t) (Alt (Lit TAB) (Plus (Lit " "))) (String a t)
             (replicate (S (ngroups (Cat (Alt (Lit TAB) (Plus (Lit " "))) reFile_body)))
                        EmptyString))
    with ((if Ascii.eqb TAB a then [(t, [EmptyString; EmptyString; EmptyString])] else [])
          ++ flat_map (fun st : mstate =>
                         iter (mr (String a t) (Lit " ")) (String.length (fst st))
                              (fst st) (snd st))
                      (if Ascii.eqb " " a
                       then [(t, [EmptyString; EmptyString; EmptyString])] else [])).
  rewrite Ht, Hs. reflexivity.
Qed.

Lemma prefix_append (w s : string) : String.prefix w (w +:+ s) = true.
Proof.
  induction w as [|a w IH]; [destruct s; reflexivity|].
  rewrite append_cons. simpl. destruct (ascii_dec a a); [exact IH | congruence].
Qed.

Lemma reCreated_parts : reCreated = Cat Bol reCreated_body.
Proof. reflexivity. Qed.

Lemma In_reCreated_body text s c s' c' :
  In (s', c') (mr text reCreated_body s c) <->
  s' = EmptyString /\
  exists f, s = createdLine f /\ f <> EmptyString /\ Str.all any f = true /\
            c' = <[1%nat := f]> c.
Proof.
  unfold reCreated_body, createdLine. rewrite In_Cat. split.
  - intros (s1 & c1 & H1 & H). apply In_lits in H1 as [-> ->].
    apply In_Cat in H as (s2 & c2 & H2 & H).
    apply In_Grp in H2 as (c2' & H2 & ->).
    apply In_Plus_Cls in H2 as (-> & f & Hne & -> & Hf).
    apply In_Eol in H as (-> & -> & ->). split; [reflexivity|].
    exists f. rewrite take_append, append_nil_r. auto.
  - intros (-> & f & -> & Hne & Hf & ->).
    exists f, c. split; [apply In_lits; auto|].
    apply In_Cat. exists EmptyString, (<[1%nat := f]> c). split.
    + apply In_Grp. exists c. rewrite take_all. split; [|reflexivity].
      apply In_Plus_Cls. split; [reflexivity|]. exists f. rewrite append_nil_r. auto.
    + apply In_Eol. auto.
Qed.

(** A line that does not start with the words [created by] and a space
    is no created-by line. *)
Lemma reCreated_rejects (s : string) :
  String.prefix "created by " s = false -> FindStringSubmatch reCreated s = None.
Proof.
  intros H. rewrite reCreated_parts, FindStringSubmatch_Bol.
  destruct (mr s reCreated_body s _) as [|[s' c'] l] eqn:E; [reflexivity|].
  assert (Hin : In (s', c') (mr s reCreated_body s
                               (replicate (S (ngroups reCreated_body)) EmptyString))).
  { rewrite E. left. reflexivity. }
  apply In_reCreated_body in Hin as (_ & f & Hs & _).
  unfold createdLine in Hs. rewrite Hs, prefix_append in H. discriminate H.
Qed.

(** [reCreated] matches every created-by line, and its group is the name. *)
Lemma reCreated_accepts (f : string) :
  f <> EmptyString -> Str.all any f = true ->
  FindStringSubmatch reCreated (createdLine f) = Some [createdLine f; f].
Proof.
  intros Hne Hf. rewrite reCreated_parts, FindStringSubmatch_Bol.
  change (replicate (S (ngroups reCreated_body)) EmptyString)
    with [EmptyString; EmptyString].
  destruct (head_of_constant_list
              (EmptyString, <[1%nat := f]> [EmptyString; EmptyString])
              (mr (createdLine f) reCreated_body (createdLine f)
                  [EmptyString; EmptyString])) as [l ->].
  - apply In_reCreated_body. split; [reflexivity|]. exists f. auto.
  - intros [s' c'] H. apply In_reCreated_body in H as (-> & f' & Heq & _ & _ & ->).
    unfold createdLine in Heq. apply append_inv_head in Heq as <-. reflexivity.
  - rewrite take_all. reflexivity.
Qed.

(** the words [created by] hold no parenthesis, so a function line starts
    with them only if the name does *)
Lemma prefix_funcLine (w name rest : string) :
  Str.all notParen w = true ->
  String.prefix w (name +:+ String "(" rest) = true -> String.prefix w name = true.
Proof.
  revert name. induction w as [|a w IH]; intros name Hw H; [destruct name; reflexivity|].
  simpl in Hw. apply andb_prop in Hw as [Ha Hw]. destruct name as [|b name].
  - rewrite append_nil_l in H. simpl in H.
    destruct (ascii_dec a "(") as [->|_]; [discriminate Ha | discriminate H].
  - rewrite append_cons in H. simpl in H |- *.
    destruct (ascii_dec a b); [eauto | discriminate H].
Qed.

Lemma funcLine_cons (name args : string) :
  name <> EmptyString ->
  exists b t, name = String b t /\ funcLine name args = String b (funcLine t args).
Proof. destruct name as [|b t]; [congruence|]. intros _. eauto. Qed.

(** the loop body on a function line, inside a routine *)
Lemma step_func_line (st : pstate) (p : nat) (g : Goroutine) (name args : string) :
  goroutine st = Some p -> goroutines st !! p = Some g ->
  isFuncName name -> isArgs args ->
  step st (funcLine name args) =
  Continue {| goroutines :=
                alter (setStack (Stack (signature g) ++ [frame name "" 0 args]))
                      p (goroutines st);
              goroutine := Some p; created := created st; out := out st |}.
Proof.
  intros Hp Hg (Hne & Hn & Hind & Hpre) Ha. unfold step.
  assert (Hblank : String.eqb (funcLine name args) EmptyString = false).
  { destruct (funcLine_cons name args Hne) as (b & t & _ & ->). reflexivity. }
  assert (HnoFile : FindStringSubmatch reFile (funcLine name args) = None).
  { apply reFile_rejects_unindented.
    destruct (funcLine_cons name args Hne) as (b & t & -> & ->). exact Hind. }
  assert (HnoCreated : FindStringSubmatch reCreated (funcLine name args) = None).
  { apply reCreated_rejects.
    destruct (String.prefix "created by " (funcLine name args)) eqn:E; [|reflexivity].
    apply prefix_funcLine in E; [congruence | reflexivity]. }
  rewrite Hblank, Hp, Hg, HnoFile, HnoCreated, (reFunc_accepts _ _ Hne Hn Ha).
  reflexivity.
Qed.

(** ** The lines of a routine, one after the other *)

Lemma lookup_last {A : Type} (l : list A) (x : A) : (l ++ [x]) !! length l = Some x.
Proof. rewrite lookup_app_r by lia. rewrite Nat.sub_diag. reflexivity. Qed.

Lemma numberOf_Atoi (digits : string) :
  isNumeral digits -> strconv.Atoi digits = Some (numberOf digits).
Proof.
  intros [_ H]. unfold numberOf. destruct (strconv.Atoi digits); [reflexivity | congruence].
Qed.

(** a function line and its file line add one frame to the routine *)
Lemma steps_frame (gs : list Goroutine) (g : Goroutine) (w : list string)
    (f : frameText) :
  wellFormedFrame f ->
  steps (inside gs g false w) (frameLines f) =
  Continue (inside gs (setStack (Stack (signature g) ++ [frameOf f]) g) false w).
Proof.
  intros (Hn & Ha & Hi & Hp & Hd & Ho). unfold frameLines. cbn [steps].
  rewrite (step_func_line (inside gs g false w) (length gs) g _ _
             eq_refl (lookup_last gs g) Hn Ha).
  cbn [inside goroutines goroutine created out]. rewrite alter_last.
  pose proof (step_file_line
                (inside gs (setStack (Stack (signature g)
                                      ++ [frame (ftName f) "" 0 (ftArgs f)]) g) false w)
                (length gs) _ _ _ _ _ (numberOf (ftDigits f))
                eq_refl (lookup_last gs _) Hi Hp (proj1 Hd) Ho (numberOf_Atoi _ Hd))
    as Hfile.
  unfold inside in Hfile |- *. rewrite Hfile.
  cbn [goroutines goroutine created out setStack signature Stack].
  rewrite length_app. cbn [length]. rewrite Nat.add_1_r, !alter_last.
  reflexivity.
Qed.

Lemma setStack_setStack (a b : list Call) (g : Goroutine) :
  setStack a (setStack b g) = setStack a g.
Proof. reflexivity. Qed.

Lemma steps_frames (fs : list frameText) (gs : list Goroutine) (g : Goroutine)
    (w : list string) :
  Forall wellFormedFrame fs ->
  steps (inside gs g false w) (concat (map frameLines fs)) =
  Continue (inside gs (setStack (Stack (signature g) ++ map frameOf fs) g) false w).
Proof.
  intros H. revert g. induction H as [|f fs Hf Hfs IH]; intros g.
  - cbn [map concat steps app]. rewrite app_nil_r.
    destruct g as [[? ? ?] ? ?]. reflexivity.
  - cbn [map concat]. rewrite steps_app, (steps_frame _ _ _ _ Hf), IH.
    rewrite setStack_setStack. cbn [setStack signature Stack map].
    rewrite <- app_assoc. reflexivity.
Qed.

(** the loop body on a created-by line, inside a routine *)
Lemma step_created_line (st : pstate) (p : nat) (g : Goroutine) (name : string) :
  goroutine st = Some p -> goroutines st !! p = Some g ->
  name <> EmptyString -> Str.all any name = true ->
  step st (createdLine name) =
  Continue {| goroutines := alter (setCreatedByFunc name) p (goroutines st);
              goroutine := Some p; created := true; out := out st |}.
Proof.
  intros Hp Hg Hne Hn. unfold step.
  change (String.eqb (createdLine name) EmptyString) with false. cbv iota.
  rewrite Hp, Hg, (reFile_rejects_unindented (createdLine name) eq_refl),
    (reCreated_accepts _ Hne Hn).
  reflexivity.
Qed.

(** a created-by line and its file line record the creator *)
Lemma steps_creator (gs : list Goroutine) (g : Goroutine) (cr : bool) (w : list string)
    (name indent path digits offset : string) :
  name <> EmptyString -> Str.all any name = true ->
  isIndent indent path -> isPath path -> isNumeral digits -> isOffset offset ->
  steps (inside gs g cr w) [createdLine name; fileLine indent path digits offset] =
  Continue (inside gs (setCreatedByFile path (numberOf digits) (setCreatedByFunc name g))
                   false w).
Proof.
  intros Hne Hn Hi Hp Hd Ho. cbn [steps].
  rewrite (step_created_line (inside gs g cr w) (length gs) g _
             eq_refl (lookup_last gs g) Hne Hn).
  cbn [inside goroutines out]. rewrite alter_last.
  fold (inside gs (setCreatedByFunc name g) true w).
  rewrite (file_line_after_created_by
             (inside gs (setCreatedByFunc name g) true w)
             (length gs) _ _ _ _ _ (numberOf digits)
             eq_refl (lookup_last gs _) eq_refl Hi Hp (proj1 Hd) Ho (numberOf_Atoi _ Hd)).
  unfold inside. cbn [goroutines out]. rewrite alter_last. reflexivity.
Qed.

(** the empty line closes the routine *)
Lemma step_empty_line (gs : list Goroutine) (g : Goroutine) (cr : bool) (w : list string) :
  step (inside gs g cr w) EmptyString =
  Continue {| goroutines := gs ++ [g]; goroutine := None; created := cr; out := w |}.
Proof. reflexivity. Qed.

(** the lines of a routine add the routine they stand for *)
Lemma steps_routine (gs : list Goroutine) (w : list string) (r : routineText) :
  wellFormedRoutine r ->
  steps (between gs w) (routineLines r) =
  Continue (between (gs ++ [routineOf (Nat.eqb (length gs) 0) r]) w).
Proof.
  intros (Hd & Hs & Hfs & Hc). unfold routineLines.
  change (steps (between gs w)
            (headerLine (rtDigits r) (rtState r)
             :: concat (map frameLines (rtFrames r))
                ++ creatorLines (rtCreator r) ++ [EmptyString]))
    with (match step (between gs w) (headerLine (rtDigits r) (rtState r)) with
          | Continue st' =>
              steps st' (concat (map frameLines (rtFrames r))
                         ++ creatorLines (rtCreator r) ++ [EmptyString])
          | o => o
          end).
  rewrite (step_header_line (between gs w) _ _ eq_refl (proj1 Hd) Hs),
    (numberOf_Atoi _ Hd).
  cbn [between goroutines created out].
  change {| goroutines := gs ++ [ {| signature := sigOf (rtState r) [];
                                      ID := numberOf (rtDigits r);
                                      First := Nat.eqb (length gs) 0 |} ];
            goroutine := Some (length gs); created := false; out := w |}
    with (inside gs {| signature := sigOf (rtState r) [];
                       ID := numberOf (rtDigits r);
                       First := Nat.eqb (length gs) 0 |} false w).
  rewrite steps_app, (steps_frames _ _ _ _ Hfs), steps_app.
  destruct (rtCreator r) as [c|] eqn:Ec.
  - destruct Hc as (Hne & Hn & Hi & Hp & Hnum & Ho). cbn [creatorLines].
    rewrite (steps_creator _ _ _ _ _ _ _ _ _ Hne Hn Hi Hp Hnum Ho).
    cbn [steps]. rewrite step_empty_line. unfold between, routineOf. rewrite Ec.
    reflexivity.
  - cbn [creatorLines steps]. rewrite step_empty_line. unfold between, routineOf.
    rewrite Ec. reflexivity.
Qed.

Lemma steps_more_routines (rs : list routineText) (gs : list Goroutine) (w : list string) :
  gs <> [] -> Forall wellFormedRoutine rs ->
  steps (between gs w) (dumpLines rs) =
  Continue (between (gs ++ map (routineOf false) rs) w).
Proof.
  intros Hgs H. revert gs Hgs. induction H as [|r rs Hr Hrs IH]; intros gs Hgs.
  - cbn [dumpLines map concat steps]. rewrite app_nil_r. reflexivity.
  - unfold dumpLines in *. cbn [map concat].
    rewrite steps_app, (steps_routine _ _ _ Hr), IH by (destruct gs; discriminate).
    destruct gs as [|g0 gs]; [congruence|]. cbn [length Nat.eqb].
    rewrite <- app_assoc. reflexivity.
Qed.

Lemma steps_dump (rs : list routineText) (w : list string) :
  Forall wellFormedRoutine rs ->
  steps (between [] w) (dumpLines rs) = Continue (between (routinesOf rs) w).
Proof.
  intros H. destruct H as [|r rs Hr Hrs]; [reflexivity|].
  unfold dumpLines. cbn [map concat].
  rewrite steps_app, (steps_routine _ _ _ Hr).
  cbn [app length Nat.eqb]. fold (dumpLines rs).
  rewrite steps_more_routines by (discriminate || assumption). reflexivity.
Qed.

(** lines that are no header, before the first routine, are written to
    the auxiliary writer *)
Lemma steps_junk (junk : list string) (gs : list Goroutine) (w : list string) :
  Forall notHeader junk ->
  steps (between gs w) junk = Continue (between gs (w ++ map withNL junk)).
Proof.
  intros H. revert w. induction H as [|l junk Hl Hjunk IH]; intros w.
  - cbn [map steps]. rewrite app_nil_r. reflexivity.
  - cbn [steps map].
    assert (H1 : step (between gs w) l = Continue (between gs (w ++ [withNL l]))).
    { unfold step, between. cbn [goroutine goroutines created out].
      unfold notHeader in Hl. rewrite Hl.
      destruct (String.eqb l EmptyString); reflexivity. }
    rewrite H1, IH, <- app_assoc. reflexivity.
Qed.

(** ** Scanning lines *)

Lemma unlines_cons (l : string) (ls : list string) :
  unlines (l :: ls) = l +:+ String NL (unlines ls).
Proof. unfold unlines, withNL. cbn [fold_right]. rewrite append_assoc. reflexivity. Qed.

(** The scanner hands back the lines a text was made of. *)
Lemma Scan_unlines (ls : list string) :
  Forall scannable ls -> bufio.Scan (unlines ls) = (ls, false).
Proof.
  intros H. unfold bufio.Scan. induction H as [|l ls (Hany & Hcr & Hlen) Hls IH].
  - reflexivity.
  - rewrite unlines_cons, pieces_line by exact Hany.
    destruct (bufio.pieces (unlines ls)) as [|q qs] eqn:E;
      [exfalso; exact (pieces_not_nil _ E)|].
    change (bufio.tokens (l :: q :: qs)) with
      (if bufio.tooLong l then ([], true)
       else (bufio.dropCR l :: fst (bufio.tokens (q :: qs)),
             snd (bufio.tokens (q :: qs)))).
    replace (bufio.tooLong l) with false
      by (symmetry; unfold bufio.tooLong; apply Z.leb_gt; exact Hlen).
    rewrite Hcr, IH. reflexivity.
Qed.

(** ** Frames and creators *)

(** While a routine is in progress and no created-by line is pending, a
    function line followed by its file line adds one frame to the stack
    of the current routine: the name and the arguments of the function
    line, the path and the line number of the file line.  Nothing is
    written to the auxiliary writer.  The name may hold parentheses, as
    that of a method with a pointer receiver does. *)
Theorem frame_is_read_from_two_lines
    (st : pstate) (p : nat) (g : Goroutine) (f : frameText) :
  goroutine st = Some p ->
  goroutines st !! p = Some g ->
  created st = false ->
  wellFormedFrame f ->
  steps st (frameLines f) =
  Continue {| goroutines :=
                alter (setStack (Stack (signature g) ++ [frameOf f])) p (goroutines st);
              goroutine := Some p; created := false; out := out st |}.
Proof.
  intros Hp Hg Hc (Hn & Ha & Hi & Hpath & Hd & Ho). unfold frameLines. cbn [steps].
  rewrite (step_func_line st p g _ _ Hp Hg Hn Ha).
  set (g1 := setStack (Stack (signature g) ++ [frame (ftName f) "" 0 (ftArgs f)]) g).
  assert (Hlook : alter (setStack (Stack (signature g)
                                   ++ [frame (ftName f) "" 0 (ftArgs f)]))
                        p (goroutines st) !! p = Some g1).
  { rewrite list_lookup_alter_eq, Hg. reflexivity. }
  set (st1 := {| goroutines :=
                   alter (setStack (Stack (signature g)
                                    ++ [frame (ftName f) "" 0 (ftArgs f)]))
                         p (goroutines st);
                 goroutine := Some p; created := created st; out := out st |}).
  rewrite (step_file_line st1 p g1 _ _ _ _ (numberOf (ftDigits f))
             eq_refl Hlook Hi Hpath (proj1 Hd) Ho (numberOf_Atoi _ Hd)).
  unfold st1. cbn [created goroutines out]. rewrite Hc.
  unfold g1. cbn [setStack signature Stack].
  rewrite length_app. cbn [length]. rewrite Nat.add_1_r, alter_last.
  rewrite list_alter_alter_eq. reflexivity.
Qed.

Lemma frame_is_read_from_two_lines_witness :
  steps afterHeader
    (frameLines {| ftName := "main.(" +:+ "*T).Run"; ftArgs := "0xc208012000, 0x1";
                   ftIndent := String TAB EmptyString;
                   ftPath := "/gopath/src/main/t.go"; ftDigits := "72";
                   ftOffset := " +0x5d" |})
  = Continue
      {| goroutines :=
           [ {| signature :=
                  sigOf "running"
                        [frame ("main.(" +:+ "*T).Run") "/gopath/src/main/t.go" 72
                               "0xc208012000, 0x1"];
                ID := 1; First := true |} ];
         goroutine := Some O; created := false; out := [] |}.
Proof.
  apply (frame_is_read_from_two_lines afterHeader O
           {| signature := sigOf "running" []; ID := 1; First := true |}
           {| ftName := "main.(" +:+ "*T).Run"; ftArgs := "0xc208012000, 0x1";
              ftIndent := String TAB EmptyString;
              ftPath := "/gopath/src/main/t.go"; ftDigits := "72";
              ftOffset := " +0x5d" |}).
  - reflexivity.
  - reflexivity.
  - reflexivity.
  - split; [|split; [|split; [|split; [|split]]]].
    + split; [discriminate | repeat split; reflexivity].
    + split; reflexivity.
    + left. reflexivity.
    + right. exists "/gopath/src/main/t". split; [discriminate | split; reflexivity].
    + split; [split; [discriminate | reflexivity] | vm_compute; discriminate].
    + right. exists "5d". split; [discriminate | split; reflexivity].
Defined.

(** While a routine is in progress, a created-by line followed by its
    file line records the creator of the current routine: the name of the
    function, the path and the line number.  The stack is left as it is
    and nothing is written to the auxiliary writer. *)
Theorem creator_is_read_from_two_lines
    (st : pstate) (p : nat) (g : Goroutine) (c : creatorText) :
  goroutine st = Some p ->
  goroutines st !! p = Some g ->
  wellFormedCreator (Some c) ->
  steps st (creatorLines (Some c)) =
  Continue {| goroutines :=
                alter (setCreatedByFile (ctPath c) (numberOf (ctDigits c))
                       ∘ setCreatedByFunc (ctName c)) p (goroutines st);
              goroutine := Some p; created := false; out := out st |}.
Proof.
  intros Hp Hg (Hne & Hn & Hi & Hpath & Hd & Ho). cbn [creatorLines steps].
  rewrite (step_created_line st p g _ Hp Hg Hne Hn).
  assert (Hlook : alter (setCreatedByFunc (ctName c)) p (goroutines st) !! p
                  = Some (setCreatedByFunc (ctName c) g)).
  { rewrite list_lookup_alter_eq, Hg. reflexivity. }
  set (st1 := {| goroutines := alter (setCreatedByFunc (ctName c)) p (goroutines st);
                 goroutine := Some p; created := true; out := out st |}).
  rewrite (file_line_after_created_by st1 p _ _ _ _ _ (numberOf (ctDigits c))
             eq_refl Hlook eq_refl Hi Hpath (proj1 Hd) Ho (numberOf_Atoi _ Hd)).
  unfold st1. cbn [goroutines out]. rewrite list_alter_alter_eq. reflexivity.
Qed.

Lemma creator_is_read_from_two_lines_witness :
  steps inMain
    (creatorLines (Some {| ctName := "main.start";
                           ctIndent := String TAB EmptyString;
                           ctPath := "/gopath/src/main/main.go"; ctDigits := "10";
                           ctOffset := " +0x1f" |}))
  = Continue
      {| goroutines :=
           [ {| signature :=
                  {| State := "running"; Stack := [frame "main.main" "" 0 ""];
                     CreatedBy := frame "main.start" "/gopath/src/main/main.go" 10 "" |};
                ID := 1; First := true |} ];
         goroutine := Some O; created := false; out := [] |}.
Proof.
  apply (creator_is_read_from_two_lines inMain O
           {| signature := sigOf "running" [frame "main.main" "" 0 ""];
              ID := 1; First := true |}
           {| ctName := "main.start"; ctIndent := String TAB EmptyString;
              ctPath := "/gopath/src/main/main.go"; ctDigits := "10";
              ctOffset := " +0x1f" |}).
  - reflexivity.
  - reflexivity.
  - split; [discriminate|]. split; [reflexivity|]. split; [left; reflexivity|].
    split; [right; exists "/gopath/src/main/main";
            split; [discriminate | split; reflexivity]|].
    split; [split; [split; [discriminate | reflexivity] | vm_compute; discriminate]|].
    right. exists "1f". split; [discriminate | split; reflexivity].
Defined.

(** ** Whole dumps *)

Lemma scannableb_correct (ls : list string) :
  forallb scannableb ls = true -> Forall scannable ls.
Proof.
  intros H. apply List.Forall_forall. intros l Hl.
  apply (proj1 (forallb_forall _ _) H) in Hl. unfold scannableb in Hl.
  apply andb_prop in Hl as [Hl H3]. apply andb_prop in Hl as [H1 H2].
  apply String.eqb_eq in H2. apply Z.ltb_lt in H3. split; auto.
Qed.

Lemma ParseDump_unlines (ls : list string) :
  Forall scannable ls -> ParseDump (unlines ls) = finish false (steps initial ls).
Proof. intros H. rewrite ParseDump_steps, (Scan_unlines _ H). reflexivity. Qed.

(** A dump is read back.  When the input is made of lines that are no
    routine header followed by well-formed routines (a header, pairs of
    a function line and a file line, at most one created-by line with its
    file line, an empty line), [ParseDump] returns without error the
    routines the text stands for, the first one flagged [First], and
    writes the lines before the first routine, and nothing else, to the
    auxiliary writer. *)
Theorem well_formed_dump_is_read_back (junk : list string) (rs : list routineText) :
  Forall notHeader junk ->
  Forall wellFormedRoutine rs ->
  Forall scannable (junk ++ dumpLines rs) ->
  ParseDump (unlines (junk ++ dumpLines rs))
  = inl (routinesOf rs, None, map withNL junk).
Proof.
  intros Hjunk Hrs Hscan. rewrite (ParseDump_unlines _ Hscan), steps_app.
  change initial with (between [] []).
  rewrite (steps_junk _ _ _ Hjunk), (steps_dump _ _ Hrs). reflexivity.
Qed.

Lemma well_formed_dump_is_read_back_witness :
  ParseDump (unlines (sampleJunk ++ dumpLines sampleDump))
  = inl ([ {| signature :=
                sigOf "running"
                      [ frame ("main.(" +:+ "*T).Run") "/gopath/src/main/t.go" 72
                              "0xc208012000, 0x1";
                        frame "main.main" "/gopath/src/main/main.go" 12 "" ];
              ID := 1; First := true |};
           {| signature :=
                {| State := "chan receive";
                   Stack := [ frame "main.worker" "/gopath/src/main/work.go" 30 "0x1" ];
                   CreatedBy := frame "main.start" "/gopath/src/main/main.go" 10 "" |};
              ID := 7; First := false |} ],
         None, [withNL "panic: oops"; withNL ""]).
Proof.
  apply (well_formed_dump_is_read_back sampleJunk sampleDump).
  - apply List.Forall_cons; [reflexivity|]. apply List.Forall_cons; [reflexivity|]. apply List.Forall_nil.
  - apply List.Forall_cons; [|apply List.Forall_cons; [|apply List.Forall_nil]].
    + split; [split; [split; [discriminate | reflexivity] | vm_compute; discriminate]|].
      split; [split; [discriminate | reflexivity]|].
      split; [|exact I].
      apply List.Forall_cons; [|apply List.Forall_cons; [|apply List.Forall_nil]].
      * split; [split; [discriminate | repeat split; reflexivity]|].
        split; [split; reflexivity|]. split; [left; reflexivity|].
        split; [right; exists "/gopath/src/main/t";
                split; [discriminate | split; reflexivity]|].
        split; [split; [split; [discriminate | reflexivity] | vm_compute; discriminate]|].
        right. exists "5d". split; [discriminate | split; reflexivity].
      * split; [split; [discriminate | repeat split; reflexivity]|].
        split; [split; reflexivity|]. split; [left; reflexivity|].
        split; [right; exists "/gopath/src/main/main";
                split; [discriminate | split; reflexivity]|].
        split; [split; [split; [discriminate | reflexivity] | vm_compute; discriminate]|].
        left. reflexivity.
    + split; [split; [split; [discriminate | reflexivity] | vm_compute; discriminate]|].
      split; [split; [discriminate | reflexivity]|].
      split.
      * apply List.Forall_cons; [|apply List.Forall_nil].
        split; [split; [discriminate | repeat split; reflexivity]|].
        split; [split; reflexivity|].
        split; [right; split; [exists 1%nat; reflexivity | intros t; discriminate]|].
        split; [right; exists "/gopath/src/main/work";
                split; [discriminate | split; reflexivity]|].
        split; [split; [split; [discriminate | reflexivity] | vm_compute; discriminate]|].
        right. exists "45". split; [discriminate | split; reflexivity].
      * split; [discriminate|]. split; [reflexivity|]. split; [left; reflexivity|].
        split; [right; exists "/gopath/src/main/main";
                split; [discriminate | split; reflexivity]|].
        split; [split; [split; [discriminate | reflexivity] | vm_compute; discriminate]|].
        right. exists "1f". split; [discriminate | split; reflexivity].
  - apply scannableb_correct. vm_compute. reflexivity.
Defined.

(** ** Line endings *)

Lemma dropCR_snoc_CR (l : string) :
  bufio.dropCR (l +:+ String CR EmptyString) = l.
Proof.
  induction l as [|a l IH]; [reflexivity|].
  rewrite append_cons.
  destruct l as [|b l]; [reflexivity|].
  rewrite append_cons in *.
  change (bufio.dropCR (String a (String b (l +:+ String CR EmptyString))))
    with (String a (bufio.dropCR (String b (l +:+ String CR EmptyString)))).
  rewrite IH. reflexivity.
Qed.

Lemma unlinesCRLF_cons (l : string) (ls : list string) :
  unlinesCRLF (l :: ls) = (l +:+ String CR EmptyString) +:+ String NL (unlinesCRLF ls).
Proof. unfold unlinesCRLF. cbn [fold_right]. rewrite append_assoc. reflexivity. Qed.

Lemma Scan_unlinesCRLF (ls : list string) :
  Forall scannableCRLF ls -> bufio.Scan (unlinesCRLF ls) = (ls, false).
Proof.
  intros H. unfold bufio.Scan.
  induction H as [|l ls [(Hany & Hcr & _) Hlen] Hls IH].
  - reflexivity.
  - rewrite unlinesCRLF_cons, pieces_line
      by (rewrite all_append, Hany; reflexivity).
    destruct (bufio.pieces (unlinesCRLF ls)) as [|q qs] eqn:E;
      [exfalso; exact (pieces_not_nil _ E)|].
    change (bufio.tokens ((l +:+ String CR EmptyString) :: q :: qs)) with
      (if bufio.tooLong (l +:+ String CR EmptyString) then ([], true)
       else (bufio.dropCR (l +:+ String CR EmptyString) :: fst (bufio.tokens (q :: qs)),
             snd (bufio.tokens (q :: qs)))).
    replace (bufio.tooLong (l +:+ String CR EmptyString)) with false.
    + rewrite dropCR_snoc_CR, IH. reflexivity.
    + symmetry. unfold bufio.tooLong. apply Z.leb_gt.
      rewrite length_append. simpl String.length. lia.
Qed.

(** [ParseDump] does not tell the two line endings apart: a text whose
    lines end in a carriage return and a newline yields what the text of
    the same lines ended by a newline yields, as long as each line with
    its carriage return fits the scanner's buffer. *)
Theorem ParseDump_ignores_carriage_returns (ls : list string) :
  Forall scannableCRLF ls ->
  ParseDump (unlinesCRLF ls) = ParseDump (unlines ls).
Proof.
  intros H. unfold ParseDump.
  rewrite (Scan_unlinesCRLF _ H), Scan_unlines; [reflexivity|].
  eapply Forall_impl; [exact H|]. intros l [Hl _]. exact Hl.
Qed.

Lemma ParseDump_ignores_carriage_returns_witness :
  ParseDump (unlinesCRLF [ "goroutine 1 [running]:"; "main.main()";
                           String TAB "/src/main/main.go:12 +0x27"; "" ])
  = ParseDump (unlines [ "goroutine 1 [running]:"; "main.main()";
                         String TAB "/src/main/main.go:12 +0x27"; "" ]).
Proof.
  apply (ParseDump_ignores_carriage_returns
           [ "goroutine 1 [running]:"; "main.main()";
             String TAB "/src/main/main.go:12 +0x27"; "" ]).
  repeat (apply List.Forall_cons;
          [split; [split; [reflexivity | split; reflexivity] | reflexivity]|]).
  apply List.Forall_nil.
Defined.

(** ** Where the loop panics *)

(** A file line right after a header makes [ParseDump] panic when the
    flag [created] is clear, that is when no created-by line is left
    pending by the lines before the header: the routine has no frame yet,
    and the loop indexes its empty stack at -1.  This holds for every
    header read between routines with the flag clear, and whatever
    follows the file line.  (With the flag set there is no panic: the
    file line is recorded as the creator of the routine.) *)
Theorem file_line_right_after_header_panics
    (pre rest : list string) (st : pstate)
    (number state indent path digits offset : string) :
  steps initial pre = Continue st ->
  goroutine st = None -> created st = false ->
  isNumeral number -> isState state ->
  isIndent indent path -> isPath path -> isNumeral digits -> isOffset offset ->
  Forall scannable
    (pre ++ headerLine number state :: fileLine indent path digits offset :: rest) ->
  ParseDump (unlines (pre ++ headerLine number state
                          :: fileLine indent path digits offset :: rest))
  = inr tt.
Proof.
  intros Hpre Hg Hc Hnum Hs Hi Hp Hd Ho Hscan.
  rewrite (ParseDump_unlines _ Hscan), steps_app, Hpre. cbn [steps].
  rewrite (step_header_line st _ _ Hg (proj1 Hnum) Hs), (numberOf_Atoi _ Hnum).
  set (g := {| signature := sigOf state []; ID := numberOf number;
               First := Nat.eqb (length (goroutines st)) 0 |}).
  set (st1 := {| goroutines := goroutines st ++ [g];
                 goroutine := Some (length (goroutines st));
                 created := created st; out := out st |}).
  rewrite (step_file_line st1 (length (goroutines st)) g _ _ _ _ (numberOf digits)
             eq_refl (lookup_last _ g) Hi Hp (proj1 Hd) Ho (numberOf_Atoi _ Hd)).
  unfold st1. cbn [created]. rewrite Hc. reflexivity.
Qed.

Lemma file_line_right_after_header_panics_witness :
  ParseDump (unlines ([] ++ headerLine "1" "running"
                         :: fileLine (String TAB EmptyString) "/src/main/main.go" "12" " +0x27"
                         :: [ "main.main()" ]))
  = inr tt.
Proof.
  apply (file_line_right_after_header_panics [] [ "main.main()" ] initial
           "1" "running" (String TAB EmptyString) "/src/main/main.go" "12" " +0x27").
  - reflexivity.
  - reflexivity.
  - reflexivity.
  - split; [split; [discriminate | reflexivity] | vm_compute; discriminate].
  - split; [discriminate | reflexivity].
  - left. reflexivity.
  - right. exists "/src/main/main". split; [discriminate | split; reflexivity].
  - split; [split; [discriminate | reflexivity] | vm_compute; discriminate].
  - right. exists "27". split; [discriminate | split; reflexivity].
  - apply scannableb_correct. vm_compute. reflexivity.
Defined.

(** ** A created-by line without its file line *)

(** The flag that a created-by line sets is cleared by the next file
    line only, not by the end of the routine.  When a created-by line is
    followed by an empty line, the file line of the first frame of the
    next routine is taken for the creator's: the frame keeps an empty
    path and line 0, and the path and the line number are recorded as the
    creator of that routine, under an empty function name. *)
Theorem created_flag_outlives_the_routine
    (gs : list Goroutine) (g : Goroutine) (cr : bool) (w : list string)
    (creator number state : string) (f : frameText) :
  creator <> EmptyString -> Str.all any creator = true ->
  isNumeral number -> isState state ->
  wellFormedFrame f ->
  steps (inside gs g cr w)
        ([createdLine creator; EmptyString; headerLine number state] ++ frameLines f)
  = Continue
      (inside (gs ++ [setCreatedByFunc creator g])
              {| signature :=
                   {| State := state;
                      Stack := [frame (ftName f) "" 0 (ftArgs f)];
                      CreatedBy := frame "" (ftPath f) (numberOf (ftDigits f)) "" |};
                 ID := numberOf number; First := false |}
              false w).
Proof.
  intros Hne Hc Hnum Hs (Hn & Ha & Hi & Hp & Hd & Ho).
  cbn [app frameLines steps].
  rewrite (step_created_line (inside gs g cr w) (length gs) g _
             eq_refl (lookup_last gs g) Hne Hc).
  cbn [inside goroutines out]. rewrite alter_last.
  change (step {| goroutines := gs ++ [setCreatedByFunc creator g];
                  goroutine := Some (length gs); created := true; out := w |}
               EmptyString)
    with (Continue {| goroutines := gs ++ [setCreatedByFunc creator g];
                      goroutine := None; created := true; out := w |}).
  cbv iota.
  set (gs1 := gs ++ [setCreatedByFunc creator g]).
  set (st1 := {| goroutines := gs1; goroutine := None; created := true; out := w |}).
  rewrite (step_header_line st1 _ _ eq_refl (proj1 Hnum) Hs), (numberOf_Atoi _ Hnum).
  unfold st1. cbn [goroutines created out].
  assert (Hlen : Nat.eqb (length gs1) 0 = false).
  { unfold gs1. rewrite length_app. cbn [length]. apply Nat.eqb_neq. lia. }
  rewrite Hlen.
  set (g1 := {| signature := sigOf state []; ID := numberOf number; First := false |}).
  set (st2 := {| goroutines := gs1 ++ [g1]; goroutine := Some (length gs1);
                 created := true; out := w |}).
  rewrite (step_func_line st2 (length gs1) g1 _ _ eq_refl (lookup_last gs1 g1) Hn Ha).
  unfold st2. cbn [goroutines created out]. rewrite alter_last.
  set (g2 := setStack (Stack (signature g1) ++ [frame (ftName f) "" 0 (ftArgs f)]) g1).
  set (st3 := {| goroutines := gs1 ++ [g2]; goroutine := Some (length gs1);
                 created := true; out := w |}).
  rewrite (file_line_after_created_by st3 (length gs1) g2 _ _ _ _ (numberOf (ftDigits f))
             eq_refl (lookup_last gs1 g2) eq_refl Hi Hp (proj1 Hd) Ho
             (numberOf_Atoi _ Hd)).
  unfold st3. cbn [goroutines out]. rewrite alter_last. reflexivity.
Qed.

Lemma created_flag_outlives_the_routine_witness :
  steps (inside [] {| signature := sigOf "running" [frame "main.main" "" 0 ""];
                      ID := 1; First := true |} false [])
        ([createdLine "main.start"; EmptyString; headerLine "7" "chan receive"]
         ++ frameLines {| ftName := "main.worker"; ftArgs := "0x1";
                          ftIndent := String TAB EmptyString;
                          ftPath := "/gopath/src/main/work.go"; ftDigits := "30";
                          ftOffset := "" |})
  = Continue
      {| goroutines :=
           [ {| signature :=
                  {| State := "running"; Stack := [frame "main.main" "" 0 ""];
                     CreatedBy := frame "main.start" "" 0 "" |};
                ID := 1; First := true |};
             {| signature :=
                  {| State := "chan receive"; Stack := [frame "main.worker" "" 0 "0x1"];
                     CreatedBy := frame "" "/gopath/src/main/work.go" 30 "" |};
                ID := 7; First := false |} ];
         goroutine := Some 1%nat; created := false; out := [] |}.
Proof.
  apply (created_flag_outlives_the_routine []
           {| signature := sigOf "running" [frame "main.main" "" 0 ""];
              ID := 1; First := true |} false []
           "main.start" "7" "chan receive"
           {| ftName := "main.worker"; ftArgs := "0x1";
              ftIndent := String TAB EmptyString;
              ftPath := "/gopath/src/main/work.go"; ftDigits := "30";
              ftOffset := "" |}).
  - discriminate.
  - reflexivity.
  - split; [split; [discriminate | reflexivity] | vm_compute; discriminate].
  - split; [discriminate | reflexivity].
  - split; [split; [discriminate | repeat split; reflexivity]|].
    split; [split; reflexivity|]. split; [left; reflexivity|].
    split; [right; exists "/gopath/src/main/work";
            split; [discriminate | split; reflexivity]|].
    split; [split; [split; [discriminate | reflexivity] | vm_compute; discriminate]|].
    left. reflexivity.
Defined.

(** ** What the loop writes and which errors it returns *)

(** one iteration writes the line it reads or nothing, and returns no
    error but that of a file line whose number does not fit an [int] *)
Lemma step_cases (st : pstate) (line : string) :
  match step st line with
  | Continue st' => out st' = out st \/ out st' = out st ++ [withNL line]
  | Return gs e w =>
      w = out st /\ e = parseIntError line /\
      exists m, FindStringSubmatch reFile line = Some m /\
                strconv.Atoi (sub m 2) = None
  | Panic => True
  end.
Proof.
  destruct (step st line) as [st'|gs e w|] eqn:H; [| |exact I].
  - unfold step in H.
    repeat match type of H with
           | (if ?b then _ else _) = _ => destruct b eqn:?
           | match ?x with _ => _ end = _ => destruct x eqn:?
           end; try discriminate; inversion H; subst st'; cbn [out]; auto;
      destruct (goroutine st); auto.
  - unfold step in H.
    repeat match type of H with
           | (if ?b then _ else _) = _ => destruct b eqn:?
           | match ?x with _ => _ end = _ => destruct x eqn:?
           end; try discriminate; inversion H; subst.
    split; [reflexivity | split; [reflexivity | eauto]].
Qed.

Lemma steps_Continue_out (lines : list string) (st st' : pstate) :
  steps st lines = Continue st' ->
  exists kept, kept `sublist_of` lines /\ out st' = out st ++ map withNL kept.
Proof.
  revert st. induction lines as [|line rest IH]; intros st; cbn [steps].
  - intros [= <-]. exists []. rewrite app_nil_r. split; [constructor | reflexivity].
  - pose proof (step_cases st line) as Hc.
    destruct (step st line) as [st1| |]; try discriminate.
    intros H. destruct (IH _ H) as (kept & Hsub & Hout).
    destruct Hc as [Hc|Hc]; rewrite Hout, Hc.
    + exists kept. split; [apply sublist_cons; exact Hsub | reflexivity].
    + exists (line :: kept). split; [apply sublist_skip; exact Hsub|].
      rewrite <- app_assoc. reflexivity.
Qed.

Lemma steps_Return_out (lines : list string) (st : pstate) gs e w :
  steps st lines = Return gs e w ->
  (exists kept, kept `sublist_of` lines /\ w = out st ++ map withNL kept) /\
  exists line m, In line lines /\ e = parseIntError line /\
                 FindStringSubmatch reFile line = Some m /\
                 strconv.Atoi (sub m 2) = None.
Proof.
  revert st. induction lines as [|line rest IH]; intros st; cbn [steps]; [discriminate|].
  pose proof (step_cases st line) as Hc.
  destruct (step st line) as [st1|gs1 e1 w1|]; try discriminate.
  - intros H. destruct (IH _ H) as [(kept & Hsub & Hout) (l & m & Hin & He & Hm & Ha)].
    split.
    + destruct Hc as [Hc|Hc]; rewrite Hout, Hc.
      * exists kept. split; [apply sublist_cons; exact Hsub | reflexivity].
      * exists (line :: kept). split; [apply sublist_skip; exact Hsub|].
        rewrite <- app_assoc. reflexivity.
    + exists l, m. split; [right; exact Hin | auto].
  - intros [= -> -> ->]. destruct Hc as (-> & -> & m & Hm & Ha). split.
    + exists []. rewrite app_nil_r. split; [apply sublist_nil_l | reflexivity].
    + exists line, m. split; [left; reflexivity | auto].
Qed.

(** Whatever the input, when [ParseDump] returns, what it has written
    to the auxiliary writer is a selection of the scanned lines, in the
    order of the input, each written once and followed by a newline:
    no line is written twice, reordered or altered. *)
Theorem ParseDump_writes_a_selection_of_the_lines (r : string) gs e w :
  ParseDump r = inl (gs, e, w) ->
  exists kept, kept `sublist_of` fst (bufio.Scan r) /\ w = map withNL kept.
Proof.
  rewrite ParseDump_steps.
  destruct (steps initial (fst (bufio.Scan r))) as [st|gs1 e1 w1|] eqn:E;
    cbn [finish]; [| |discriminate].
  - intros [= <- <- <-]. apply steps_Continue_out in E as (kept & Hsub & Hout).
    exists kept. auto.
  - intros [= <- <- <-]. apply steps_Return_out in E as [(kept & Hsub & Hout) _].
    exists kept. auto.
Qed.

Lemma ParseDump_writes_a_selection_of_the_lines_witness :
  exists kept,
    kept `sublist_of` fst (bufio.Scan overflowingDump) /\
    [withNL "panic: reflect.Set: value of type"; withNL ""] = map withNL kept.
Proof.
  apply (ParseDump_writes_a_selection_of_the_lines overflowingDump
           [ {| signature :=
                  sigOf "running"
                        [frame "github.com/maruel/panicparse/stack/stack.recurseType"
                               "" 0 ""];
                ID := 1; First := true |} ]
           (Some (parseIntError
                    (String TAB
                       "/gopath/src/github.com/maruel/panicparse/stack/stack.go:12345678901234567890")))
           [withNL "panic: reflect.Set: value of type"; withNL ""]).
  vm_compute. reflexivity.
Defined.

(** When the reader delivers its bytes without an error of its own,
    which is the reader this development models, [ParseDump] returns two
    kinds of error only: [ErrTooLong], when the scanner stopped at a line
    that does not fit its buffer, and the error that quotes a scanned
    line which [reFile] matches and whose line number does not fit an
    [int].  (An error of the reader itself, which [scanner.Err()] hands
    on as well, is outside this statement.) *)
Theorem errors_when_the_reader_does_not_fail (r : string) gs (e : error) w :
  ParseDump r = inl (gs, Some e, w) ->
  (e = ErrTooLong /\ snd (bufio.Scan r) = true) \/
  exists line m,
    In line (fst (bufio.Scan r)) /\ e = parseIntError line /\
    FindStringSubmatch reFile line = Some m /\ strconv.Atoi (sub m 2) = None.
Proof.
  rewrite ParseDump_steps.
  destruct (steps initial (fst (bufio.Scan r))) as [st|gs1 e1 w1|] eqn:E;
    cbn [finish]; [| |discriminate].
  - destruct (snd (bufio.Scan r)); [|discriminate].
    intros [= _ <- _]. left. auto.
  - intros [= _ <- _]. right. apply steps_Return_out in E as [_ H]. exact H.
Qed.

Lemma errors_when_the_reader_does_not_fail_witness :
  (ErrTooLong = ErrTooLong /\ snd (bufio.Scan oversizedBlank) = true) \/
  exists line m,
    In line (fst (bufio.Scan oversizedBlank)) /\ ErrTooLong = parseIntError line /\
    FindStringSubmatch reFile line = Some m /\ strconv.Atoi (sub m 2) = None.
Proof.
  apply (errors_when_the_reader_does_not_fail oversizedBlank [] ErrTooLong []).
  vm_compute. reflexivity.
Defined.

(** ** Paths *)

Lemma split_not_nil (s : string) : filepath.split s <> [].
Proof.
  induction s as [|c s IH]; cbn [filepath.split]; [discriminate|].
  destruct (filepath.isSep c); [discriminate|].
  destruct (filepath.split s); discriminate.
Qed.

Lemma split_sep (x y : string) :
  filepath.split (x +:+ String "/" y) = filepath.split x ++ filepath.split y.
Proof.
  induction x as [|c x IH].
  - reflexivity.
  - rewrite append_cons. cbn [filepath.split]. rewrite IH.
    destruct (filepath.isSep c); [reflexivity|].
    destruct (filepath.split x) as [|e es] eqn:E; [exfalso; exact (split_not_nil _ E)|].
    reflexivity.
Qed.

Lemma split_noSep (e : string) : noSep e = true -> filepath.split e = [e].
Proof.
  unfold noSep. induction e as [|c e IH]; [reflexivity|].
  cbn [Str.all filepath.split]. intros H. apply andb_prop in H as [Hc He].
  apply negb_true_iff in Hc. rewrite Hc, (IH He). reflexivity.
Qed.

Lemma split_elements (s : string) : Forall (fun e => noSep e = true) (filepath.split s).
Proof.
  induction s as [|c s IH]; cbn [filepath.split].
  - repeat constructor.
  - destruct (filepath.isSep c) eqn:Hc; [constructor; [reflexivity | exact IH]|].
    destruct (filepath.split s) as [|e es]; [repeat constructor; unfold noSep; simpl;
                                             rewrite Hc; reflexivity|].
    apply Forall_cons in IH as [He Hes]. constructor; [|exact Hes].
    unfold noSep in *. cbn [Str.all]. rewrite Hc, He. reflexivity.
Qed.

Lemma append_not_empty_r (x e : string) : e <> EmptyString -> x +:+ e <> EmptyString.
Proof. destruct x; [rewrite append_nil_l; auto | discriminate]. Qed.

(** a path that ends in a name has no trailing separator to strip *)
Lemma stripTrailing_keep (x e : string) :
  e <> EmptyString -> noSep e = true -> filepath.stripTrailing (x +:+ e) = x +:+ e.
Proof.
  intros Hne He. induction x as [|c x IH].
  - rewrite append_nil_l. clear Hne. unfold noSep in He.
    induction e as [|c e IH]; [reflexivity|].
    cbn [Str.all] in He. apply andb_prop in He as [Hc He]. apply negb_true_iff in Hc.
    cbn [filepath.stripTrailing]. rewrite (IH He), Hc. destruct e; reflexivity.
  - rewrite append_cons. cbn [filepath.stripTrailing]. rewrite IH.
    destruct (x +:+ e) eqn:E; [exfalso; exact (append_not_empty_r x e Hne E)|].
    reflexivity.
Qed.

(** [Base] of a path that ends in a name is that name. *)
Lemma Base_of_element (d e : string) :
  isDirPrefix d -> e <> EmptyString -> noSep e = true ->
  filepath.Base (d +:+ e) = e.
Proof.
  intros Hd Hne He. unfold filepath.Base.
  assert (H0 : String.eqb (d +:+ e) EmptyString = false).
  { apply String.eqb_neq. apply append_not_empty_r. exact Hne. }
  rewrite H0, (stripTrailing_keep _ _ Hne He).
  assert (Hlast : List.last (filepath.split (d +:+ e)) EmptyString = e).
  { destruct Hd as [->|[d' ->]].
    - rewrite append_nil_l, (split_noSep _ He). reflexivity.
    - rewrite append_assoc. change ("/" +:+ e) with (String "/" e).
      rewrite split_sep, (split_noSep _ He). apply last_last. }
  rewrite Hlast. apply String.eqb_neq in Hne. rewrite Hne. reflexivity.
Qed.

(** ** [Function.Name], [Call.SourceName] and [Call.PkgSource] *)

Lemma cutDot_first_dot (a b : string) :
  noDot a = true -> strings.cutDot (a +:+ String "." b) = Some (a, b).
Proof.
  unfold noDot. induction a as [|c a IH]; [reflexivity|].
  cbn [Str.all]. intros H. apply andb_prop in H as [Hc Ha]. apply negb_true_iff in Hc.
  rewrite append_cons. cbn [strings.cutDot]. rewrite Hc, (IH Ha). reflexivity.
Qed.

Lemma cutDot_None (s : string) : strings.cutDot s = None <-> noDot s = true.
Proof.
  unfold noDot. induction s as [|c s IH]; cbn [strings.cutDot Str.all]; [tauto|].
  destruct (Ascii.eqb c ".").
  - split; discriminate.
  - cbn [negb andb]. rewrite <- IH. destruct (strings.cutDot s) as [[a b]|].
    + split; discriminate.
    + tauto.
Qed.

(** [Name] is what follows the first dot of the last element of the
    symbol: for a symbol made of a directory prefix, a package name
    without a dot and the rest, it is the rest, dots included. *)
Theorem Name_of_qualified_symbol (dir pkg name : string) :
  isDirPrefix dir -> noSep pkg = true -> noDot pkg = true -> noSep name = true ->
  Name {| Raw := dir +:+ pkg +:+ String "." name |} = Some name.
Proof.
  intros Hd Hs Hp Hn. apply (Name_with_dot _ pkg name). cbn [Raw].
  rewrite Base_of_element.
  - apply cutDot_first_dot. exact Hp.
  - exact Hd.
  - destruct pkg; discriminate.
  - unfold noSep in *. rewrite all_append, Hs. cbn [Str.all]. rewrite Hn. reflexivity.
Qed.

Lemma Name_of_qualified_symbol_witness :
  Name {| Raw := "github.com/maruel/panicparse/" +:+ "stack"
                 +:+ String "." ("(" +:+ "*Signature).Less") |}
  = Some ("(" +:+ "*Signature).Less").
Proof.
  apply (Name_of_qualified_symbol "github.com/maruel/panicparse/" "stack"
           ("(" +:+ "*Signature).Less")).
  - right. exists "github.com/maruel/panicparse". reflexivity.
  - reflexivity.
  - reflexivity.
  - reflexivity.
Defined.

(** [Name] panics exactly on the symbols whose last element holds no
    dot. *)
Theorem Name_panics_iff_no_dot (f : Function) :
  Name f = None <-> noDot (filepath.Base (Raw f)) = true.
Proof.
  rewrite <- cutDot_None. unfold Name, strings.SplitN_dot_2.
  destruct (strings.cutDot (filepath.Base (Raw f))) as [[a b]|]; simpl.
  - split; discriminate.
  - tauto.
Qed.

Lemma join_snoc (l : list string) (x : string) :
  l <> [] -> filepath.join (l ++ [x]) = filepath.join l +:+ "/" +:+ x.
Proof.
  induction l as [|e l IH]; [congruence|]. intros _.
  destruct l as [|e' l].
  - reflexivity.
  - change (filepath.join ((e :: e' :: l) ++ [x]))
      with (e +:+ "/" +:+ filepath.join ((e' :: l) ++ [x])).
    rewrite IH by discriminate.
    change (filepath.join (e :: e' :: l)) with (e +:+ "/" +:+ filepath.join (e' :: l)).
    rewrite !append_assoc. reflexivity.
Qed.

Lemma join_ends_with (l : list string) (x : string) :
  exists pre, isDirPrefix pre /\ filepath.join (l ++ [x]) = pre +:+ x.
Proof.
  destruct l as [|e l].
  - exists EmptyString. split; [left; reflexivity | reflexivity].
  - exists (filepath.join (e :: l) +:+ "/"). split; [right; eauto|].
    rewrite join_snoc by discriminate. rewrite append_assoc. reflexivity.
Qed.

Lemma push_element (rooted : bool) (kept : list string) (e : string) :
  isElement e -> filepath.push rooted kept e = e :: kept.
Proof.
  intros (H0 & _ & H1 & H2). unfold filepath.push.
  apply String.eqb_neq in H0, H1, H2. rewrite H0, H1, H2. reflexivity.
Qed.

Lemma push_empty (rooted : bool) (kept : list string) :
  filepath.push rooted kept EmptyString = kept.
Proof. reflexivity. Qed.

(** the text of the elements, a separator after each, splits back into
    them and one empty element *)
Lemma split_fold (es : list string) :
  Forall (fun e => noSep e = true) es ->
  filepath.split (fold_right (fun e acc => e +:+ "/" +:+ acc) EmptyString es)
  = es ++ [EmptyString].
Proof.
  induction 1 as [|e es He Hes IH]; [reflexivity|].
  cbn [fold_right].
  change ("/" +:+ fold_right (fun e acc => e +:+ "/" +:+ acc) EmptyString es)
    with (String "/" (fold_right (fun e acc => e +:+ "/" +:+ acc) EmptyString es)).
  rewrite split_sep, (split_noSep _ He), IH. reflexivity.
Qed.

Lemma isElement_not_rooted (e rest : string) :
  isElement e ->
  match e +:+ rest with String c _ => filepath.isSep c | EmptyString => false end = false.
Proof.
  intros (H0 & Hs & _). destruct e as [|c e]; [congruence|].
  rewrite append_cons. unfold noSep in Hs. cbn [Str.all] in Hs.
  apply andb_prop in Hs as [Hc _]. apply negb_true_iff in Hc. exact Hc.
Qed.

(** [Clean] of a path whose last element is a name ends in that name *)
Lemma Clean_ends_with (es : list string) (parent : string) :
  Forall (fun e => noSep e = true) es -> isElement parent ->
  exists pre,
    isDirPrefix pre /\
    filepath.Clean (fold_right (fun e acc => e +:+ "/" +:+ acc) EmptyString
                               (es ++ [parent]))
    = pre +:+ parent.
Proof.
  intros Hes Hp. unfold filepath.Clean.
  rewrite split_fold
    by (apply Forall_app; split; [exact Hes | repeat constructor; apply Hp]).
  rewrite <- app_assoc, !fold_left_app. cbn [fold_left].
  rewrite (push_element _ _ _ Hp), push_empty. cbn [rev].
  destruct (join_ends_with
              (rev (fold_left (filepath.push
                                 match fold_right (fun e acc => e +:+ "/" +:+ acc)
                                                  EmptyString (es ++ [parent]) with
                                 | String c _ => filepath.isSep c
                                 | EmptyString => false
                                 end) es []))
              parent) as (pre & Hpre & Hj).
  rewrite Hj.
  destruct (match fold_right (fun e acc => e +:+ "/" +:+ acc) EmptyString
                             (es ++ [parent]) with
            | String c _ => filepath.isSep c
            | EmptyString => false
            end).
  - exists ("/" +:+ pre). split; [|rewrite append_assoc; reflexivity].
    destruct Hpre as [->|[d' ->]]; right.
    + exists EmptyString. reflexivity.
    + exists ("/" +:+ d'). rewrite append_assoc. reflexivity.
  - exists pre. split; [exact Hpre|].
    assert (Hne : String.eqb (pre +:+ parent) EmptyString = false).
    { apply String.eqb_neq, append_not_empty_r, Hp. }
    rewrite Hne. reflexivity.
Qed.

Lemma Join_elements (parent file : string) :
  isElement parent -> isElement file ->
  filepath.Join parent file = parent +:+ "/" +:+ file.
Proof.
  intros Hp Hf. unfold filepath.Join.
  assert (H0 : String.eqb parent EmptyString = false)
    by (apply String.eqb_neq, Hp).
  rewrite H0. cbn [negb]. unfold filepath.Clean.
  rewrite (isElement_not_rooted _ _ Hp).
  change ("/" +:+ file) with (String "/" file).
  rewrite split_sep, (split_noSep parent), (split_noSep file) by (apply Hp || apply Hf).
  cbn [app fold_left]. rewrite (push_element _ _ _ Hp), (push_element _ _ _ Hf).
  cbn [rev app filepath.join].
  assert (Hne : String.eqb (parent +:+ "/" +:+ file) EmptyString = false).
  { apply String.eqb_neq. destruct parent; [destruct Hp; congruence | discriminate]. }
  rewrite Hne. reflexivity.
Qed.

Lemma Dir_ends_with (dir parent file : string) :
  isDirPrefix dir -> isElement parent -> isElement file ->
  exists pre, isDirPrefix pre /\
              filepath.Dir (dir +:+ parent +:+ String "/" file) = pre +:+ parent.
Proof.
  intros Hd Hp Hf. unfold filepath.Dir.
  assert (Hsplit : exists es, Forall (fun e => noSep e = true) es /\
                     filepath.split (dir +:+ parent +:+ String "/" file)
                     = (es ++ [parent]) ++ [file]).
  { destruct Hd as [->|[d' ->]].
    - exists []. split; [constructor|].
      rewrite append_nil_l, split_sep, !split_noSep by (apply Hp || apply Hf).
      reflexivity.
    - exists (filepath.split d'). split; [apply split_elements|].
      rewrite append_assoc. change ("/" +:+ parent +:+ String "/" file)
        with (String "/" (parent +:+ String "/" file)).
      rewrite !split_sep, (split_noSep parent), (split_noSep file)
        by (apply Hp || apply Hf).
      rewrite app_assoc. reflexivity. }
  destruct Hsplit as (es & Hes & ->). rewrite removelast_last.
  apply Clean_ends_with; assumption.
Qed.

(** [SourceName] is the last element of the source path and [PkgSource]
    its last two elements, the directory and the file name, whatever
    stands before them. *)
Theorem PkgSource_is_the_last_two_elements (c : Call) (dir parent file : string) :
  SourcePath c = dir +:+ parent +:+ String "/" file ->
  isDirPrefix dir -> isElement parent -> isElement file ->
  SourceName c = file /\ PkgSource c = parent +:+ String "/" file.
Proof.
  intros Hc Hd Hp Hf.
  assert (Hbase : filepath.Base (SourcePath c) = file).
  { rewrite Hc.
    replace (dir +:+ parent +:+ String "/" file) with ((dir +:+ parent +:+ "/") +:+ file)
      by (rewrite !append_assoc; reflexivity).
    apply Base_of_element; [|apply Hf|apply Hf].
    right. exists (dir +:+ parent). rewrite append_assoc. reflexivity. }
  unfold PkgSource, SourceName. rewrite Hbase. split; [reflexivity|].
  rewrite Hc. destruct (Dir_ends_with dir parent file Hd Hp Hf) as (pre & Hpre & ->).
  rewrite (Base_of_element pre parent Hpre) by apply Hp.
  apply Join_elements; assumption.
Qed.

Lemma PkgSource_is_the_last_two_elements_witness :
  SourceName (frame "main.main" "/gopath/src/github.com/foo/bar/baz.go" 12 "") = "baz.go" /\
  PkgSource (frame "main.main" "/gopath/src/github.com/foo/bar/baz.go" 12 "")
  = "bar" +:+ String "/" "baz.go".
Proof.
  apply (PkgSource_is_the_last_two_elements
           (frame "main.main" "/gopath/src/github.com/foo/bar/baz.go" 12 "")
           "/gopath/src/github.com/foo/" "bar" "baz.go").
  - reflexivity.
  - right. exists "/gopath/src/github.com/foo". reflexivity.
  - repeat split; (reflexivity || discriminate).
  - repeat split; (reflexivity || discriminate).
Defined.

(** ** Routines that are closed *)

Lemma step_closed (n : nat) (st st' : pstate) (line : string) :
  step st line = Continue st' -> pointsToLast st -> closed n st ->
  closed n st' /\ take n (goroutines st') = take n (goroutines st).
Proof.
  unfold step. intros H HP [Hlen Hptr].
  repeat match type of H with
         | (if ?b then _ else _) = _ => destruct b eqn:?
         | match ?x with _ => _ end = _ => destruct x eqn:?
         end; try discriminate; inversion H; subst st'; clear H;
    unfold closed; cbn [goroutines goroutine];
    rewrite ?length_alter, ?length_app; cbn [length];
    (split; [split; [lia | intros ? [=]; subst; eauto; lia]|]);
    rewrite ?take_alter_ge by eauto; rewrite ?take_app_le by lia; reflexivity.
Qed.

Lemma steps_closed (n : nat) (lines : list string) (st st' : pstate) :
  steps st lines = Continue st' ->
  pointsToLast st /\ firstOnlyAtHead (goroutines st) -> closed n st ->
  take n (goroutines st') = take n (goroutines st).
Proof.
  revert st. induction lines as [|line rest IH]; intros st; cbn [steps].
  - intros [= <-]. reflexivity.
  - destruct (step st line) as [st1| |] eqn:E; try discriminate.
    intros H Hinv Hc.
    destruct (step_closed n _ _ _ E (proj1 Hinv) Hc) as [Hc1 Ht1].
    rewrite <- Ht1. apply IH; [exact H | | exact Hc1].
    eapply step_invariant; eassumption.
Qed.

Lemma steps_snoc_empty (l1 : list string) (st : pstate) :
  steps initial (l1 ++ [EmptyString]) = Continue st -> goroutine st = None.
Proof.
  rewrite steps_app. destruct (steps initial l1) as [s0| |]; try discriminate.
  cbn [steps]. change (step s0 EmptyString) with
    (Continue {| goroutines := goroutines s0; goroutine := None;
                 created := created s0;
                 out := match goroutine s0 with
                        | None => out s0 ++ [withNL EmptyString]
                        | Some _ => out s0
                        end |}).
  intros [= <-]. reflexivity.
Qed.

(** What has been read up to an empty line is final.  The routines and
    the output that [ParseDump] returns for lines ended by an empty line
    are a prefix of the routines and of the output it returns when more
    lines follow, whatever these are, and also when they end in an
    error. *)
Theorem routines_read_before_an_empty_line_are_final
    (l1 l2 : list string) gs1 w1 gs2 e w2 :
  Forall scannable (l1 ++ EmptyString :: l2) ->
  ParseDump (unlines (l1 ++ [EmptyString])) = inl (gs1, None, w1) ->
  ParseDump (unlines (l1 ++ EmptyString :: l2)) = inl (gs2, e, w2) ->
  gs1 `prefix_of` gs2 /\ w1 `prefix_of` w2.
Proof.
  intros Hscan H1 H2.
  assert (Hscan1 : Forall scannable (l1 ++ [EmptyString])).
  { apply Forall_app in Hscan as [Ha Hb]. apply Forall_cons in Hb as [Hb _].
    apply Forall_app. split; [exact Ha | repeat constructor; apply Hb]. }
  rewrite (ParseDump_unlines _ Hscan1) in H1.
  rewrite (ParseDump_unlines _ Hscan) in H2.
  replace (l1 ++ EmptyString :: l2) with ((l1 ++ [EmptyString]) ++ l2) in H2
    by (rewrite <- app_assoc; reflexivity).
  rewrite steps_app in H2.
  destruct (steps initial (l1 ++ [EmptyString])) as [st1|? ? ?|] eqn:E1;
    cbn [finish] in H1; try discriminate.
  injection H1 as <- <-.
  pose proof (steps_snoc_empty _ _ E1) as Hnil.
  pose proof (steps_invariant _ _ _ E1 initial_invariant) as Hinv.
  assert (Hc : closed (length (goroutines st1)) st1).
  { split; [lia | intros p Hp; congruence]. }
  assert (Hgoal : forall st2, steps st1 l2 = Continue st2 ->
            goroutines st1 `prefix_of` goroutines st2 /\ out st1 `prefix_of` out st2).
  { intros st2 E2. split.
    - pose proof (steps_closed _ _ _ _ E2 Hinv Hc) as Ht.
      rewrite firstn_all in Ht. rewrite <- Ht. apply prefix_take.
    - apply steps_Continue_out in E2 as (kept & _ & ->). eexists. reflexivity. }
  destruct (steps st1 l2) as [st2|gs e' w|] eqn:E2; cbn [finish] in H2; try discriminate.
  - injection H2 as <- _ <-. apply Hgoal. reflexivity.
  - injection H2 as <- _ <-.
    apply steps_Return in E2 as (pre & st' & Hpre & -> & ->).
    pose proof (steps_closed _ _ _ _ Hpre Hinv Hc) as Ht.
    split.
    + rewrite firstn_all in Ht. rewrite <- Ht. apply prefix_take.
    + apply steps_Continue_out in Hpre as (kept & _ & ->). eexists. reflexivity.
Qed.

Lemma routines_read_before_an_empty_line_are_final_witness :
  [ {| signature := sigOf "running" [frame "main.main" "" 0 ""];
       ID := 1; First := true |} ]
  `prefix_of`
  [ {| signature := sigOf "running" [frame "main.main" "" 0 ""];
       ID := 1; First := true |};
    {| signature := sigOf "select" []; ID := 2; First := false |} ]
  /\ [withNL "junk"] `prefix_of` [withNL "junk"; withNL "more junk"].
Proof.
  apply (routines_read_before_an_empty_line_are_final
           [ "junk"; "goroutine 1 [running]:"; "main.main()" ]
           [ "more junk"; "goroutine 2 [select]:" ]
           [ {| signature := sigOf "running" [frame "main.main" "" 0 ""];
                ID := 1; First := true |} ]
           [withNL "junk"]
           [ {| signature := sigOf "running" [frame "main.main" "" 0 ""];
                ID := 1; First := true |};
             {| signature := sigOf "select" []; ID := 2; First := false |} ]
           None
           [withNL "junk"; withNL "more junk"]).
  - apply scannableb_correct. vm_compute. reflexivity.
  - vm_compute. reflexivity.
  - vm_compute. reflexivity.
Defined.

(** ** The only panic *)

Lemma step_Panic (st : pstate) (line : string) :
  step st line = Panic -> pointsToLast st ->
  exists p g m,
    goroutine st = Some p /\ goroutines st !! p = Some g /\
    Stack (signature g) = [] /\ created st = false /\
    FindStringSubmatch reFile line = Some m.
Proof.
  unfold step. intros H HP.
  repeat match type of H with
         | (if ?b then _ else _) = _ => destruct b eqn:?
         | match ?x with _ => _ end = _ => destruct x eqn:?
         end; try discriminate.
  - match goal with
    | Hg : goroutine st = Some ?p, Hl : goroutines st !! ?p = Some ?g,
      Hm : FindStringSubmatch reFile line = Some ?m |- _ =>
        exists p, g, m; repeat split; try assumption
    end.
    destruct (Stack (signature g)); [reflexivity | discriminate].
  - exfalso.
    match goal with
    | Hg : goroutine st = Some ?p, Hl : goroutines st !! ?p = None |- _ =>
        pose proof (HP _ Hg); apply lookup_ge_None in Hl; lia
    end.
Qed.

Lemma steps_Panic (lines : list string) (st : pstate) :
  steps st lines = Panic ->
  pointsToLast st /\ firstOnlyAtHead (goroutines st) ->
  exists pre line rest st',
    lines = pre ++ line :: rest /\ steps st pre = Continue st' /\
    step st' line = Panic /\ pointsToLast st'.
Proof.
  revert st. induction lines as [|line rest IH]; intros st; cbn [steps]; [discriminate|].
  destruct (step st line) as [st1| |] eqn:E; try discriminate.
  - intros H Hinv.
    destruct (IH _ H (step_invariant _ _ _ E Hinv))
      as (pre & l & r & st' & -> & Hpre & Hl & Hinv').
    exists (line :: pre), l, r, st'. cbn [steps app]. rewrite E. auto.
  - intros _ Hinv. exists [], line, rest, st. cbn [steps app]. split; [reflexivity|].
    split; [reflexivity|]. split; [exact E | apply Hinv].
Qed.

(** [ParseDump] panics in one situation only: the lines before some
    line are read without error, they leave a routine in progress that
    has no frame yet and no created-by line pending, and the line is one
    that [reFile] matches. *)
Theorem ParseDump_panics_only_on_a_file_line_without_frame (r : string) :
  ParseDump r = inr tt ->
  exists pre line rest st p g m,
    fst (bufio.Scan r) = pre ++ line :: rest /\
    steps initial pre = Continue st /\
    goroutine st = Some p /\ goroutines st !! p = Some g /\
    Stack (signature g) = [] /\ created st = false /\
    FindStringSubmatch reFile line = Some m.
Proof.
  rewrite ParseDump_steps.
  destruct (steps initial (fst (bufio.Scan r))) as [st|? ? ?|] eqn:E;
    cbn [finish]; try discriminate.
  intros _. apply steps_Panic in E as (pre & line & rest & st' & Hl & Hpre & Hp & Hinv);
    [|exact initial_invariant].
  apply step_Panic in Hp as (p & g & m & H); [|exact Hinv].
  exists pre, line, rest, st', p, g, m. auto.
Qed.

Lemma ParseDump_panics_only_on_a_file_line_without_frame_witness :
  exists pre line rest st p g m,
    fst (bufio.Scan (unlines [ "goroutine 1 [running]:";
                               String TAB "/src/main/main.go:12 +0x27" ]))
    = pre ++ line :: rest /\
    steps initial pre = Continue st /\
    goroutine st = Some p /\ goroutines st !! p = Some g /\
    Stack (signature g) = [] /\ created st = false /\
    FindStringSubmatch reFile line = Some m.
Proof.
  apply (ParseDump_panics_only_on_a_file_line_without_frame
           (unlines [ "goroutine 1 [running]:";
                      String TAB "/src/main/main.go:12 +0x27" ])).
  vm_compute. reflexivity.
Defined.

(** ** Symbols with escaped bytes *)

Lemma unescape_plain (a b : string) :
  plain a = true ->
  url.unescape (a +:+ b) = option_map (fun t => a +:+ t) (url.unescape b).
Proof.
  unfold plain. induction a as [|c a IH]; intros H.
  - rewrite append_nil_l. destruct (url.unescape b); reflexivity.
  - cbn [Str.all] in H. apply andb_prop in H as [Hc Ha].
    apply andb_prop in Hc as [H1 H2]. apply negb_true_iff in H1, H2.
    rewrite append_cons. cbn [url.unescape]. rewrite H1, H2, (IH Ha).
    destruct (url.unescape b); reflexivity.
Qed.

Lemma unescape_escapeDots (pkg b : string) :
  plain pkg = true ->
  url.unescape (escapeDots pkg +:+ b)
  = option_map (fun t => pkg +:+ t) (url.unescape b).
Proof.
  unfold plain. induction pkg as [|c pkg IH]; intros H.
  - cbn [escapeDots]. rewrite append_nil_l. destruct (url.unescape b); reflexivity.
  - cbn [Str.all] in H. apply andb_prop in H as [Hc Ha].
    apply andb_prop in Hc as [H1 H2]. apply negb_true_iff in H1, H2.
    cbn [escapeDots]. destruct (Ascii.eqb_spec c ".") as [->|Hne].
    + rewrite append_assoc.
      change ("%2e" +:+ escapeDots pkg +:+ b)
        with (String "%" (String "2" (String "e" (escapeDots pkg +:+ b)))).
      cbn [url.unescape]. change (Ascii.eqb "%" "%") with true. cbv iota.
      change (url.ishex "2" && url.ishex "e") with true. cbv iota.
      rewrite (IH Ha). destruct (url.unescape b); reflexivity.
    + rewrite append_cons. cbn [url.unescape]. rewrite H1, H2, (IH Ha).
      destruct (url.unescape b); reflexivity.
Qed.

Lemma escapeDots_noDot (pkg : string) : noDot (escapeDots pkg) = true.
Proof.
  unfold noDot. induction pkg as [|c pkg IH]; [reflexivity|].
  cbn [escapeDots]. destruct (Ascii.eqb c ".") eqn:E.
  - rewrite all_append, IH. reflexivity.
  - cbn [Str.all]. rewrite E, IH. reflexivity.
Qed.

Lemma escapeDots_noSep (pkg : string) : noSep pkg = true -> noSep (escapeDots pkg) = true.
Proof.
  unfold noSep. induction pkg as [|c pkg IH]; [reflexivity|].
  cbn [Str.all escapeDots]. intros H. apply andb_prop in H as [Hc Hp].
  destruct (Ascii.eqb c ".").
  - rewrite all_append, (IH Hp). reflexivity.
  - cbn [Str.all]. rewrite Hc, (IH Hp). reflexivity.
Qed.

Lemma Base_of_symbol (dir pkg name : string) :
  isDirPrefix dir -> noSep pkg = true -> noSep name = true ->
  filepath.Base (dir +:+ escapeDots pkg +:+ String "." name)
  = escapeDots pkg +:+ String "." name.
Proof.
  intros Hd Hp Hn. apply Base_of_element; [exact Hd | |].
  - destruct (escapeDots pkg); discriminate.
  - unfold noSep in *. rewrite all_append. fold (noSep (escapeDots pkg)).
    rewrite (escapeDots_noSep _ Hp). cbn [Str.all]. rewrite Hn. reflexivity.
Qed.

(** The accessors take an encoded symbol apart.  For a symbol made of a
    directory prefix, a package name whose dots are written [%2e], a dot
    and the name of the function, [PkgName] is the package name with its
    dots, [Name] the name of the function, [PkgDotName] the two with a
    dot between them, and [IsPkgMain] tells whether the package name is
    [main]. *)
Theorem accessors_take_an_encoded_symbol_apart
    (c : Call) (dir pkg name : string) :
  Raw (Func c) = dir +:+ escapeDots pkg +:+ String "." name ->
  isDirPrefix dir ->
  pkg <> EmptyString -> noSep pkg = true -> plain pkg = true ->
  noSep name = true ->
  PkgName (Func c) = pkg /\
  Name (Func c) = Some name /\
  PkgDotName (Func c) = Some (pkg +:+ "." +:+ name) /\
  IsPkgMain c = String.eqb pkg "main".
Proof.
  intros Hraw Hd Hne Hs Hp Hn.
  assert (Hparts : strings.SplitN_dot_2 (filepath.Base (Raw (Func c)))
                   = [escapeDots pkg; name]).
  { rewrite Hraw, (Base_of_symbol _ _ _ Hd Hs Hn). unfold strings.SplitN_dot_2.
    rewrite (cutDot_first_dot _ _ (escapeDots_noDot pkg)). reflexivity. }
  assert (Hun : url.QueryUnescape (escapeDots pkg) = Some pkg).
  { unfold url.QueryUnescape. rewrite <- (append_nil_r (escapeDots pkg)).
    rewrite (unescape_escapeDots _ _ Hp). cbn [url.unescape option_map].
    rewrite append_nil_r. reflexivity. }
  assert (Hpkg : PkgName (Func c) = pkg).
  { unfold PkgName. rewrite Hparts, Hun. reflexivity. }
  split; [exact Hpkg|]. split; [|split].
  - unfold Name. rewrite Hparts. reflexivity.
  - unfold PkgDotName. rewrite Hparts, Hun. cbv zeta. cbn [default]. unfold id.
    apply String.eqb_neq in Hne. rewrite Hne. reflexivity.
  - unfold IsPkgMain. rewrite Hpkg. reflexivity.
Qed.

Lemma accessors_take_an_encoded_symbol_apart_witness :
  PkgName (Func (frame "gopkg.in/yaml%2ev2.Unmarshal" "" 0 "")) = "yaml.v2" /\
  Name (Func (frame "gopkg.in/yaml%2ev2.Unmarshal" "" 0 "")) = Some "Unmarshal" /\
  PkgDotName (Func (frame "gopkg.in/yaml%2ev2.Unmarshal" "" 0 ""))
  = Some ("yaml.v2" +:+ "." +:+ "Unmarshal") /\
  IsPkgMain (frame "gopkg.in/yaml%2ev2.Unmarshal" "" 0 "") = String.eqb "yaml.v2" "main".
Proof.
  apply (accessors_take_an_encoded_symbol_apart
           (frame "gopkg.in/yaml%2ev2.Unmarshal" "" 0 "")
           "gopkg.in/" "yaml.v2" "Unmarshal").
  - reflexivity.
  - right. exists "gopkg.in". reflexivity.
  - discriminate.
  - reflexivity.
  - reflexivity.
  - reflexivity.
Defined.

(** [String] undoes the encoding of the symbol: where the directory
    prefix and the name of the function hold no escaped byte, it is the
    symbol with the dots of the package name put back. *)
Theorem String_decodes_the_symbol (f : Function) (dir pkg name : string) :
  Raw f = dir +:+ escapeDots pkg +:+ String "." name ->
  plain dir = true -> plain pkg = true -> plain name = true ->
  Function_String f = dir +:+ pkg +:+ String "." name.
Proof.
  intros Hraw Hd Hp Hn. unfold Function_String, url.QueryUnescape.
  rewrite Hraw, (unescape_plain _ _ Hd), (unescape_escapeDots _ _ Hp).
  rewrite <- (append_nil_r (String "." name)), unescape_plain.
  - cbn [url.unescape option_map default]. rewrite !append_nil_r. reflexivity.
  - unfold plain in *. cbn [Str.all]. rewrite Hn. reflexivity.
Qed.

Lemma String_decodes_the_symbol_witness :
  Function_String {| Raw := "gopkg.in/yaml%2ev2.Unmarshal" |}
  = "gopkg.in/" +:+ "yaml.v2" +:+ String "." "Unmarshal".
Proof.
  apply (String_decodes_the_symbol {| Raw := "gopkg.in/yaml%2ev2.Unmarshal" |}
           "gopkg.in/" "yaml.v2" "Unmarshal").
  - reflexivity.
  - reflexivity.
  - reflexivity.
  - reflexivity.
Defined.

(** A percent sign that is not followed by two hexadecimal digits makes
    [String] return the empty string: the error of [QueryUnescape] is
    dropped. *)
Theorem String_of_a_malformed_escape_is_empty (f : Function) (a rest : string) :
  Raw f = a +:+ String "%" rest ->
  plain a = true -> twoHexAhead rest = false ->
  Function_String f = EmptyString.
Proof.
  intros Hraw Ha Hrest. unfold Function_String, url.QueryUnescape.
  rewrite Hraw, (unescape_plain _ _ Ha).
  assert (Hnone : url.unescape (String "%" rest) = None).
  { cbn [url.unescape]. change (Ascii.eqb "%" "%") with true. cbv iota.
    destruct rest as [|x [|y rest']]; try reflexivity.
    cbn [twoHexAhead] in Hrest. rewrite Hrest. reflexivity. }
  rewrite Hnone. reflexivity.
Qed.

Lemma String_of_a_malformed_escape_is_empty_witness :
  Function_String {| Raw := "main.grow100%" |} = EmptyString.
Proof.
  apply (String_of_a_malformed_escape_is_empty {| Raw := "main.grow100%" |}
           "main.grow100" EmptyString).
  - reflexivity.
  - reflexivity.
  - reflexivity.
Defined.
